(** * WikiWiki: entity resolver and graph builder

    A shallow embedding of [src/lib/entityResolver.js],
    [src/lib/graphBuilder.js] and the handlers of [src/App.svelte] that need
    no timer.  Network providers are oracles collected in a
    [World] record; a rejected [fetch] (or a response that cannot be read) is
    the [inl] branch of [Res].  JavaScript strings are byte strings in UTF-8;
    [String.prototype.toLowerCase], a service of the language runtime, is a
    method of the [JsRuntime] class. *)

From stdpp Require Import gmap gmultiset strings list fin_maps sorting.
From Stdlib Require Import Ascii ZArith Qcanon.

Local Open Scope Z_scope.

(** ** JavaScript building blocks *)

Module Js.

(** Services of the runtime that the program calls but does not define. *)
Class JsRuntime := {
  toLowerCase : string → string;
  (** [new URL(link).hostname]; [None] when the constructor throws. *)
  url_hostname : string → option string;
  (** [s.replace(/\s+/g, '')] *)
  strip_whitespace : string → string
}.

(** Truthiness of a string: only the empty string is falsy. *)
Definition truthy (s : string) : bool :=
  match s with EmptyString => false | String _ _ => true end.

(** Truthiness of a possibly undefined string. *)
Definition truthy_opt (o : option string) : bool :=
  match o with Some s => truthy s | None => false end.

(** [a || b] where [a] is a string, [undefined] or [null]. *)
Definition or_else (a b : option string) : option string :=
  if truthy_opt a then a else b.

(** [s.startsWith(p)] *)
Fixpoint startsWith (p s : string) : bool :=
  match p, s with
  | EmptyString, _ => true
  | String a p', String b s' => if Ascii.eqb a b then startsWith p' s' else false
  | String _ _, EmptyString => false
  end.

(** [s.includes(p)] *)
Fixpoint includes (p s : string) : bool :=
  startsWith p s ||
  match s with
  | EmptyString => false
  | String _ s' => includes p s'
  end.

(** The character class [\d] (no [u] flag): the ten ASCII digits. *)
Definition is_digit (a : ascii) : bool :=
  let n := nat_of_ascii a in (48 <=? n)%nat && (n <=? 57)%nat.

Fixpoint all_digits (s : string) : bool :=
  match s with
  | EmptyString => true
  | String a s' => is_digit a && all_digits s'
  end.

(** [/^\d+$/.test(s)] *)
Definition test_digits (s : string) : bool :=
  match s with
  | EmptyString => false
  | String _ _ => all_digits s
  end.

(** [l.slice(0, n)] for an integer [n]: a negative [n] counts from the end. *)
Definition slice0 {A} (n : Z) (l : list A) : list A :=
  if n <? 0
  then take (Z.to_nat (Z.max (Z.of_nat (length l) + n) 0)) l
  else take (Z.to_nat n) l.

(** [Array.prototype.sort(cmp)], which is stable: an insertion sort that
    never moves an element past one it compares equal to. *)
Section Sort.
Context {A : Type} (cmp : A → A → Z).

Fixpoint insert_sorted (x : A) (l : list A) : list A :=
  match l with
  | [] => [x]
  | y :: l' => if cmp x y <=? 0 then x :: y :: l' else y :: insert_sorted x l'
  end.

Definition sort (l : list A) : list A := foldr insert_sorted [] l.
End Sort.

(** A [Map] with string keys: entries in insertion order; [set] on a key
    already present replaces the value where it stands. *)
Section OrderedMap.
Context {V : Type}.

Definition JsMap := list (string * V).

Fixpoint map_has (k : string) (m : JsMap) : bool :=
  match m with
  | [] => false
  | (k', _) :: m' => if String.eqb k k' then true else map_has k m'
  end.

Fixpoint map_set (k : string) (v : V) (m : JsMap) : JsMap :=
  match m with
  | [] => [(k, v)]
  | (k', v') :: m' =>
      if String.eqb k k' then (k, v) :: m' else (k', v') :: map_set k v m'
  end.

Definition map_values (m : JsMap) : list V := map snd m.
End OrderedMap.
Arguments JsMap : clear implicits.

(** [l.slice(start, end)] for integers: negative positions count from the end. *)
Definition slice {A} (start finish : Z) (l : list A) : list A :=
  let len := Z.of_nat (length l) in
  let k := if start <? 0 then Z.max (len + start) 0 else Z.min start len in
  let final := if finish <? 0 then Z.max (len + finish) 0 else Z.min finish len in
  take (Z.to_nat (final - k)) (drop (Z.to_nat k) l).

(** [l.findIndex(f)]: the first position where [f] holds, or -1. *)
Fixpoint findIndex {A} (f : A → bool) (l : list A) : Z :=
  match l with
  | [] => -1
  | x :: l' =>
      if f x then 0
      else let r := findIndex f l' in if r =? -1 then -1 else r + 1
  end.

(** An ASCII-only runtime, enough to run the program on ASCII inputs. *)
Definition ascii_lower (a : ascii) : ascii :=
  let n := nat_of_ascii a in
  if (65 <=? n)%nat && (n <=? 90)%nat then ascii_of_nat (n + 32) else a.

Fixpoint ascii_toLowerCase (s : string) : string :=
  match s with
  | EmptyString => EmptyString
  | String a s' => String (ascii_lower a) (ascii_toLowerCase s')
  end.

Fixpoint ascii_strip_whitespace (s : string) : string :=
  match s with
  | EmptyString => EmptyString
  | String a s' =>
      if (nat_of_ascii a =? 32)%nat
         || ((9 <=? nat_of_ascii a)%nat && (nat_of_ascii a <=? 13)%nat)
      then ascii_strip_whitespace s'
      else String a (ascii_strip_whitespace s')
  end.

(** Drops "scheme://" and cuts at the first '/', for URLs without port,
    user info, query or fragment. *)
Fixpoint until_slash (s : string) : string :=
  match s with
  | EmptyString => EmptyString
  | String a s' => if Ascii.eqb a "/"%char then EmptyString else String a (until_slash s')
  end.

Definition ascii_url_hostname (s : string) : option string :=
  if startsWith "https://" s
  then Some (ascii_toLowerCase (until_slash (String.substring 8 (String.length s) s)))
  else if startsWith "http://" s
  then Some (ascii_toLowerCase (until_slash (String.substring 7 (String.length s) s)))
  else None.

Definition ascii_runtime : JsRuntime :=
  {| toLowerCase := ascii_toLowerCase;
     url_hostname := ascii_url_hostname;
     strip_whitespace := ascii_strip_whitespace |}.

End Js.

(** ** entityResolver.js *)

Module EntityResolver.
Import Js.

(** Provider data that the program only passes along. *)
#[warnings="-register-all"]
Inductive Json :=
| JNull
| JBool (b : bool)
| JNum (q : Qc)
| JStr (s : string)
| JArr (l : list Json)
| JObj (fields : list (string * Json)).

(** What a rejected promise carries: an [Error] built by the program, a
    [TypeError] raised by a property read on [undefined], or whatever a
    failed [fetch] or [json()] rejects with. *)
Inductive exn :=
| JsError (message : string)
| TypeError (message : string)
| Rejected (reason : string).

Definition Res (A : Type) : Type := exn + A.

Definition ret {A} (a : A) : Res A := inr a.
Definition throw {A} (e : exn) : Res A := inl e.
Definition bind {A B} (m : Res A) (k : A → Res B) : Res B :=
  match m with
  | inl e => inl e
  | inr a => k a
  end.

Notation "'await' x ':=' m 'in' k" := (bind m (fun x => k))
  (at level 10, x name, m at level 100, k at level 200).

(** *** Wikidata records *)

(** [mainsnak.datavalue.value]: a string (external identifiers), an entity
    reference [{id}], a globe coordinate [{latitude, longitude}], or another
    object (time, quantity, text) with none of these fields. *)
Inductive Value :=
| VString (s : string)
| VEntityId (id : option string)
| VCoordinate (latitude longitude : option Qc)
| VOther (j : list (string * Json)).

Definition value_truthy (v : Value) : bool :=
  match v with
  | VString s => truthy s
  | _ => true
  end.

(** [value.id] *)
Definition value_id (v : Value) : option string :=
  match v with
  | VEntityId id => id
  | _ => None
  end.

Definition value_latitude (v : Value) : option Qc :=
  match v with VCoordinate la _ => la | _ => None end.

Definition value_longitude (v : Value) : option Qc :=
  match v with VCoordinate _ lo => lo | _ => None end.

(** A value inside a template literal. *)
Definition value_to_string (v : Value) : string :=
  match v with
  | VString s => s
  | _ => "[object Object]"
  end.

(** A claim, read only through [claim.mainsnak.datavalue?.value]. *)
Record Claim := { mainsnak_value : option Value }.

Record WikidataEntity := {
  labels : gmap string string;        (** [labels?.[lang]?.value] *)
  descriptions : gmap string string;  (** [descriptions?.[lang]?.value] *)
  claims : option (gmap string (list Claim));
  sitelinks : option Json
}.

(** *** Entity *)

Record WikidataSource := {
  wd_claims : option (gmap string (list Claim));
  wd_sitelinks : Json
}.

Record WikipediaSource := {
  wp_title : option string;
  wp_extract : option string;
  wp_thumbnail : option string;
  wp_url : option string;
  wp_links : option (list string)
}.

Record LinkObj := { lo_url : string; lo_domain : string; lo_display : string }.

Record MusicBrainzSource := {
  mb_name : Json;
  mb_type : Json;
  mb_recordings : option (list Json);
  mb_releases : option (list Json);
  mb_relations : Json
}.

Record TmdbSource := {
  tm_title : Json;
  tm_overview : Json;
  tm_release_date : Json;
  tm_poster : option string;
  tm_backdrop : option string;
  tm_rating : Json;
  tm_genres : Json
}.

Record OpenLibrarySource := {
  ol_name : option string;
  ol_bio : option string;
  ol_birth_date : Json;
  ol_death_date : Json;
  ol_works_count : Json;
  ol_cover : option string
}.

Record CommonsImage := {
  ci_url : option string;
  ci_source_url : option string;
  ci_width : Json;
  ci_height : Json;
  ci_title : Json
}.

Record OpenStreetMapSource := {
  osm_latitude : option Qc;
  osm_longitude : option Qc;
  osm_display_name : Json;
  osm_address : Json;
  osm_type : Json;
  osm_id : Json
}.

Record Paper := {
  pa_title : option string;
  pa_summary : option string;
  pa_published : option string;
  pa_url : option string
}.

Record ArchiveItem := {
  ai_identifier : string;
  ai_title : Json;
  ai_date : Json;
  ai_creator : Json;
  ai_downloads : Json;
  ai_url : string;
  ai_embed_url : string
}.

Record ArchiveSource := {
  ar_videos : list ArchiveItem;
  ar_audio : list ArchiveItem;
  ar_texts : list ArchiveItem;
  ar_total_results : Json
}.

(** [entity.sources]: one optional field per key. *)
Record Sources := {
  wikidata : option WikidataSource;
  wikipedia : option WikipediaSource;
  external_links : option (list (string * list LinkObj));
  musicbrainz : option MusicBrainzSource;
  tmdb : option TmdbSource;
  openlibrary : option OpenLibrarySource;
  wikimedia_commons : option (list CommonsImage);
  openstreetmap : option OpenStreetMapSource;
  arxiv : option (list Paper);
  archive_org : option ArchiveSource
}.

Record Entity := {
  id : string;
  name : string;
  description : option string;
  type : string;
  identifiers : gmap string Value;
  sources : Sources
}.

Record Candidate := { title : string; wikidataId : string }.

Inductive Resolution :=
| Resolved (entity : Entity)
| Disambiguation (needsDisambiguation : bool) (candidates : list Candidate).

(** *** Provider responses *)

(** One page of [data.query.pages]. *)
Record Page := { pageprops_wikibase_item : option string; page_title : string }.

Record Summary := {
  s_title : option string;
  s_extract : option string;
  s_thumbnail_source : option string;
  s_desktop_page : option string
}.

Record MusicBrainzArtist := {
  mba_name : Json;
  mba_type : Json;
  mba_recordings : option (list Json);
  mba_releases : option (list Json);
  mba_relations : Json
}.

Record TmdbMovie := {
  tmm_title : Json;
  tmm_overview : Json;
  tmm_release_date : Json;
  tmm_poster_path : option string;
  tmm_backdrop_path : option string;
  tmm_vote_average : Json;
  tmm_genres : Json
}.

Record OpenLibraryRecord := {
  olr_name : option string;
  olr_title : option string;
  olr_bio_value : option string;
  olr_description_value : option string;
  olr_birth_date : Json;
  olr_death_date : Json;
  olr_work_count : Json;
  olr_cover0 : option string   (** [data.covers?.[0]], as printed *)
}.

Record ImageInfo := {
  ii_thumburl : option string;
  ii_url : option string;
  ii_width : Json;
  ii_height : Json
}.

Record CommonsPage := { cp_imageinfo : option (list ImageInfo); cp_title : Json }.

Record NominatimPlace := {
  np_display_name : Json;
  np_address : Json;
  np_type : Json;
  np_osm_id : Json
}.

Record ArchiveDoc := {
  ad_identifier : string;
  ad_title : Json;
  ad_mediatype : string;
  ad_date : Json;
  ad_creator : Json;
  ad_downloads : Json
}.

Record ArchiveResponse := {
  arr_docs : option (list ArchiveDoc);
  arr_numFound : Json
}.

(** The outside world: each field answers one request of the program with
    the parsed response, or with the rejection of [fetch] / [json()]. *)
Record World := {
  (** [action=opensearch] on the Wikipedia of a language: [data[1]] when
      [data] is an array with a truthy second element. *)
  opensearch : string → string → Res (option (list string));
  (** [action=query&prop=pageprops&redirects=1]: [data.query.pages] with
      its keys in [Object.keys] order, when present. *)
  query_pageprops : string → string → Res (option (list (string * Page)));
  (** [Special:EntityData/<id>.json]: [data.entities[id]]. *)
  wikidata_entity : string → Res (option WikidataEntity);
  page_summary : string → string → Res Summary;
  (** [linksData.parse?.links], each link by its ['*'] field. *)
  parse_links : string → string → Res (option (list string));
  (** [data.parse?.externallinks] *)
  parse_externallinks : string → string → Res (option (list string));
  musicbrainz_artist : string → Res MusicBrainzArtist;
  tmdb_movie : string → string → string → Res TmdbMovie;
  openlibrary_json : string → Res OpenLibraryRecord;
  (** [Object.values(data.query.pages)] when [data.query?.pages] exists. *)
  commons_search : string → Res (option (list CommonsPage));
  nominatim_reverse : option Qc → option Qc → Res NominatimPlace;
  arxiv_query : string → Res string;
  archive_search : string → Res ArchiveResponse;
  (** [action=wbgetentities&props=labels]: [data.entities], each entity by
      its [labels?.[lang]?.value] per language. *)
  wbgetentities : list string → string → Res (option (gmap string (gmap string string)))
}.

(** The module-level variable [CURRENT_LANG]. *)
Record Globals := { CURRENT_LANG : string }.

Definition setLanguage (lang : string) (g : Globals) : Globals :=
  {| CURRENT_LANG := lang |}.

Definition getLanguage (g : Globals) : string := CURRENT_LANG g.

Definition TMDB_API_KEY : option string := None.

(** The double-quote character. *)
Definition dquote : string := String "034"%char EmptyString.

(** *** Search and disambiguation *)

Definition searchWikipedia (g : Globals) (w : World) (query : string) : Res (list string) :=
  await data := opensearch w (CURRENT_LANG g) query in
  ret (match data with Some titles => titles | None => [] end).

Record WikidataRef := { ref_id : option string; realTitle : string }.

Definition getWikidataIdFromWikipedia (g : Globals) (w : World) (title : string)
  : Res (option WikidataRef) :=
  await pages := query_pageprops w (CURRENT_LANG g) title in
  match pages with
  | None => ret None
  | Some [] => throw (TypeError "Cannot read properties of undefined (reading 'pageprops')")
  | Some ((pageId, page) :: _) =>
      if String.eqb pageId "-1" then ret None
      else ret (Some {| ref_id := or_else (pageprops_wikibase_item page) None;
                        realTitle := page_title page |})
  end.

(** One turn of the loop over [searchResults], after the lookup returned. *)
Definition addCandidate (candidates : list Candidate) (result : option WikidataRef)
  : list Candidate :=
  match result with
  | Some r =>
      match ref_id r with
      | Some i =>
          if truthy i then
            match find (fun c => String.eqb (wikidataId c) i) candidates with
            | Some alreadyExists => candidates
            | None => candidates ++ [{| title := realTitle r; wikidataId := i |}]
            end
          else candidates
      | None => candidates
      end
  | None => candidates
  end.

Fixpoint collectCandidates (g : Globals) (w : World) (searchResults : list string)
    (candidates : list Candidate) : Res (list Candidate) :=
  match searchResults with
  | [] => ret candidates
  | title :: rest =>
      await result := getWikidataIdFromWikipedia g w title in
      collectCandidates g w rest (addCandidate candidates result)
  end.

(** *** Base entity *)

Definition fetchWikidataEntity (w : World) (wikidataId : string) : Res (option WikidataEntity) :=
  wikidata_entity w wikidataId.

Definition getLabel (entity : WikidataEntity) (lang : string) : option string :=
  or_else (labels entity !! lang) (labels entity !! "en").

Definition getDescription (entity : WikidataEntity) (lang : string) : option string :=
  or_else (descriptions entity !! lang) (descriptions entity !! "en").

Definition typeMap : list (string * string) :=
  [ ("Q5", "person"); ("Q215627", "person"); ("Q11424", "film");
    ("Q5398426", "series"); ("Q571", "book"); ("Q7725634", "book");
    ("Q8341", "concept"); ("Q7278", "concept"); ("Q515", "place");
    ("Q486972", "place"); ("Q7275", "place"); ("Q8502", "place");
    ("Q4022", "place"); ("Q35127", "concept"); ("Q28640", "person");
    ("Q1644573", "concept"); ("Q11173", "concept") ].

(** [table[key]] on an object literal, own keys only. *)
Fixpoint assoc {V} (key : string) (table : list (string * V)) : option V :=
  match table with
  | [] => None
  | (k, v) :: table' => if String.eqb key k then Some v else assoc key table'
  end.

Definition inferEntityType (entity : WikidataEntity) : string :=
  let claims := default ∅ (claims entity) in
  match claims !! "P31" with
  | Some (first :: _) =>
      let instanceOf := mainsnak_value first ≫= value_id in
      match instanceOf ≫= (fun i => assoc i typeMap) with
      | Some t => t
      | None => "entity"
      end
  | _ => "entity"
  end.

Definition propertyMap : list (string * string) :=
  [ ("P434", "musicbrainz"); ("P1004", "musicbrainz_work"); ("P4985", "tmdb");
    ("P214", "viaf"); ("P227", "gnd"); ("P1953", "discogs"); ("P646", "freebase");
    ("P648", "openlibrary"); ("P345", "imdb"); ("P1233", "isfdb_author");
    ("P496", "orcid"); ("P625", "coordinates"); ("P18", "image") ].

Definition extractExternalIdentifiers (wikidataEntity : WikidataEntity) : gmap string Value :=
  let claims := default ∅ (claims wikidataEntity) in
  foldl (fun (identifiers : gmap string Value) '(property, name) =>
           match claims !! property with
           | Some (first :: _) =>
               match mainsnak_value first with
               | Some value =>
                   if value_truthy value then
                     if String.eqb property "P625"
                     then <[name := VCoordinate (value_latitude value)
                                                (value_longitude value)]> identifiers
                     else <[name := value]> identifiers
                   else identifiers
               | None => identifiers
               end
           | _ => identifiers
           end)
        ∅ propertyMap.

(** *** Writes to [entity.sources] *)

Definition with_sources (f : Sources → Sources) (e : Entity) : Entity :=
  {| id := id e; name := name e; description := description e; type := type e;
     identifiers := identifiers e; sources := f (sources e) |}.

Definition set_wikipedia (v : WikipediaSource) (s : Sources) : Sources :=
  {| wikidata := wikidata s; wikipedia := Some v; external_links := external_links s;
     musicbrainz := musicbrainz s; tmdb := tmdb s; openlibrary := openlibrary s;
     wikimedia_commons := wikimedia_commons s; openstreetmap := openstreetmap s;
     arxiv := arxiv s; archive_org := archive_org s |}.

Definition set_external_links (v : list (string * list LinkObj)) (s : Sources) : Sources :=
  {| wikidata := wikidata s; wikipedia := wikipedia s; external_links := Some v;
     musicbrainz := musicbrainz s; tmdb := tmdb s; openlibrary := openlibrary s;
     wikimedia_commons := wikimedia_commons s; openstreetmap := openstreetmap s;
     arxiv := arxiv s; archive_org := archive_org s |}.

Definition set_musicbrainz (v : MusicBrainzSource) (s : Sources) : Sources :=
  {| wikidata := wikidata s; wikipedia := wikipedia s; external_links := external_links s;
     musicbrainz := Some v; tmdb := tmdb s; openlibrary := openlibrary s;
     wikimedia_commons := wikimedia_commons s; openstreetmap := openstreetmap s;
     arxiv := arxiv s; archive_org := archive_org s |}.

Definition set_tmdb (v : TmdbSource) (s : Sources) : Sources :=
  {| wikidata := wikidata s; wikipedia := wikipedia s; external_links := external_links s;
     musicbrainz := musicbrainz s; tmdb := Some v; openlibrary := openlibrary s;
     wikimedia_commons := wikimedia_commons s; openstreetmap := openstreetmap s;
     arxiv := arxiv s; archive_org := archive_org s |}.

Definition set_openlibrary (v : OpenLibrarySource) (s : Sources) : Sources :=
  {| wikidata := wikidata s; wikipedia := wikipedia s; external_links := external_links s;
     musicbrainz := musicbrainz s; tmdb := tmdb s; openlibrary := Some v;
     wikimedia_commons := wikimedia_commons s; openstreetmap := openstreetmap s;
     arxiv := arxiv s; archive_org := archive_org s |}.

Definition set_wikimedia_commons (v : list CommonsImage) (s : Sources) : Sources :=
  {| wikidata := wikidata s; wikipedia := wikipedia s; external_links := external_links s;
     musicbrainz := musicbrainz s; tmdb := tmdb s; openlibrary := openlibrary s;
     wikimedia_commons := Some v; openstreetmap := openstreetmap s;
     arxiv := arxiv s; archive_org := archive_org s |}.

Definition set_openstreetmap (v : OpenStreetMapSource) (s : Sources) : Sources :=
  {| wikidata := wikidata s; wikipedia := wikipedia s; external_links := external_links s;
     musicbrainz := musicbrainz s; tmdb := tmdb s; openlibrary := openlibrary s;
     wikimedia_commons := wikimedia_commons s; openstreetmap := Some v;
     arxiv := arxiv s; archive_org := archive_org s |}.

Definition set_arxiv (v : list Paper) (s : Sources) : Sources :=
  {| wikidata := wikidata s; wikipedia := wikipedia s; external_links := external_links s;
     musicbrainz := musicbrainz s; tmdb := tmdb s; openlibrary := openlibrary s;
     wikimedia_commons := wikimedia_commons s; openstreetmap := openstreetmap s;
     arxiv := Some v; archive_org := archive_org s |}.

Definition set_archive_org (v : ArchiveSource) (s : Sources) : Sources :=
  {| wikidata := wikidata s; wikipedia := wikipedia s; external_links := external_links s;
     musicbrainz := musicbrainz s; tmdb := tmdb s; openlibrary := openlibrary s;
     wikimedia_commons := wikimedia_commons s; openstreetmap := openstreetmap s;
     arxiv := arxiv s; archive_org := Some v |}.

(** *** Text helpers of the enrichments *)

Fixpoint string_drop (n : nat) (s : string) : string :=
  match n, s with
  | O, _ => s
  | S n', String _ s' => string_drop n' s'
  | S _, EmptyString => EmptyString
  end.

(** The text before and after the first occurrence of [pat]. *)
Fixpoint split_first (pat s : string) : option (string * string) :=
  if startsWith pat s then Some (EmptyString, string_drop (String.length pat) s)
  else match s with
       | EmptyString => None
       | String a s' =>
           match split_first pat s' with
           | Some (before, after) => Some (String a before, after)
           | None => None
           end
       end.

(** [s.replace(pat, '')]: the first occurrence only. *)
Definition remove_first (pat s : string) : string :=
  match split_first pat s with
  | Some (before, after) => before +:+ after
  | None => s
  end.

(** [s.split(sep)[0]] *)
Definition before_first (sep s : string) : string :=
  match split_first sep s with
  | Some (before, _) => before
  | None => s
  end.

(** All matches of [/open[\s\S]*?close/g], left to right; [skip] characters
    of the last match are still to be passed over. *)
Fixpoint match_all_between (open close : string) (skip : nat) (s : string) : list string :=
  match s with
  | EmptyString => []
  | String _ s' =>
      match skip with
      | S k => match_all_between open close k s'
      | O =>
          if startsWith open s then
            match split_first close (string_drop (String.length open) s) with
            | Some (mid, _) =>
                let m := open +:+ mid +:+ close in
                m :: match_all_between open close (String.length m - 1) s'
            | None => []
            end
          else match_all_between open close 0 s'
      end
  end.

(** Line terminators, which [.] does not match: LF, CR, U+2028, U+2029. *)
Definition line_terminators : list string :=
  [ String "010"%char EmptyString; String "013"%char EmptyString;
    String "226"%char (String "128"%char (String "168"%char EmptyString));
    String "226"%char (String "128"%char (String "169"%char EmptyString)) ].

(** [(.*?)close] anchored at the start of [s]. *)
Fixpoint capture_line (close s : string) : option string :=
  if startsWith close s then Some EmptyString
  else match s with
       | EmptyString => None
       | String a s' =>
           if existsb (fun t => startsWith t s) line_terminators then None
           else String a <$> capture_line close s'
       end.

(** [s.match(/open(.*?)close/)?.[1]] *)
Fixpoint capture_first (open close s : string) : option string :=
  match (if startsWith open s
         then capture_line close (string_drop (String.length open) s)
         else None) with
  | Some c => Some c
  | None =>
      match s with
      | EmptyString => None
      | String _ s' => capture_first open close s'
      end
  end.

(** *** Language detection *)

(** The properties of [navigator] that the module reads. *)
Record Navigator := { language : option string; userLanguage : option string }.

Definition getBrowserLanguage (navigator : Navigator) : string :=
  let lang :=
    default "en" (or_else (or_else (language navigator) (userLanguage navigator))
                          (Some "en")) in
  before_first "-" lang.

(** The initial value of [CURRENT_LANG]. *)
Definition initialGlobals (navigator : Navigator) : Globals :=
  {| CURRENT_LANG := getBrowserLanguage navigator |}.

Definition getWikipediaAPI (g : Globals) : string :=
  "https://" +:+ CURRENT_LANG g +:+ ".wikipedia.org/w/api.php".

(** *** Enrichments

    Each enrichment returns the entity after its writes and the warnings it
    printed with [console.warn]; a warning is printed exactly when the
    [catch] branch of the operation ran.  Each operation reads only [name],
    [type] and [identifiers], which nothing writes, and writes only its own
    key of [sources], so running them in the order of the
    [Promise.allSettled] array gives the entity that any interleaving
    gives.  The operations print as they complete, in an order that the
    providers decide and not the program: what they print together is kept
    as a multiset. *)

Section Enrichments.
Context `{JsRuntime}.
Variable g : Globals.
Variable w : World.

Definition enrichFromWikipedia (entity : Entity) (title : string) : Entity * list string :=
  match page_summary w (CURRENT_LANG g) title with
  | inl _ => (entity, ["Wikipedia enrichment failed:"])
  | inr summary =>
      let wikipedia :=
        {| wp_title := s_title summary;
           wp_extract := s_extract summary;
           wp_thumbnail := s_thumbnail_source summary;
           wp_url := s_desktop_page summary;
           wp_links := None |} in
      let entity := with_sources (set_wikipedia wikipedia) entity in
      match parse_links w (CURRENT_LANG g) title with
      | inl _ => (entity, ["Wikipedia enrichment failed:"])
      | inr None => (entity, [])
      | inr (Some links) =>
          (with_sources
             (set_wikipedia
                {| wp_title := wp_title wikipedia;
                   wp_extract := wp_extract wikipedia;
                   wp_thumbnail := wp_thumbnail wikipedia;
                   wp_url := wp_url wikipedia;
                   wp_links := Some (take 50 links) |})
             entity, [])
      end
  end.

Definition musicDomains : list string :=
  [ "allmusic.com"; "discogs.com"; "musicbrainz.org"; "last.fm"; "spotify.com";
    "deezer.com"; "rateyourmusic.com"; "allaboutjazz.com"; "jazzmusicarchives.com" ].

Definition videoDomains : list string :=
  [ "imdb.com"; "allocine.fr"; "rottentomatoes.com"; "youtube.com"; "youtu.be"; "vimeo.com" ].

Definition socialDomains : list string :=
  [ "facebook.com"; "twitter.com"; "instagram.com"; "linkedin.com"; "tiktok.com" ].

Record CategorizedLinks := {
  cl_music : list LinkObj;
  cl_video : list LinkObj;
  cl_social : list LinkObj;
  cl_official : list LinkObj;
  cl_other : list LinkObj
}.

(** One turn of the loop over [externalLinks]. *)
Definition categorizeLink (entity : Entity) (c : CategorizedLinks) (link : string)
  : CategorizedLinks :=
  match url_hostname link with
  | None => c
  | Some hostname =>
      let domain := remove_first "www." hostname in
      let linkObj :=
        {| lo_url := link; lo_domain := domain; lo_display := before_first "." domain |} in
      if includes "official" domain
         || String.eqb domain (strip_whitespace (toLowerCase (name entity)))
      then {| cl_music := cl_music c; cl_video := cl_video c; cl_social := cl_social c;
              cl_official := cl_official c ++ [linkObj]; cl_other := cl_other c |}
      else if existsb (fun d => includes d domain) musicDomains
      then {| cl_music := cl_music c ++ [linkObj]; cl_video := cl_video c;
              cl_social := cl_social c; cl_official := cl_official c; cl_other := cl_other c |}
      else if existsb (fun d => includes d domain) videoDomains
      then {| cl_music := cl_music c; cl_video := cl_video c ++ [linkObj];
              cl_social := cl_social c; cl_official := cl_official c; cl_other := cl_other c |}
      else if existsb (fun d => includes d domain) socialDomains
      then {| cl_music := cl_music c; cl_video := cl_video c;
              cl_social := cl_social c ++ [linkObj]; cl_official := cl_official c;
              cl_other := cl_other c |}
      else {| cl_music := cl_music c; cl_video := cl_video c; cl_social := cl_social c;
              cl_official := cl_official c; cl_other := cl_other c ++ [linkObj] |}
  end.

Definition enrichFromWikipediaExternalLinks (entity : Entity) (title : string)
  : Entity * list string :=
  match parse_externallinks w (CURRENT_LANG g) title with
  | inl _ => (entity, ["External links enrichment failed:"])
  | inr None => (entity, [])
  | inr (Some externalLinks) =>
      let c := foldl (categorizeLink entity)
                 {| cl_music := []; cl_video := []; cl_social := [];
                    cl_official := []; cl_other := [] |}
                 externalLinks in
      let entries :=
        [ ("music", cl_music c); ("video", cl_video c); ("social", cl_social c);
          ("official", cl_official c); ("other", cl_other c) ] in
      (with_sources
         (set_external_links (filter (fun kv => (0 < length kv.2)%nat) entries))
         entity, [])
  end.

Definition enrichFromMusicBrainz (entity : Entity) : Entity * list string :=
  match identifiers entity !! "musicbrainz" with
  | None => (entity, [])
  | Some mbId =>
      if negb (value_truthy mbId) then (entity, []) else
      match musicbrainz_artist w (value_to_string mbId) with
      | inl _ => (entity, ["MusicBrainz enrichment failed:"])
      | inr data =>
          (with_sources
             (set_musicbrainz
                {| mb_name := mba_name data;
                   mb_type := mba_type data;
                   mb_recordings := take 20 <$> mba_recordings data;
                   mb_releases := take 20 <$> mba_releases data;
                   mb_relations := mba_relations data |})
             entity, [])
      end
  end.

Definition enrichFromTMDB (entity : Entity) : Entity * list string :=
  match identifiers entity !! "tmdb", TMDB_API_KEY with
  | Some tmdbId, Some key =>
      if negb (value_truthy tmdbId) || negb (truthy key) then (entity, []) else
      match tmdb_movie w (value_to_string tmdbId) key (CURRENT_LANG g) with
      | inl _ => (entity, ["TMDB enrichment failed:"])
      | inr data =>
          (with_sources
             (set_tmdb
                {| tm_title := tmm_title data;
                   tm_overview := tmm_overview data;
                   tm_release_date := tmm_release_date data;
                   tm_poster :=
                     if truthy_opt (tmm_poster_path data)
                     then String.append "https://image.tmdb.org/t/p/w500" <$> tmm_poster_path data
                     else None;
                   tm_backdrop :=
                     if truthy_opt (tmm_backdrop_path data)
                     then String.append "https://image.tmdb.org/t/p/w1280" <$> tmm_backdrop_path data
                     else None;
                   tm_rating := tmm_vote_average data;
                   tm_genres := tmm_genres data |})
             entity, [])
      end
  | _, _ => (entity, [])
  end.

Definition enrichFromOpenLibrary (entity : Entity) : Entity * list string :=
  match identifiers entity !! "openlibrary" with
  | None => (entity, [])
  | Some v =>
      if negb (value_truthy v) then (entity, []) else
      match v with
      | VString olId =>
          let fetched (endpoint : string) :=
            match openlibrary_json w endpoint with
            | inl _ => (entity, ["OpenLibrary enrichment failed:"])
            | inr data =>
                (with_sources
                   (set_openlibrary
                      {| ol_name := or_else (olr_name data) (olr_title data);
                         ol_bio := or_else (olr_bio_value data) (olr_description_value data);
                         ol_birth_date := olr_birth_date data;
                         ol_death_date := olr_death_date data;
                         ol_works_count := olr_work_count data;
                         ol_cover :=
                           if truthy_opt (olr_cover0 data)
                           then (fun c => "https://covers.openlibrary.org/b/id/" +:+ c +:+ "-L.jpg")
                                  <$> olr_cover0 data
                           else None |})
                   entity, [])
            end in
          if startsWith "OL" olId && includes "A" olId
          then fetched ("https://openlibrary.org/authors/" +:+ olId +:+ ".json")
          else if startsWith "OL" olId && includes "W" olId
          then fetched ("https://openlibrary.org/works/" +:+ olId +:+ ".json")
          else (entity, [])
      | _ =>
          (* [olId.startsWith] is not a function: a TypeError inside [try] *)
          (entity, ["OpenLibrary enrichment failed:"])
      end
  end.

(** [page => ({ url: page.imageinfo[0].thumburl || ..., ... })] *)
Definition commonsImage (page : CommonsPage) : Res CommonsImage :=
  match cp_imageinfo page with
  | Some (info :: _) =>
      ret {| ci_url := or_else (ii_thumburl info) (ii_url info);
             ci_source_url := ii_url info;
             ci_width := ii_width info;
             ci_height := ii_height info;
             ci_title := cp_title page |}
  | _ => throw (TypeError "Cannot read properties of undefined (reading 'thumburl')")
  end.

Fixpoint mapRes {A B} (f : A → Res B) (l : list A) : Res (list B) :=
  match l with
  | [] => ret []
  | a :: l' =>
      await b := f a in
      await bs := mapRes f l' in
      ret (b :: bs)
  end.

Definition enrichFromWikimediaCommons (entity : Entity) : Entity * list string :=
  match commons_search w (name entity) with
  | inl _ => (entity, ["Wikimedia Commons enrichment failed:"])
  | inr None => (entity, [])
  | inr (Some pages) =>
      match mapRes commonsImage (filter (fun page => is_Some (cp_imageinfo page)) pages) with
      | inl _ => (entity, ["Wikimedia Commons enrichment failed:"])
      | inr images => (with_sources (set_wikimedia_commons (take 5 images)) entity, [])
      end
  end.

Definition enrichFromOpenStreetMap (entity : Entity) : Entity * list string :=
  match identifiers entity !! "coordinates" with
  | None => (entity, [])
  | Some coordinates =>
      if negb (value_truthy coordinates) then (entity, []) else
      let latitude := value_latitude coordinates in
      let longitude := value_longitude coordinates in
      match nominatim_reverse w latitude longitude with
      | inl _ => (entity, ["OpenStreetMap enrichment failed:"])
      | inr data =>
          (with_sources
             (set_openstreetmap
                {| osm_latitude := latitude;
                   osm_longitude := longitude;
                   osm_display_name := np_display_name data;
                   osm_address := np_address data;
                   osm_type := np_type data;
                   osm_id := np_osm_id data |})
             entity, [])
      end
  end.

Definition paperOfEntry (entry : string) : Paper :=
  {| pa_title := capture_first "<title>" "</title>" entry;
     pa_summary := capture_first "<summary>" "</summary>" entry;
     pa_published := capture_first "<published>" "</published>" entry;
     pa_url := capture_first "<id>" "</id>" entry |}.

Definition enrichFromArxiv (entity : Entity) : Entity * list string :=
  if negb (String.eqb (type entity) "concept") then (entity, []) else
  match arxiv_query w (name entity) with
  | inl _ => (entity, ["arXiv enrichment failed:"])
  | inr xmlText =>
      match match_all_between "<entry>" "</entry>" 0 xmlText with
      | [] => (entity, [])
      | entries => (with_sources (set_arxiv (paperOfEntry <$> take 3 entries)) entity, [])
      end
  end.

Definition enrichItem (item : ArchiveDoc) : ArchiveItem :=
  {| ai_identifier := ad_identifier item;
     ai_title := ad_title item;
     ai_date := ad_date item;
     ai_creator := ad_creator item;
     ai_downloads := ad_downloads item;
     ai_url := "https://archive.org/details/" +:+ ad_identifier item;
     ai_embed_url := "https://archive.org/embed/" +:+ ad_identifier item |}.

Definition enrichFromArchiveOrg (entity : Entity) : Entity * list string :=
  let search (searchQuery mediaTypeFilter : string) :=
    match archive_search w (searchQuery +:+ " AND " +:+ mediaTypeFilter) with
    | inl _ => (entity, ["Archive.org enrichment failed:"])
    | inr data =>
        match arr_docs data with
        | None | Some [] => (entity, [])
        | Some items =>
            let videos :=
              take 3 (filter (fun item => bool_decide (ad_mediatype item = "movies"
                                                       ∨ ad_mediatype item = "video")) items) in
            let audio :=
              take 5 (filter (fun item => bool_decide (ad_mediatype item = "audio"
                                                       ∨ ad_mediatype item = "etree")) items) in
            let texts :=
              take 5 (filter (fun item => bool_decide (ad_mediatype item = "texts")) items) in
            (with_sources
               (set_archive_org
                  {| ar_videos := enrichItem <$> videos;
                     ar_audio := enrichItem <$> audio;
                     ar_texts := enrichItem <$> texts;
                     ar_total_results := arr_numFound data |})
               entity, [])
        end
    end in
  if String.eqb (type entity) "person"
  then search ("creator:" +:+ dquote +:+ name entity +:+ dquote)
              "(mediatype:audio OR mediatype:movies)"
  else if String.eqb (type entity) "concept"
  then (entity, [])
  else search ("title:" +:+ dquote +:+ name entity +:+ dquote) EmptyString.

(** The nine operations handed to [Promise.allSettled], in array order. *)
Definition enrichments (title : string) : list (Entity → Entity * list string) :=
  [ fun e => enrichFromWikipedia e title;
    fun e => enrichFromWikipediaExternalLinks e title;
    enrichFromMusicBrainz;
    enrichFromTMDB;
    enrichFromOpenLibrary;
    enrichFromWikimediaCommons;
    enrichFromOpenStreetMap;
    enrichFromArxiv;
    enrichFromArchiveOrg ].

(** The entity after all the operations have settled, and the warnings
    printed meanwhile, in no order. *)
Definition runEnrichments (ops : list (Entity → Entity * list string)) (entity : Entity)
  : Entity * gmultiset string :=
  foldl (fun '(e, warnings) op =>
           let '(e', ws) := op e in (e', warnings ⊎ list_to_set_disj ws))
        (entity, ∅) ops.

(** *** The two exported resolvers *)

Definition baseEntity (title wikidataId : string) (wikidataEntity : WikidataEntity) : Entity :=
  {| id := wikidataId;
     name := default title (or_else (getLabel wikidataEntity (CURRENT_LANG g)) (Some title));
     description := getDescription wikidataEntity (CURRENT_LANG g);
     type := inferEntityType wikidataEntity;
     identifiers := extractExternalIdentifiers wikidataEntity;
     sources :=
       {| wikidata :=
            Some {| wd_claims := Some (default ∅ (claims wikidataEntity));
                    wd_sitelinks := default (JObj []) (sitelinks wikidataEntity) |};
          wikipedia := None; external_links := None; musicbrainz := None; tmdb := None;
          openlibrary := None; wikimedia_commons := None; openstreetmap := None;
          arxiv := None; archive_org := None |} |}.

(** The outcome of [resolveEntityFromCandidate] with what it printed. *)
Definition resolveEntityFromCandidate_log (title wikidataId : string)
  : Res (Entity * gmultiset string) :=
  await fetched := fetchWikidataEntity w wikidataId in
  match fetched with
  | None => throw (TypeError "Cannot read properties of undefined (reading 'labels')")
  | Some wikidataEntity =>
      ret (runEnrichments (enrichments title) (baseEntity title wikidataId wikidataEntity))
  end.

Definition resolveEntityFromCandidate (title wikidataId : string) : Res Entity :=
  await r := resolveEntityFromCandidate_log title wikidataId in
  ret r.1.

Definition resolveEntity (searchTerm : string) : Res Resolution :=
  await searchResults := searchWikipedia g w searchTerm in
  if (length searchResults =? 0)%nat
  then throw (JsError ("Aucun résultat trouvé pour " +:+ dquote +:+ searchTerm +:+ dquote))
  else
    await candidates := collectCandidates g w searchResults [] in
    match candidates with
    | [] =>
        throw (JsError ("Aucun article valide trouvé pour " +:+ dquote +:+ searchTerm +:+ dquote))
    | [only] =>
        await entity := resolveEntityFromCandidate (title only) (wikidataId only) in
        ret (Resolved entity)
    | _ => ret (Disambiguation true candidates)
    end.

End Enrichments.

End EntityResolver.

(** ** graphBuilder.js *)

Module GraphBuilder.
Import Js EntityResolver.

Definition SCORES_STRUCTURAL : Z := 3.
Definition SCORES_CONTEXTUAL : Z := 2.
Definition SCORES_ASSOCIATIVE : Z := 1.

Definition IMPORTANT_PROPERTIES : list (string * string) :=
  [ ("P31", "type"); ("P106", "occupation"); ("P800", "notable_work");
    ("P136", "genre"); ("P101", "field_of_work"); ("P737", "influenced_by");
    ("P175", "performer"); ("P161", "cast_member"); ("P57", "director");
    ("P279", "subclass_of") ].

(** An element of the array returned by [extractConnectedEntities]. *)
Record Connected := {
  c_id : string;
  c_label : string;
  c_type : string;
  c_score : Z;
  c_source : string
}.

(** A node: the center carries [isCenter], [description] and [thumbnail],
    the others carry [score]; a field an object lacks is [None]. *)
Record Node := {
  n_id : string;
  n_label : string;
  n_type : string;
  n_level : Z;
  n_isCenter : option bool;
  n_score : option Z;
  n_description : option string;
  n_thumbnail : option string
}.

Record Edge := {
  e_source : string;
  e_target : string;
  e_type : string;
  e_origin : string;
  e_value : Z
}.

Record Graph := { nodes : list Node; edges : list Edge }.

Definition createNode (entity : Entity) (level : Z) (isCenter : bool) : Node :=
  {| n_id := id entity;
     n_label := name entity;
     n_type := type entity;
     n_level := level;
     n_isCenter := Some isCenter;
     n_score := None;
     n_description := description entity;
     n_thumbnail := wikipedia (sources entity) ≫= wp_thumbnail |}.

Definition addEdge (graph : Graph) (fromId toId type origin : string) (score : Z) : Graph :=
  {| nodes := nodes graph;
     edges := edges graph ++
              [{| e_source := fromId; e_target := toId; e_type := type;
                  e_origin := origin; e_value := score |}] |}.

Definition technical : list string :=
  [ "Aide:"; "Modèle:"; "Wikipédia:"; "Portail:"; "Catégorie:";
    "Fichier:"; "Projet:"; "Discussion:"; "Spécial:"; "Liste de" ].

Definition months : list string :=
  [ "janvier"; "février"; "mars"; "avril"; "mai"; "juin"; "juillet"; "août";
    "septembre"; "octobre"; "novembre"; "décembre" ].

Section WithRuntime.
Context `{JsRuntime}.

Definition isLinkNoise (title : string) : bool :=
  if test_digits title then true
  else if includes "siècle" title then true
  else if existsb (fun p => startsWith p title) technical then true
  else if existsb (fun m => includes m (toLowerCase title)) months then true
  else false.

(** The callback of [claims[prop].forEach]. *)
Definition addClaim (relationType : string) (connectedMap : JsMap Connected) (claim : Claim)
  : JsMap Connected :=
  match mainsnak_value claim with
  | Some value =>
      if value_truthy value && truthy_opt (value_id value) then
        let vid := default EmptyString (value_id value) in
        map_set vid
          {| c_id := vid; c_label := vid; c_type := relationType;
             c_score := SCORES_STRUCTURAL; c_source := "wikidata" |}
          connectedMap
      else connectedMap
  | None => connectedMap
  end.

(** One turn of the loop over [Object.entries(IMPORTANT_PROPERTIES)]. *)
Definition addProperty (claims : gmap string (list Claim)) (connectedMap : JsMap Connected)
    (entry : string * string) : JsMap Connected :=
  match claims !! entry.1 with
  | Some values => foldl (addClaim entry.2) connectedMap values
  | None => connectedMap
  end.

(** The callback of [links.forEach]. *)
Definition addLink (connectedMap : JsMap Connected) (linkTitle : string) (index : nat)
  : JsMap Connected :=
  if isLinkNoise linkTitle then connectedMap
  else
    let id := "wiki:" +:+ linkTitle in
    if map_has id connectedMap then connectedMap
    else
      let score := if (index <? 10)%nat then SCORES_CONTEXTUAL else SCORES_ASSOCIATIVE in
      map_set id
        {| c_id := id; c_label := linkTitle; c_type := "related";
           c_score := score; c_source := "wikipedia" |}
        connectedMap.

(** [links.forEach((linkTitle, index) => ...)] from position [index] on. *)
Fixpoint forEachLink (links : list string) (index : nat) (connectedMap : JsMap Connected)
  : JsMap Connected :=
  match links with
  | [] => connectedMap
  | linkTitle :: links' => forEachLink links' (S index) (addLink connectedMap linkTitle index)
  end.

Definition structuralMap (entity : Entity) : JsMap Connected :=
  match wikidata (sources entity) ≫= wd_claims with
  | Some claims => foldl (addProperty claims) [] IMPORTANT_PROPERTIES
  | None => []
  end.

Definition connectedMapOf (entity : Entity) : JsMap Connected :=
  match wikipedia (sources entity) ≫= wp_links with
  | Some links => forEachLink links 0 (structuralMap entity)
  | None => structuralMap entity
  end.

Definition extractConnectedEntities (entity : Entity) : list Connected :=
  sort (fun a b => c_score b - c_score a) (map_values (connectedMapOf entity)).

(** *** Breadth-first construction *)

(** The graph under construction and the [visited] set; [nodeMap] is
    written but never read and is left out. *)
Record State := { graph : Graph; visited : gset string }.

(** The body of [for (const connected of limitedEntities)]. *)
Definition visit (entityId : string) (level : Z) (st : State) (connected : Connected) : State :=
  if decide (c_id connected ∈ visited st) then
    {| graph := addEdge (graph st) entityId (c_id connected) (c_type connected)
                  (c_source connected) (c_score connected);
       visited := visited st |}
  else
    let node :=
      {| n_id := c_id connected; n_label := c_label connected; n_type := c_type connected;
         n_level := level + 1; n_isCenter := None; n_score := Some (c_score connected);
         n_description := None; n_thumbnail := None |} in
    {| graph := addEdge {| nodes := nodes (graph st) ++ [node]; edges := edges (graph st) |}
                  entityId (c_id connected) (c_type connected)
                  (c_source connected) (c_score connected);
       visited := {[c_id connected]} ∪ visited st |}.

Definition limitedEntities (maxNodesPerLevel : Z) (entity : Entity) : list Connected :=
  slice0 maxNodesPerLevel (filter (fun e => 2 ≤ c_score e) (extractConnectedEntities entity)).

(** [while (queue.length > 0)]: the body takes the head with [shift] and
    never pushes, so the loop is a recursion on the queue. *)
Fixpoint bfs (depth maxNodesPerLevel : Z) (queue : list (Entity * Z)) (st : State) : State :=
  match queue with
  | [] => st
  | (entity, level) :: queue' =>
      if depth <=? level then bfs depth maxNodesPerLevel queue' st
      else
        bfs depth maxNodesPerLevel queue'
          (foldl (visit (id entity) level) st (limitedEntities maxNodesPerLevel entity))
  end.

(** A request sent to [wbgetentities]: the [ids] and [languages] parameters. *)
Record LabelRequest := { rq_ids : list string; rq_languages : string }.

(** The labels, and the requests sent to obtain them. *)
Definition fetchWikidataLabels (w : World) (ids : list string)
  : gmap string string * list LabelRequest :=
  if (length ids =? 0)%nat then (∅, [])
  else
    let lang := "fr" in
    let request := {| rq_ids := ids; rq_languages := lang |} in
    match wbgetentities w ids lang with
    | inl _ => (∅, [request])
    | inr None => (∅, [request])
    | inr (Some entities) =>
        (foldl (fun (labels : gmap string string) id =>
                  <[id := default id (or_else (entities !! id ≫= (.!! lang)) (Some id))]> labels)
               ∅ ids,
         [request])
    end.

(** [if (labelsMap[node.id]) node.label = labelsMap[node.id]] *)
Definition relabel (labelsMap : gmap string string) (node : Node) : Node :=
  if truthy_opt (labelsMap !! n_id node) then
    {| n_id := n_id node; n_label := default (n_label node) (labelsMap !! n_id node);
       n_type := n_type node; n_level := n_level node; n_isCenter := n_isCenter node;
       n_score := n_score node; n_description := n_description node;
       n_thumbnail := n_thumbnail node |}
  else node.

Definition initialState (centerEntity : Entity) : State :=
  {| graph := {| nodes := [createNode centerEntity 0 true]; edges := [] |};
     visited := {[id centerEntity]} |}.

(** The graph before the label pass. *)
Definition traverse (centerEntity : Entity) (depth maxNodesPerLevel : Z) : Graph :=
  graph (bfs depth maxNodesPerLevel [(centerEntity, 0)] (initialState centerEntity)).

Definition qidsToTranslate (graph : Graph) : list string :=
  n_id <$> filter (fun node => startsWith "Q" (n_id node)) (nodes graph).

(** [buildGraph] with the label requests it sent. *)
Definition buildGraph_io (w : World) (centerEntity : Entity) (depth maxNodesPerLevel : Z)
  : Graph * list LabelRequest :=
  let graph := traverse centerEntity depth maxNodesPerLevel in
  let qids := qidsToTranslate graph in
  if (0 <? length qids)%nat then
    let '(labelsMap, requests) := fetchWikidataLabels w qids in
    ({| nodes := relabel labelsMap <$> nodes graph; edges := edges graph |}, requests)
  else (graph, []).

Definition buildGraph (w : World) (centerEntity : Entity) (depth maxNodesPerLevel : Z) : Graph :=
  (buildGraph_io w centerEntity depth maxNodesPerLevel).1.

(** *** Batched resolution *)

(** [Promise.allSettled(batch.map(id => resolveEntity(id)))] reduced to the
    values of the fulfilled promises, in the order of the batch. *)
Definition fulfilledOf (g : Globals) (w : World) (batch : list string) : list Resolution :=
  omap (fun id => match resolveEntity g w id with
                  | inr value => Some value
                  | inl _ => None
                  end) batch.

(** The [for] loop of [resolveConnectedEntities] from position [i] on, run
    for at most [fuel] turns; [None] when the loop has not ended by then. *)
Fixpoint resolveConnectedEntities_from (g : Globals) (w : World) (entityIds : list string)
    (maxConcurrent : Z) (fuel : nat) (i : Z) (results : list Resolution)
  : option (list Resolution) :=
  match fuel with
  | O => None
  | S fuel' =>
      if i <? Z.of_nat (length entityIds) then
        let batch := slice i (i + maxConcurrent) entityIds in
        resolveConnectedEntities_from g w entityIds maxConcurrent fuel'
          (i + maxConcurrent) (results ++ fulfilledOf g w batch)
      else Some results
  end.

Definition resolveConnectedEntities (g : Globals) (w : World) (entityIds : list string)
    (maxConcurrent : Z) (fuel : nat) : option (list Resolution) :=
  resolveConnectedEntities_from g w entityIds maxConcurrent fuel 0 [].

End WithRuntime.

End GraphBuilder.

(** ** App.svelte *)

Module App.
Import Js EntityResolver GraphBuilder.

(** An item of the breadcrumb. *)
Record HistoryItem (K N : Type) := { h_id : K; h_name : N }.
Arguments h_id {K N}.
Arguments h_name {K N}.
Arguments Build_HistoryItem {K N}.

(** [updateHistory(id, name)], for any type of identifier that [===] compares. *)
Definition updateHistory {K N} `{EqDecision K} (id : K) (name : N)
    (history : list (HistoryItem K N)) : list (HistoryItem K N) :=
  let index := findIndex (fun item => bool_decide (h_id item = id)) history in
  if negb (index =? -1) then slice0 (index + 1) history
  else history ++ [{| h_id := id; h_name := name |}].

(** The variables of the component that the handlers below write; [entity]
    holds an entity, as [handleSearch], [selectCandidate] and [navigateBack]
    leave it. *)
Record State := {
  searchQuery : string;
  loading : bool;
  entity : option Entity;
  graph : option Graph;
  error : option string;
  candidates : option (list Candidate);
  history : list (HistoryItem string string);
  isSearchOpen : bool;
  autocompleteResults : list string
}.

(** [err.message] *)
Definition message (err : exn) : string :=
  match err with
  | JsError m => m
  | TypeError m => m
  | Rejected m => m
  end.

Section Handlers.
Context `{JsRuntime}.
(** [String.prototype.trim] *)
Variable trim : string → string.
Variable g : Globals.
Variable w : World.

(** The state once the promise of [handleSearch] has settled;
    [resolveEntity] builds no disambiguation with a false flag. *)
Definition handleSearch (st : State) : State :=
  if negb (truthy (trim (searchQuery st))) then st
  else
    match resolveEntity g w (searchQuery st) with
    | inr (Disambiguation needsDisambiguation found) =>
        if needsDisambiguation then
          {| searchQuery := searchQuery st; loading := false; entity := None;
             graph := None; error := None; candidates := Some found;
             history := history st; isSearchOpen := isSearchOpen st;
             autocompleteResults := autocompleteResults st |}
        else st
    | inr (Resolved result) =>
        {| searchQuery := searchQuery st; loading := false; entity := Some result;
           graph := Some (buildGraph w result 1 20); error := None; candidates := None;
           history := updateHistory (id result) (name result) (history st);
           isSearchOpen := isSearchOpen st;
           autocompleteResults := autocompleteResults st |}
    | inl err =>
        {| searchQuery := searchQuery st; loading := false; entity := None;
           graph := None; error := Some (message err); candidates := None;
           history := history st; isSearchOpen := isSearchOpen st;
           autocompleteResults := autocompleteResults st |}
    end.

Definition selectCandidate (candidate : Candidate) (st : State) : State :=
  match resolveEntityFromCandidate g w (title candidate) (wikidataId candidate) with
  | inr result =>
      {| searchQuery := searchQuery st; loading := false; entity := Some result;
         graph := Some (buildGraph w result 1 20); error := None; candidates := None;
         history := updateHistory (id result) (name result) (history st);
         isSearchOpen := isSearchOpen st;
         autocompleteResults := autocompleteResults st |}
  | inl err =>
      {| searchQuery := searchQuery st; loading := false; entity := entity st;
         graph := graph st; error := Some (message err); candidates := None;
         history := history st; isSearchOpen := isSearchOpen st;
         autocompleteResults := autocompleteResults st |}
  end.

Definition navigateBack (item : HistoryItem string string) (st : State) : State :=
  if loading st then st
  else
    match resolveEntityFromCandidate g w (h_name item) (h_id item) with
    | inr result =>
        {| searchQuery := searchQuery st; loading := false; entity := Some result;
           graph := Some (buildGraph w result 1 20); error := None; candidates := None;
           history := updateHistory (id result) (name result) (history st);
           isSearchOpen := isSearchOpen st;
           autocompleteResults := autocompleteResults st |}
    | inl err =>
        {| searchQuery := searchQuery st; loading := false; entity := entity st;
           graph := graph st; error := Some (message err); candidates := None;
           history := history st; isSearchOpen := isSearchOpen st;
           autocompleteResults := autocompleteResults st |}
    end.

Definition toggleSearch (st : State) : State :=
  if negb (isSearchOpen st) then
    {| searchQuery := searchQuery st; loading := loading st; entity := entity st;
       graph := graph st; error := error st; candidates := candidates st;
       history := history st; isSearchOpen := true;
       autocompleteResults := autocompleteResults st |}
  else
    {| searchQuery := EmptyString; loading := loading st; entity := entity st;
       graph := graph st; error := error st; candidates := candidates st;
       history := history st; isSearchOpen := false; autocompleteResults := [] |}.

Definition selectSuggestion (suggestion : string) (st : State) : State :=
  handleSearch
    {| searchQuery := suggestion; loading := loading st; entity := entity st;
       graph := graph st; error := error st; candidates := candidates st;
       history := history st; isSearchOpen := false; autocompleteResults := [] |}.

End Handlers.

End App.

Import Js EntityResolver GraphBuilder.

(** ** Vocabulary of the statements *)

(** [s] contains [p] as a substring. *)
Definition contains (p s : string) : Prop := ∃ a b, s = a +:+ p +:+ b.

(** [s] begins with [p]. *)
Definition has_prefix (p s : string) : Prop := ∃ r, s = p +:+ r.

(** A non-empty string of ASCII digits. *)
Definition pure_numeric (s : string) : Prop :=
  s ≠ EmptyString ∧ ∀ a, a ∈ String.list_ascii_of_string s → is_digit a = true.

(** [map.get(k)] on an ordered map. *)
Fixpoint map_get {V} (k : string) (m : JsMap V) : option V :=
  match m with
  | [] => None
  | (k', v) :: m' => if String.eqb k k' then Some v else map_get k m'
  end.

(** The identifier a claim contributes to the graph: that of an entity
    reference with a non-empty [id]. *)
Definition claimId (claim : Claim) : option string :=
  match mainsnak_value claim with
  | Some (VEntityId (Some i)) => if truthy i then Some i else None
  | _ => None
  end.

(** The identifiers referenced by the allow-listed claim properties. *)
Definition structuralIds (entity : Entity) : list string :=
  match wikidata (sources entity) ≫= wd_claims with
  | Some claims =>
      flat_map (fun entry : string * string =>
                  match claims !! entry.1 with
                  | Some values => omap claimId values
                  | None => []
                  end)
               IMPORTANT_PROPERTIES
  | None => []
  end.

(** The article's link list. *)
Definition textualLinks (entity : Entity) : list string :=
  default [] (wikipedia (sources entity) ≫= wp_links).

Definition structuralCandidate (i relationType : string) : Connected :=
  {| c_id := i; c_label := i; c_type := relationType; c_score := 3; c_source := "wikidata" |}.

Definition textualCandidate (linkTitle : string) (index : nat) : Connected :=
  {| c_id := "wiki:" +:+ linkTitle; c_label := linkTitle; c_type := "related";
     c_score := if (index <? 10)%nat then 2 else 1; c_source := "wikipedia" |}.

(** The candidate of the first link that is not noise and whose synthetic
    identifier is [k], among [links] numbered from [index]. *)
Fixpoint firstLink `{JsRuntime} (k : string) (links : list string) (index : nat)
  : option Connected :=
  match links with
  | [] => None
  | linkTitle :: links' =>
      if negb (isLinkNoise linkTitle) && String.eqb k ("wiki:" +:+ linkTitle)
      then Some (textualCandidate linkTitle index)
      else firstLink k links' (S index)
  end.

(** [m] holds exactly the identifiers [ids], each with a structural candidate. *)
Definition Structural (m : JsMap Connected) (ids : list string) : Prop :=
  NoDup m.*1 ∧
  (∀ k, is_Some (map_get k m) ↔ k ∈ ids) ∧
  (∀ k c, map_get k m = Some c → ∃ relationType, c = structuralCandidate k relationType).

(** The edge that [addEdge] appends for a candidate. *)
Definition edgeTo (entityId : string) (c : Connected) : Edge :=
  {| e_source := entityId; e_target := c_id c; e_type := c_type c;
     e_origin := c_source c; e_value := c_score c |}.

(** The invariant of the construction: [visited] is the set of node
    identifiers, these are pairwise distinct, every edge joins two nodes, and
    one node is the center. *)
Definition GraphInv (st : State) : Prop :=
  let ids := n_id <$> nodes (graph st) in
  (∀ i, i ∈ visited st ↔ i ∈ ids) ∧
  NoDup ids ∧
  (∀ e, e ∈ edges (graph st) → e_source e ∈ ids ∧ e_target e ∈ ids) ∧
  length (filter (fun n => n_isCenter n = Some true) (nodes (graph st))) = 1%nat.

(** Every edge joins two nodes of the graph, no identifier is carried by
    two nodes, and exactly one node has [isCenter = true]. *)
Definition GraphWellFormed (g : Graph) : Prop :=
  (∀ e, e ∈ edges g →
        (∃ n, n ∈ nodes g ∧ n_id n = e_source e) ∧
        (∃ n, n ∈ nodes g ∧ n_id n = e_target e)) ∧
  NoDup (n_id <$> nodes g) ∧
  length (filter (fun n => n_isCenter n = Some true) (nodes g)) = 1%nat.

(** *** Sample inputs *)

Definition ex_rejected {A} : Res A := inl (Rejected "NetworkError").

(** A world in which every request fails. *)
Definition ex_offline : World :=
  {| opensearch := fun _ _ => ex_rejected;
     query_pageprops := fun _ _ => ex_rejected;
     wikidata_entity := fun _ => ex_rejected;
     page_summary := fun _ _ => ex_rejected;
     parse_links := fun _ _ => ex_rejected;
     parse_externallinks := fun _ _ => ex_rejected;
     musicbrainz_artist := fun _ => ex_rejected;
     tmdb_movie := fun _ _ _ => ex_rejected;
     openlibrary_json := fun _ => ex_rejected;
     commons_search := fun _ => ex_rejected;
     nominatim_reverse := fun _ _ => ex_rejected;
     arxiv_query := fun _ => ex_rejected;
     archive_search := fun _ => ex_rejected;
     wbgetentities := fun _ _ => ex_rejected |}.

Definition ex_claim (i : string) : Claim :=
  {| mainsnak_value := Some (VEntityId (Some i)) |}.

Definition ex_sources (claims : gmap string (list Claim)) (links : list string) : Sources :=
  {| wikidata := Some {| wd_claims := Some claims; wd_sitelinks := JObj [] |};
     wikipedia := Some {| wp_title := None; wp_extract := None; wp_thumbnail := None;
                          wp_url := None; wp_links := Some links |};
     external_links := None; musicbrainz := None; tmdb := None; openlibrary := None;
     wikimedia_commons := None; openstreetmap := None; arxiv := None; archive_org := None |}.

(** A musician with three structural relations, one of them listed under
    two properties, and twelve links of which one is a year. *)
Definition ex_entity : Entity :=
  {| id := "Q1"; name := "Sidney Bechet"; description := None; type := "person";
     identifiers := ∅;
     sources :=
       ex_sources
         (<["P31" := [ex_claim "Q5"]]>
            (<["P106" := [ex_claim "Q639669"; ex_claim "Q5"]]>
               (<["P136" := [ex_claim "Q8341"]]> ∅)))
         [ "1959"; "Jazz"; "Paris"; "Clarinette"; "Saxophone"; "Louis Armstrong";
           "Duke Ellington"; "Blues"; "Ragtime"; "Dixieland"; "Antibes"; "Garches" ] |}.

(** The titles that the noise filter is to drop: a year or other number, a
    title with the century word, a page of a technical namespace or a list
    page, a title with a month name in it, whatever the case. *)
Definition NoiseTitle `{JsRuntime} (title : string) : Prop :=
  pure_numeric title ∨
  contains "siècle" title ∨
  (∃ p, p ∈ technical ∧ has_prefix p title) ∨
  (∃ m, m ∈ months ∧ contains m (toLowerCase title)).

(** The label the pass gives to an identifier: the French label of the
    response when it has one, the identifier otherwise. *)
Definition resolvedLabel (entities : gmap string (gmap string string)) (i : string) : string :=
  default i (or_else (entities !! i ≫= (.!! "fr")) (Some i)).

Definition withLabel (label : string) (n : Node) : Node :=
  {| n_id := n_id n; n_label := label; n_type := n_type n; n_level := n_level n;
     n_isCenter := n_isCenter n; n_score := n_score n;
     n_description := n_description n; n_thumbnail := n_thumbnail n |}.

(** A Wikidata that knows "Q5" in the language it is asked for. *)
Definition ex_bilingual : World :=
  {| opensearch := fun _ _ => ex_rejected;
     query_pageprops := fun _ _ => ex_rejected;
     wikidata_entity := fun _ => ex_rejected;
     page_summary := fun _ _ => ex_rejected;
     parse_links := fun _ _ => ex_rejected;
     parse_externallinks := fun _ _ => ex_rejected;
     musicbrainz_artist := fun _ => ex_rejected;
     tmdb_movie := fun _ _ _ => ex_rejected;
     openlibrary_json := fun _ => ex_rejected;
     commons_search := fun _ => ex_rejected;
     nominatim_reverse := fun _ _ => ex_rejected;
     arxiv_query := fun _ => ex_rejected;
     archive_search := fun _ => ex_rejected;
     wbgetentities := fun _ lang =>
       inr (Some {[ "Q5" := {[ lang := if String.eqb lang "en" then "human" else "humain" ]} ]}) |}.

(** *** Vocabulary of the resolver *)

(** The canonical identifier a lookup found, if any. *)
Definition foundId (result : option WikidataRef) : option string :=
  match result with
  | Some {| ref_id := Some i |} => if truthy i then Some i else None
  | _ => None
  end.

Definition foundIds (results : list (option WikidataRef)) : list string :=
  omap foundId results.

(** The two errors that [resolveEntity] builds itself. *)
Definition noResultError (query : string) : exn :=
  JsError ("Aucun résultat trouvé pour " +:+ dquote +:+ query +:+ dquote).

Definition noValidArticleError (query : string) : exn :=
  JsError ("Aucun article valide trouvé pour " +:+ dquote +:+ query +:+ dquote).

Definition NotFoundError (query : string) (e : exn) : Prop :=
  e = noResultError query ∨ e = noValidArticleError query.

(** Two entities that differ at most in their [sources]. *)
Definition same_core (e e' : Entity) : Prop :=
  id e = id e' ∧ name e = name e' ∧ description e = description e' ∧
  type e = type e' ∧ identifiers e = identifiers e'.

(** An optional write to one key of [sources]. *)
Definition write {P} (set : P → Sources → Sources) (p : option P) (e : Entity) : Entity :=
  match p with
  | Some v => with_sources (set v) e
  | None => e
  end.

(** A search that finds one article, whose Wikidata record cannot be fetched. *)
Definition ex_unreachable_record : World :=
  {| opensearch := fun _ _ => inr (Some ["Sidney Bechet"]);
     query_pageprops := fun _ _ =>
       inr (Some [("3041", {| pageprops_wikibase_item := Some "Q1";
                              page_title := "Sidney Bechet" |})]);
     wikidata_entity := fun _ => ex_rejected;
     page_summary := fun _ _ => ex_rejected;
     parse_links := fun _ _ => ex_rejected;
     parse_externallinks := fun _ _ => ex_rejected;
     musicbrainz_artist := fun _ => ex_rejected;
     tmdb_movie := fun _ _ _ => ex_rejected;
     openlibrary_json := fun _ => ex_rejected;
     commons_search := fun _ => ex_rejected;
     nominatim_reverse := fun _ _ => ex_rejected;
     arxiv_query := fun _ => ex_rejected;
     archive_search := fun _ => ex_rejected;
     wbgetentities := fun _ _ => ex_rejected |}.

Definition ex_record (instanceOf : string) : WikidataEntity :=
  {| labels := {[ "fr" := "Sidney Bechet" ]};
     descriptions := ∅;
     claims := Some {[ "P31" := [ex_claim instanceOf] ]};
     sitelinks := None |}.

Definition ex_page (item title : string) : option (list (string * Page)) :=
  Some [("3041", {| pageprops_wikibase_item := Some item; page_title := title |})].

(** A search with two titles: [second] is the Wikidata item of the second
    one, the first one is "Q1".  The record is served; of the enrichments
    only the page summary answers. *)
Definition ex_search (second : string) : World :=
  {| opensearch := fun _ _ => inr (Some ["Bechet"; "Bechet (homonymie)"]);
     query_pageprops := fun _ t =>
       inr (if String.eqb t "Bechet" then ex_page "Q1" "Sidney Bechet"
            else ex_page second t);
     wikidata_entity := fun _ => inr (Some (ex_record "Q5"));
     page_summary := fun _ _ =>
       inr {| s_title := Some "Sidney Bechet"; s_extract := None;
              s_thumbnail_source := None; s_desktop_page := None |};
     parse_links := fun _ _ => ex_rejected;
     parse_externallinks := fun _ _ => ex_rejected;
     musicbrainz_artist := fun _ => ex_rejected;
     tmdb_movie := fun _ _ _ => ex_rejected;
     openlibrary_json := fun _ => ex_rejected;
     commons_search := fun _ => ex_rejected;
     nominatim_reverse := fun _ _ => ex_rejected;
     arxiv_query := fun _ => ex_rejected;
     archive_search := fun _ => ex_rejected;
     wbgetentities := fun _ _ => ex_rejected |}.

Definition ex_globals : Globals := {| CURRENT_LANG := "fr" |}.

(** An entity that no enrichment has touched yet. *)
Definition unenriched (e : Entity) : Prop :=
  wikipedia (sources e) = None ∧ external_links (sources e) = None ∧
  musicbrainz (sources e) = None ∧ tmdb (sources e) = None ∧
  openlibrary (sources e) = None ∧ wikimedia_commons (sources e) = None ∧
  openstreetmap (sources e) = None ∧ arxiv (sources e) = None ∧
  archive_org (sources e) = None.

(** A search whose only title has no page. *)
Definition ex_no_article : World :=
  {| opensearch := fun _ _ => inr (Some ["Bechett"]);
     query_pageprops := fun _ _ =>
       inr (Some [("-1", {| pageprops_wikibase_item := None; page_title := "Bechett" |})]);
     wikidata_entity := fun _ => ex_rejected;
     page_summary := fun _ _ => ex_rejected;
     parse_links := fun _ _ => ex_rejected;
     parse_externallinks := fun _ _ => ex_rejected;
     musicbrainz_artist := fun _ => ex_rejected;
     tmdb_movie := fun _ _ _ => ex_rejected;
     openlibrary_json := fun _ => ex_rejected;
     commons_search := fun _ => ex_rejected;
     nominatim_reverse := fun _ _ => ex_rejected;
     arxiv_query := fun _ => ex_rejected;
     archive_search := fun _ => ex_rejected;
     wbgetentities := fun _ _ => ex_rejected |}.

(** A page that shows nothing yet. *)
Definition ex_state (query : string) : App.State :=
  {| App.searchQuery := query; App.loading := false; App.entity := None;
     App.graph := None; App.error := None; App.candidates := None;
     App.history := []; App.isSearchOpen := true; App.autocompleteResults := [] |}.

(** A breadcrumb of three entities, the last one on show. *)
Definition ex_breadcrumb : App.State :=
  {| App.searchQuery := "bechet"; App.loading := false; App.entity := None;
     App.graph := None; App.error := None; App.candidates := None;
     App.history := [ App.Build_HistoryItem "Q1" "Sidney Bechet";
                      App.Build_HistoryItem "Q8341" "Jazz";
                      App.Build_HistoryItem "Q90" "Paris" ];
     App.isSearchOpen := false; App.autocompleteResults := [] |}.

(** The link objects of all the groups, group after group. *)
Definition filed (c : CategorizedLinks) : list LinkObj :=
  cl_music c ++ cl_video c ++ cl_social c ++ cl_official c ++ cl_other c.

(** An article with three external links, one of which is no URL. *)
Definition ex_linked : World :=
  {| opensearch := fun _ _ => ex_rejected;
     query_pageprops := fun _ _ => ex_rejected;
     wikidata_entity := fun _ => ex_rejected;
     page_summary := fun _ _ => ex_rejected;
     parse_links := fun _ _ => ex_rejected;
     parse_externallinks := fun _ _ =>
       inr (Some [ "https://www.allmusic.com/artist/sidney-bechet";
                   "sidneybechet.org";
                   "https://sidneybechet.org/" ]);
     musicbrainz_artist := fun _ => ex_rejected;
     tmdb_movie := fun _ _ _ => ex_rejected;
     openlibrary_json := fun _ => ex_rejected;
     commons_search := fun _ => ex_rejected;
     nominatim_reverse := fun _ _ => ex_rejected;
     arxiv_query := fun _ => ex_rejected;
     archive_search := fun _ => ex_rejected;
     wbgetentities := fun _ _ => ex_rejected |}.

(** Two search results that lead to the same entity. *)
Definition ex_lookups : list (option WikidataRef) :=
  [ Some {| ref_id := Some "Q1"; realTitle := "Sidney Bechet" |};
    Some {| ref_id := Some "Q1"; realTitle := "Bechet (homonymie)" |} ].

(** The identifiers that the claims of the allow-listed properties write
    into the map, each with its relation type, in the order of the writes. *)
Definition structuralWrites (entity : Entity) : list (string * string) :=
  match wikidata (sources entity) ≫= wd_claims with
  | Some claims =>
      flat_map (fun entry : string * string =>
                  match claims !! entry.1 with
                  | Some values => (fun i => (i, entry.2)) <$> omap claimId values
                  | None => []
                  end)
               IMPORTANT_PROPERTIES
  | None => []
  end.

(** ** Facts about the building blocks *)

Lemma startsWith_spec p s : startsWith p s = true ↔ has_prefix p s.
Proof.
  unfold has_prefix. revert s.
  induction p as [|a p IH]; intros s; simpl.
  - split; eauto.
  - destruct s as [|b s].
    + split; [discriminate | intros [r Hr]; discriminate].
    + destruct (Ascii.eqb_spec a b) as [->|Hne].
      * rewrite IH. split; intros [r Hr]; exists r.
        -- by rewrite Hr.
        -- by injection Hr.
      * split; [discriminate | intros [r Hr]; injection Hr; congruence].
Qed.

Lemma includes_unfold p s :
  includes p s =
  startsWith p s || match s with EmptyString => false | String _ s' => includes p s' end.
Proof. destruct s; reflexivity. Qed.

Lemma includes_spec p s : includes p s = true ↔ contains p s.
Proof.
  unfold contains. induction s as [|c s IH]; rewrite includes_unfold, orb_true_iff.
  - split.
    + intros [Hp|]; [|discriminate].
      apply startsWith_spec in Hp as [r Hr]. exists EmptyString, r. exact Hr.
    + intros ([|? ?] & b & Hb); [|discriminate].
      left. apply startsWith_spec. exists b. exact Hb.
  - rewrite IH. split.
    + intros [Hp|(a & b & ->)].
      * apply startsWith_spec in Hp as [r Hr]. exists EmptyString, r. exact Hr.
      * exists (String c a), b. reflexivity.
    + intros ([|c' a] & b & Hb).
      * left. apply startsWith_spec. exists b. exact Hb.
      * right. simpl in Hb. injection Hb as _ ->. eauto.
Qed.

Lemma all_digits_spec s :
  all_digits s = true ↔ ∀ a, a ∈ String.list_ascii_of_string s → is_digit a = true.
Proof.
  induction s as [|c s IH]; simpl.
  - split; [intros _ a Ha; inversion Ha | reflexivity].
  - rewrite andb_true_iff, IH. split.
    + intros [Hc Hs] a Ha. apply elem_of_cons in Ha as [->|Ha]; auto.
    + intros Hall. split; [apply Hall; left | intros a Ha; apply Hall; right; exact Ha].
Qed.

Lemma test_digits_spec s : test_digits s = true ↔ pure_numeric s.
Proof.
  unfold pure_numeric, test_digits. destruct s as [|c s].
  - split; [discriminate | intros [Hne _]; congruence].
  - rewrite all_digits_spec. split; [intros Hall; split; [discriminate | exact Hall] | tauto].
Qed.

Lemma existsb_elem_of {A} (f : A → bool) (l : list A) :
  existsb f l = true ↔ ∃ x, x ∈ l ∧ f x = true.
Proof.
  rewrite existsb_exists. split; intros (x & Hx & Hf); exists x; split; auto;
    by apply list_elem_of_In.
Qed.

(** *** [slice] *)

Lemma slice0_prefix {A} (n : Z) (l : list A) : ∃ rest, l = slice0 n l ++ rest.
Proof.
  unfold slice0. destruct (n <? 0); eexists; symmetry; apply take_drop.
Qed.

Lemma slice0_length {A} (n : Z) (l : list A) :
  0 ≤ n → Z.of_nat (length (slice0 n l)) ≤ n.
Proof.
  intros Hn. unfold slice0. destruct (Z.ltb_spec n 0); [lia|].
  rewrite length_take. lia.
Qed.

Lemma slice0_subseteq {A} (n : Z) (l : list A) : slice0 n l ⊆ l.
Proof.
  destruct (slice0_prefix n l) as [rest Hrest]. intros x Hx.
  rewrite Hrest. apply elem_of_app. by left.
Qed.

(** *** [sort] *)

Section SortFacts.
Context {A : Type} (cmp : A → A → Z).

Lemma insert_sorted_perm x l : insert_sorted cmp x l ≡ₚ x :: l.
Proof.
  induction l as [|y l IH]; simpl; [done|].
  destruct (cmp x y <=? 0); [done|].
  rewrite IH. apply Permutation_swap.
Qed.

Lemma sort_perm l : sort cmp l ≡ₚ l.
Proof.
  induction l as [|x l IH]; simpl; [done|].
  unfold sort in *. simpl. by rewrite insert_sorted_perm, IH.
Qed.

Lemma elem_of_sort x l : x ∈ sort cmp l ↔ x ∈ l.
Proof. by rewrite sort_perm. Qed.

End SortFacts.

(** Sorting by a key in descending order, as [(a, b) => key(b) - key(a)] does. *)
Section SortByKey.
Context {A : Type} (key : A → Z).

Definition descending : A → A → Prop := fun a b => key b ≤ key a.

Lemma insert_sorted_descending x l :
  StronglySorted descending l →
  StronglySorted descending (insert_sorted (fun a b => key b - key a) x l).
Proof.
  induction 1 as [|y l Hl IH Hy]; simpl.
  - repeat constructor.
  - destruct (Z.leb_spec (key y - key x) 0) as [Hle|Hgt].
    + constructor; [by constructor|].
      constructor; [unfold descending; lia|].
      eapply Forall_impl; [exact Hy|]. unfold descending. intros z Hz. simpl in Hz. lia.
    + constructor; [exact IH|].
      rewrite insert_sorted_perm. constructor; [unfold descending; lia | exact Hy].
Qed.

Lemma sort_descending l : StronglySorted descending (sort (fun a b => key b - key a) l).
Proof.
  induction l as [|x l IH]; [constructor|].
  unfold sort in *. simpl. by apply insert_sorted_descending.
Qed.

Lemma StronglySorted_filter (R : A → A → Prop) (P : A → Prop) `{∀ x, Decision (P x)} l :
  StronglySorted R l → StronglySorted R (filter P l).
Proof.
  induction 1 as [|x l Hl IH Hx]; [constructor|].
  rewrite filter_cons. destruct (decide (P x)); [|exact IH].
  constructor; [exact IH|].
  apply Forall_forall. intros y Hy. apply list_elem_of_filter in Hy as [_ Hy].
  by eapply Forall_forall in Hx.
Qed.

Lemma StronglySorted_app_order (R : A → A → Prop) l1 l2 :
  StronglySorted R (l1 ++ l2) → ∀ x y, x ∈ l1 → y ∈ l2 → R x y.
Proof.
  induction l1 as [|a l1 IH]; simpl; intros Hs x y Hx Hy.
  - inversion Hx.
  - apply StronglySorted_inv in Hs as [Hs Ha].
    apply elem_of_cons in Hx as [->|Hx].
    + eapply Forall_forall in Ha; [exact Ha|]. apply elem_of_app. by right.
    + by apply IH.
Qed.

Lemma StronglySorted_app_l (R : A → A → Prop) l1 l2 :
  StronglySorted R (l1 ++ l2) → StronglySorted R l1.
Proof.
  induction l1 as [|a l1 IH]; simpl; intros Hs; [constructor|].
  apply StronglySorted_inv in Hs as [Hs Ha]. constructor; [by apply IH|].
  apply Forall_app in Ha. tauto.
Qed.

End SortByKey.

(** *** Ordered maps *)

Section MapFacts.
Context {V : Type}.
Implicit Types (m : JsMap V) (k : string) (v : V).

Lemma map_has_get k m : map_has k m = true ↔ is_Some (map_get k m).
Proof.
  induction m as [|[k' v'] m IH]; simpl.
  - split; [discriminate | intros [? ?]; discriminate].
  - destruct (String.eqb k k'); [split; eauto | exact IH].
Qed.

Lemma map_has_false k m : map_has k m = false ↔ map_get k m = None.
Proof.
  rewrite <- not_true_iff_false, map_has_get, eq_None_not_Some. tauto.
Qed.

Lemma map_get_set k' k v m :
  map_get k' (map_set k v m) = if String.eqb k' k then Some v else map_get k' m.
Proof.
  induction m as [|[k0 v0] m IH]; simpl; [reflexivity|].
  destruct (String.eqb_spec k k0) as [->|Hne]; simpl.
  - destruct (String.eqb k' k0); reflexivity.
  - rewrite IH. destruct (String.eqb_spec k' k0) as [->|]; [|reflexivity].
    destruct (String.eqb_spec k0 k); congruence.
Qed.

Lemma map_get_elem_of k v m : map_get k m = Some v → (k, v) ∈ m.
Proof.
  induction m as [|[k0 v0] m IH]; simpl; [discriminate|].
  destruct (String.eqb_spec k k0) as [->|Hne].
  - intros [= ->]. left.
  - intros Hg. right. by apply IH.
Qed.

Lemma map_get_None_keys k m : map_get k m = None ↔ k ∉ m.*1.
Proof.
  induction m as [|[k0 v0] m IH]; simpl.
  - split; [intros _ Hin; inversion Hin | reflexivity].
  - rewrite not_elem_of_cons. destruct (String.eqb_spec k k0) as [->|Hne].
    + split; [discriminate | tauto].
    + rewrite IH. tauto.
Qed.

Lemma elem_of_map_get k v m : NoDup m.*1 → (k, v) ∈ m → map_get k m = Some v.
Proof.
  induction m as [|[k0 v0] m IH]; simpl; intros Hnd Hin; [inversion Hin|].
  apply NoDup_cons in Hnd as [Hk0 Hnd].
  apply elem_of_cons in Hin as [[= -> ->]|Hin].
  - by rewrite String.eqb_refl.
  - destruct (String.eqb_spec k k0) as [->|Hne]; [|by apply IH].
    exfalso. apply Hk0. apply list_elem_of_fmap. by exists (k0, v).
Qed.

Lemma map_set_keys k v m :
  (map_set k v m).*1 = if map_has k m then m.*1 else m.*1 ++ [k].
Proof.
  induction m as [|[k0 v0] m IH]; [reflexivity|].
  cbn [map_set map_has]. destruct (String.eqb_spec k k0) as [->|Hne]; [reflexivity|].
  rewrite !fmap_cons, IH. by destruct (map_has k m).
Qed.

Lemma map_set_NoDup k v m : NoDup m.*1 → NoDup (map_set k v m).*1.
Proof.
  intros Hnd. rewrite map_set_keys.
  destruct (map_has k m) eqn:Hhas; [exact Hnd|].
  apply NoDup_app. split; [exact Hnd|]. split; [|apply NoDup_singleton].
  intros x Hx Hxk. apply list_elem_of_singleton in Hxk as ->.
  apply map_has_false, map_get_None_keys in Hhas. contradiction.
Qed.

Lemma elem_of_map_values v m :
  NoDup m.*1 → v ∈ map_values m ↔ ∃ k, map_get k m = Some v.
Proof.
  intros Hnd. unfold map_values. change (map snd m) with (m.*2).
  rewrite list_elem_of_fmap. split.
  - intros ([k v'] & -> & Hin). exists k. by apply elem_of_map_get.
  - intros (k & Hk). exists (k, v). split; [reflexivity | by apply map_get_elem_of].
Qed.

End MapFacts.

(** ** Candidate relations *)

Lemma wiki_inj a b : "wiki:" +:+ a = "wiki:" +:+ b → a = b.
Proof. intros Heq. by injection Heq. Qed.

Section CandidateFacts.
Context `{JsRuntime}.

Lemma addClaim_claimId relationType m claim :
  addClaim relationType m claim =
  match claimId claim with
  | Some i => map_set i (structuralCandidate i relationType) m
  | None => m
  end.
Proof.
  unfold addClaim, claimId. destruct claim as [[[s|[i|]|la lo|j]|]]; simpl;
    try reflexivity.
  - by destruct (truthy s).
  - by destruct (truthy i).
Qed.

Lemma Structural_nil : Structural [] [].
Proof.
  split; [constructor|]. split.
  - intros k. simpl. split; [intros [? ?]; discriminate | intros Hk; inversion Hk].
  - intros k c. discriminate.
Qed.

Lemma Structural_app_nil m ids : Structural m ids → Structural m (ids ++ []).
Proof. by rewrite app_nil_r. Qed.

Lemma addClaim_Structural relationType m ids claim :
  Structural m ids →
  Structural (addClaim relationType m claim) (ids ++ option_list (claimId claim)).
Proof.
  intros (Hnd & Hdom & Hval). rewrite addClaim_claimId.
  destruct (claimId claim) as [i|]; simpl; [|by apply Structural_app_nil].
  split; [by apply map_set_NoDup|]. split.
  - intros k. rewrite map_get_set, elem_of_app, list_elem_of_singleton, <- Hdom.
    destruct (String.eqb_spec k i) as [->|Hne]; [split; eauto | tauto].
  - intros k c. rewrite map_get_set.
    destruct (String.eqb_spec k i) as [->|Hne]; [intros [= <-]; eauto | apply Hval].
Qed.

Lemma foldl_addClaim_Structural relationType values m ids :
  Structural m ids →
  Structural (foldl (addClaim relationType) m values) (ids ++ omap claimId values).
Proof.
  revert m ids. induction values as [|claim values IH]; intros m ids Hm; simpl.
  - by apply Structural_app_nil.
  - apply (addClaim_Structural relationType) with (claim := claim) in Hm.
    apply IH in Hm. revert Hm. rewrite <- app_assoc.
    by destruct (claimId claim).
Qed.

Lemma foldl_addProperty_Structural claims properties m ids :
  Structural m ids →
  Structural (foldl (addProperty claims) m properties)
    (ids ++ flat_map (fun entry : string * string =>
                        match claims !! entry.1 with
                        | Some values => omap claimId values
                        | None => []
                        end) properties).
Proof.
  revert m ids. induction properties as [|entry properties IH]; intros m ids Hm; simpl.
  - by apply Structural_app_nil.
  - rewrite app_assoc. apply IH. unfold addProperty.
    destruct (claims !! entry.1) as [values|].
    + by apply foldl_addClaim_Structural.
    + by apply Structural_app_nil.
Qed.

Lemma structuralMap_Structural entity : Structural (structuralMap entity) (structuralIds entity).
Proof.
  unfold structuralMap, structuralIds.
  destruct (wikidata (sources entity) ≫= wd_claims) as [claims|]; [|apply Structural_nil].
  apply (foldl_addProperty_Structural claims IMPORTANT_PROPERTIES [] []), Structural_nil.
Qed.

Lemma forEachLink_NoDup links index m :
  NoDup m.*1 → NoDup (forEachLink links index m).*1.
Proof.
  revert index m. induction links as [|t links IH]; intros index m Hm; simpl; [exact Hm|].
  apply IH. unfold addLink. destruct (isLinkNoise t); [exact Hm|].
  destruct (map_has _ m); [exact Hm | by apply map_set_NoDup].
Qed.

Lemma forEachLink_get k links index m :
  map_get k (forEachLink links index m) =
  match map_get k m with
  | Some c => Some c
  | None => firstLink k links index
  end.
Proof.
  revert index m. induction links as [|t links IH]; intros index m; simpl.
  - by destruct (map_get k m).
  - rewrite IH. unfold addLink. destruct (isLinkNoise t); simpl; [reflexivity|].
    destruct (map_has ("wiki:" +:+ t) m) eqn:Hhas.
    + destruct (map_get k m) as [c|] eqn:Hk; [reflexivity|].
      destruct (String.eqb_spec k ("wiki:" +:+ t)) as [->|Hne]; [|reflexivity].
      apply map_has_get in Hhas as [c Hc]. congruence.
    + rewrite map_get_set. unfold textualCandidate.
      destruct (String.eqb_spec k ("wiki:" +:+ t)) as [->|Hne].
      * apply map_has_false in Hhas. by rewrite Hhas.
      * reflexivity.
Qed.

Lemma connectedMapOf_NoDup entity : NoDup (connectedMapOf entity).*1.
Proof.
  unfold connectedMapOf. pose proof (structuralMap_Structural entity) as (Hnd & _).
  destruct (wikipedia (sources entity) ≫= wp_links); [by apply forEachLink_NoDup | exact Hnd].
Qed.

Lemma connectedMapOf_get k entity :
  map_get k (connectedMapOf entity) =
  match map_get k (structuralMap entity) with
  | Some c => Some c
  | None => firstLink k (textualLinks entity) 0
  end.
Proof.
  unfold connectedMapOf, textualLinks.
  destruct (wikipedia (sources entity) ≫= wp_links) as [links|]; simpl.
  - apply forEachLink_get.
  - by destruct (map_get k (structuralMap entity)).
Qed.

Lemma firstLink_Some k links index c :
  firstLink k links index = Some c →
  ∃ t n, links !! n = Some t ∧ isLinkNoise t = false ∧ k = "wiki:" +:+ t ∧
         c = textualCandidate t (index + n) ∧
         ∀ j, (j < n)%nat → links !! j ≠ Some t.
Proof.
  revert index. induction links as [|t links IH]; intros index; simpl; [discriminate|].
  destruct (negb (isLinkNoise t) && String.eqb k ("wiki:" +:+ t)) eqn:Hhere.
  - apply andb_true_iff in Hhere as [Hnoise Hk].
    apply negb_true_iff in Hnoise. apply String.eqb_eq in Hk.
    intros [= <-]. exists t, 0%nat.
    split; [reflexivity|]. split; [exact Hnoise|]. split; [exact Hk|].
    split; [by rewrite Nat.add_0_r|]. intros j Hj. lia.
  - intros Hf. apply IH in Hf as (t' & n & Hn & Hn' & -> & -> & Hfirst).
    exists t', (S n).
    split; [exact Hn|]. split; [exact Hn'|]. split; [reflexivity|].
    split; [by rewrite Nat.add_succ_r|].
    intros [|j] Hj; simpl.
    + intros [= ->]. by rewrite Hn', String.eqb_refl in Hhere.
    + apply Hfirst. lia.
Qed.

Lemma firstLink_found t links index n :
  links !! n = Some t → isLinkNoise t = false →
  ∃ j, (j ≤ n)%nat ∧ links !! j = Some t ∧ (∀ i, (i < j)%nat → links !! i ≠ Some t) ∧
       firstLink ("wiki:" +:+ t) links index = Some (textualCandidate t (index + j)).
Proof.
  revert index n. induction links as [|t0 links IH]; intros index n Hn Hnoise; [discriminate|].
  cbn [firstLink]. destruct (decide (t0 = t)) as [->|Hne].
  - exists 0%nat. rewrite Hnoise, String.eqb_refl, Nat.add_0_r.
    split; [lia|]. split; [reflexivity|]. split; [|reflexivity]. intros i Hi. lia.
  - destruct n as [|n]; simpl in Hn; [congruence|].
    destruct (IH (S index) n Hn Hnoise) as (j & Hj & Hlook & Hfirst & Hf).
    exists (S j). split; [lia|]. split; [exact Hlook|]. split.
    + intros [|i] Hi; simpl; [intros [= ?]; congruence | apply Hfirst; lia].
    + replace (index + S j)%nat with (S index + j)%nat by lia. rewrite <- Hf.
      destruct (String.eqb_spec ("wiki:" +:+ t) ("wiki:" +:+ t0)) as [Heq|_].
      * apply wiki_inj in Heq. congruence.
      * by rewrite andb_false_r.
Qed.

End CandidateFacts.

Section ExtractFacts.
Context `{JsRuntime}.

Lemma elem_of_extract c entity :
  c ∈ extractConnectedEntities entity ↔ ∃ k, map_get k (connectedMapOf entity) = Some c.
Proof.
  unfold extractConnectedEntities. rewrite elem_of_sort.
  apply elem_of_map_values, connectedMapOf_NoDup.
Qed.

Lemma connectedMapOf_origin k c entity :
  map_get k (connectedMapOf entity) = Some c →
  (k ∈ structuralIds entity ∧ ∃ relationType, c = structuralCandidate k relationType) ∨
  ((k ∉ structuralIds entity) ∧
   ∃ t n, textualLinks entity !! n = Some t ∧ isLinkNoise t = false ∧ k = "wiki:" +:+ t ∧
          c = textualCandidate t n ∧ ∀ j, (j < n)%nat → textualLinks entity !! j ≠ Some t).
Proof.
  rewrite connectedMapOf_get.
  destruct (structuralMap_Structural entity) as (_ & Hdom & Hval).
  destruct (map_get k (structuralMap entity)) as [c'|] eqn:Hk.
  - intros [= <-]. left. split; [apply Hdom; eauto | by apply Hval].
  - intros Hf. right. split.
    + rewrite <- Hdom, Hk. intros [? ?]; discriminate.
    + apply firstLink_Some in Hf as (t & n & ?). exists t, n. tauto.
Qed.

Lemma connectedMapOf_key k c entity :
  map_get k (connectedMapOf entity) = Some c → c_id c = k.
Proof.
  intros Hk. apply connectedMapOf_origin in Hk
    as [(_ & rel & ->)|(_ & t & n & _ & _ & -> & -> & _)]; reflexivity.
Qed.

Lemma extract_get c entity :
  c ∈ extractConnectedEntities entity ↔ map_get (c_id c) (connectedMapOf entity) = Some c.
Proof.
  rewrite elem_of_extract. split; [|eauto].
  intros (k & Hk). by rewrite (connectedMapOf_key _ _ _ Hk).
Qed.

Lemma keyed_values_ids (m : JsMap Connected) :
  (∀ k c, (k, c) ∈ m → c_id c = k) → c_id <$> map_values m = m.*1.
Proof.
  induction m as [|[k c] m IH]; intros Hkey; [reflexivity|].
  change (map_values ((k, c) :: m)) with (c :: map_values m).
  rewrite !fmap_cons. f_equal.
  - apply Hkey. left.
  - apply IH. intros k' c' Hin. apply Hkey. by right.
Qed.

Lemma extract_NoDup entity : NoDup (c_id <$> extractConnectedEntities entity).
Proof.
  unfold extractConnectedEntities. rewrite sort_perm, keyed_values_ids.
  - apply connectedMapOf_NoDup.
  - intros k c Hin. eapply connectedMapOf_key, elem_of_map_get; [|exact Hin].
    apply connectedMapOf_NoDup.
Qed.

Lemma extract_structural i entity :
  i ∈ structuralIds entity →
  ∃ c, c ∈ extractConnectedEntities entity ∧ c_id c = i ∧
       c_source c = "wikidata" ∧ c_score c = 3.
Proof.
  intros Hi. destruct (structuralMap_Structural entity) as (_ & Hdom & Hval).
  apply Hdom in Hi as [c Hc]. destruct (Hval _ _ Hc) as [rel ->].
  exists (structuralCandidate i rel). split; [|done].
  apply elem_of_extract. exists i. by rewrite connectedMapOf_get, Hc.
Qed.

Lemma extract_textual t entity :
  t ∈ textualLinks entity → isLinkNoise t = false →
  "wiki:" +:+ t ∉ structuralIds entity →
  ∃ c, c ∈ extractConnectedEntities entity ∧ c_id c = "wiki:" +:+ t ∧
       c_label c = t ∧ c_source c = "wikipedia" ∧
       c_score c = if decide (t ∈ take 10 (textualLinks entity)) then 2 else 1.
Proof.
  intros Ht Hnoise Hns. apply list_elem_of_lookup in Ht as [n Hn].
  destruct (firstLink_found t _ 0 n Hn Hnoise) as (j & Hj & Hlook & Hfirst & Hf).
  destruct (structuralMap_Structural entity) as (_ & Hdom & _).
  exists (textualCandidate t j). split; [|split; [done|split; [done|split; [done|]]]].
  - apply elem_of_extract. exists ("wiki:" +:+ t). rewrite connectedMapOf_get.
    destruct (map_get _ (structuralMap entity)) eqn:Hk; [|exact Hf].
    exfalso. apply Hns, Hdom. eauto.
  - simpl. destruct (Nat.ltb_spec j 10) as [Hlt|Hge].
    + rewrite decide_True; [reflexivity|].
      apply list_elem_of_lookup. exists j. rewrite lookup_take_lt; [exact Hlook | exact Hlt].
    + rewrite decide_False; [reflexivity|].
      intros Hin. apply list_elem_of_lookup in Hin as [i Hi].
      apply lookup_take_Some in Hi as [Hi Hlt]. apply (Hfirst i); [lia | exact Hi].
Qed.

Lemma extract_scores c entity :
  c ∈ extractConnectedEntities entity →
  (c_source c = "wikidata" ∧ c_score c = 3 ∧ c_id c ∈ structuralIds entity) ∨
  (c_source c = "wikipedia" ∧ (c_id c ∉ structuralIds entity) ∧
   c_id c = "wiki:" +:+ c_label c ∧ c_label c ∈ textualLinks entity ∧
   isLinkNoise (c_label c) = false ∧
   c_score c = if decide (c_label c ∈ take 10 (textualLinks entity)) then 2 else 1).
Proof.
  intros Hc. apply extract_get in Hc. apply connectedMapOf_origin in Hc
    as [(Hin & rel & Hrel)|(Hns & t & n & Hn & Hnoise & Hid & Hcand & Hfirst)].
  - left. by rewrite Hrel.
  - right. subst c. simpl in *.
    split; [done|]. split; [done|]. split; [done|].
    split; [apply list_elem_of_lookup; eauto|]. split; [done|].
    destruct (Nat.ltb_spec n 10) as [Hlt|Hge].
    + rewrite decide_True; [reflexivity|].
      apply list_elem_of_lookup. exists n. by rewrite lookup_take_lt.
    + rewrite decide_False; [reflexivity|].
      intros Hin. apply list_elem_of_lookup in Hin as [i Hi].
      apply lookup_take_Some in Hi as [Hi Hlt]. apply (Hfirst i); [lia | exact Hi].
Qed.

End ExtractFacts.

(** ** Graph construction *)

Section BuildFacts.
Context `{JsRuntime}.

Lemma foldl_visit_ind (P : State → Prop) entityId level l st :
  P st →
  (∀ st' c, c ∈ l → P st' → P (visit entityId level st' c)) →
  P (foldl (visit entityId level) st l).
Proof.
  revert st. induction l as [|c l IH]; intros st Hst Hstep; simpl; [exact Hst|].
  apply IH.
  - apply Hstep; [left | exact Hst].
  - intros st' c' Hc'. apply Hstep. by right.
Qed.

Lemma visit_edges entityId level st c :
  edges (graph (visit entityId level st c)) = edges (graph st) ++ [edgeTo entityId c].
Proof. unfold visit. by destruct (decide (c_id c ∈ visited st)). Qed.

Lemma foldl_visit_edges entityId level l st :
  edges (graph (foldl (visit entityId level) st l)) =
  edges (graph st) ++ (edgeTo entityId <$> l).
Proof.
  revert st. induction l as [|c l IH]; intros st; simpl.
  - by rewrite app_nil_r.
  - by rewrite IH, visit_edges, <- app_assoc.
Qed.

(** What one candidate adds to the node list. *)
Lemma visit_nodes entityId level st c :
  nodes (graph (visit entityId level st c)) = nodes (graph st) ∨
  ∃ n, nodes (graph (visit entityId level st c)) = nodes (graph st) ++ [n] ∧
       n_id n = c_id c ∧ n_level n = level + 1 ∧ n_isCenter n = None ∧
       n_label n = c_label c ∧ n_score n = Some (c_score c).
Proof.
  unfold visit. destruct (decide (c_id c ∈ visited st)); [by left|].
  right. eexists. split; [reflexivity|]. done.
Qed.

Lemma foldl_visit_nodes entityId level l st :
  ∃ extra,
    nodes (graph (foldl (visit entityId level) st l)) = nodes (graph st) ++ extra ∧
    (length extra ≤ length l)%nat ∧
    Forall (fun n => n_level n = level + 1 ∧ n_isCenter n = None ∧
                     ∃ c, c ∈ l ∧ n_id n = c_id c ∧ n_label n = c_label c ∧
                          n_score n = Some (c_score c)) extra.
Proof.
  revert st. induction l as [|c l IH]; intros st; simpl.
  - exists []. by rewrite app_nil_r.
  - destruct (IH (visit entityId level st c)) as (extra & Hn & Hlen & Hall).
    assert (Hall' : Forall (fun n => n_level n = level + 1 ∧ n_isCenter n = None ∧
                     ∃ c', c' ∈ c :: l ∧ n_id n = c_id c' ∧ n_label n = c_label c' ∧
                           n_score n = Some (c_score c')) extra).
    { eapply Forall_impl; [exact Hall|]. intros n (? & ? & c' & ? & ?).
      split; [done|]. split; [done|]. exists c'. split; [by right | done]. }
    destruct (visit_nodes entityId level st c)
      as [Hsame|(n & Hadd & Hid & Hlvl & Hctr & Hlab & Hsc)].
    + exists extra. rewrite Hn, Hsame. split; [done|]. split; [lia | exact Hall'].
    + exists (n :: extra). rewrite Hn, Hadd, <- app_assoc. split; [done|].
      split; [simpl; lia|]. constructor; [|exact Hall'].
      split; [done|]. split; [done|]. exists c. split; [left | done].
Qed.

Lemma visit_GraphInv entityId level st c :
  GraphInv st ∧ entityId ∈ visited st →
  GraphInv (visit entityId level st c) ∧ entityId ∈ visited (visit entityId level st c).
Proof.
  intros [(Hvis & Hnd & Hedges & Hcenter) Hid]. unfold GraphInv, visit.
  destruct (decide (c_id c ∈ visited st)) as [Hseen|Hnew]; simpl.
  - split; [|exact Hid]. split; [exact Hvis|]. split; [exact Hnd|]. split; [|exact Hcenter].
    intros e He. apply elem_of_app in He as [He|He]; [by apply Hedges|].
    apply list_elem_of_singleton in He as ->. simpl. split; by apply Hvis.
  - split; [|apply elem_of_union; by right]. rewrite fmap_app. simpl.
    split; [|split; [|split]].
    + intros i. rewrite elem_of_union, elem_of_singleton, elem_of_app, list_elem_of_singleton, Hvis.
      tauto.
    + apply NoDup_app. split; [exact Hnd|]. split; [|apply NoDup_singleton].
      intros i Hi Hi'. apply list_elem_of_singleton in Hi' as ->. by apply Hnew, Hvis.
    + intros e He. rewrite !elem_of_app. apply elem_of_app in He as [He|He].
      * destruct (Hedges e He). tauto.
      * apply list_elem_of_singleton in He as ->. simpl. split.
        -- left. by apply Hvis.
        -- right. by apply list_elem_of_singleton.
    + rewrite filter_app, length_app, Hcenter. rewrite filter_cons_False; [reflexivity|].
      simpl. discriminate.
Qed.

Lemma initialState_GraphInv centerEntity :
  GraphInv (initialState centerEntity) ∧ id centerEntity ∈ visited (initialState centerEntity).
Proof.
  unfold GraphInv, initialState. simpl. split; [|by apply elem_of_singleton].
  split; [|split; [|split]].
  - intros i. rewrite elem_of_singleton, list_elem_of_singleton. done.
  - apply NoDup_singleton.
  - intros e He. inversion He.
  - reflexivity.
Qed.

Lemma traverse_unfold centerEntity depth maxNodesPerLevel :
  traverse centerEntity depth maxNodesPerLevel =
  graph (if depth <=? 0 then initialState centerEntity
         else foldl (visit (id centerEntity) 0) (initialState centerEntity)
                (limitedEntities maxNodesPerLevel centerEntity)).
Proof. unfold traverse. simpl. by destruct (depth <=? 0). Qed.

Lemma traverse_GraphInv centerEntity depth maxNodesPerLevel :
  ∃ st, traverse centerEntity depth maxNodesPerLevel = graph st ∧ GraphInv st.
Proof.
  rewrite traverse_unfold. eexists. split; [reflexivity|].
  destruct (depth <=? 0); [apply initialState_GraphInv|].
  apply (foldl_visit_ind
           (fun st => GraphInv st ∧ id centerEntity ∈ visited st)).
  - apply initialState_GraphInv.
  - intros st' c _. apply visit_GraphInv.
Qed.

Lemma traverse_nodes centerEntity depth maxNodesPerLevel :
  ∃ extra,
    nodes (traverse centerEntity depth maxNodesPerLevel) =
      createNode centerEntity 0 true :: extra ∧
    (length extra ≤ length (limitedEntities maxNodesPerLevel centerEntity))%nat ∧
    Forall (fun n => n_level n = 1 ∧ n_isCenter n = None ∧
                     ∃ c, c ∈ limitedEntities maxNodesPerLevel centerEntity ∧
                          n_id n = c_id c ∧ n_label n = c_label c ∧
                          n_score n = Some (c_score c)) extra.
Proof.
  rewrite traverse_unfold. destruct (depth <=? 0).
  - exists []. simpl. split; [done|]. split; [lia | constructor].
  - destruct (foldl_visit_nodes (id centerEntity) 0
                (limitedEntities maxNodesPerLevel centerEntity)
                (initialState centerEntity)) as (extra & Hn & Hlen & Hall).
    exists extra. rewrite Hn. done.
Qed.

Lemma traverse_edges centerEntity depth maxNodesPerLevel e :
  e ∈ edges (traverse centerEntity depth maxNodesPerLevel) →
  ∃ c, c ∈ limitedEntities maxNodesPerLevel centerEntity ∧ e = edgeTo (id centerEntity) c.
Proof.
  rewrite traverse_unfold. destruct (depth <=? 0); simpl; [intros He; inversion He|].
  rewrite foldl_visit_edges. simpl. intros He.
  apply list_elem_of_fmap in He as (c & -> & Hc). eauto.
Qed.

(** The label pass changes labels only. *)
Lemma relabel_id labelsMap n : n_id (relabel labelsMap n) = n_id n.
Proof. unfold relabel. by destruct (truthy_opt _). Qed.

Lemma relabel_level labelsMap n : n_level (relabel labelsMap n) = n_level n.
Proof. unfold relabel. by destruct (truthy_opt _). Qed.

Lemma relabel_isCenter labelsMap n : n_isCenter (relabel labelsMap n) = n_isCenter n.
Proof. unfold relabel. by destruct (truthy_opt _). Qed.

Lemma relabel_empty n : relabel ∅ n = n.
Proof. unfold relabel. by rewrite lookup_empty. Qed.

Lemma buildGraph_edges w centerEntity depth maxNodesPerLevel :
  edges (buildGraph w centerEntity depth maxNodesPerLevel) =
  edges (traverse centerEntity depth maxNodesPerLevel).
Proof.
  unfold buildGraph, buildGraph_io. destruct (0 <? length _)%nat; [|reflexivity].
  by destruct (fetchWikidataLabels w _).
Qed.

Lemma buildGraph_nodes w centerEntity depth maxNodesPerLevel :
  ∃ labelsMap,
    nodes (buildGraph w centerEntity depth maxNodesPerLevel) =
    relabel labelsMap <$> nodes (traverse centerEntity depth maxNodesPerLevel).
Proof.
  unfold buildGraph, buildGraph_io. destruct (0 <? length _)%nat.
  - destruct (fetchWikidataLabels w _) as [labelsMap requests]. by exists labelsMap.
  - exists ∅. simpl. rewrite <- (list_fmap_id (nodes _)) at 1.
    apply list_fmap_ext. intros ? n _. symmetry. apply relabel_empty.
Qed.

Lemma buildGraph_ids w centerEntity depth maxNodesPerLevel :
  n_id <$> nodes (buildGraph w centerEntity depth maxNodesPerLevel) =
  n_id <$> nodes (traverse centerEntity depth maxNodesPerLevel).
Proof.
  destruct (buildGraph_nodes w centerEntity depth maxNodesPerLevel) as [labelsMap ->].
  rewrite <- list_fmap_compose. apply list_fmap_ext. intros ? n _. apply relabel_id.
Qed.

Lemma filter_relabel_length (P : Node → Prop) `{∀ n, Decision (P n)} labelsMap l :
  (∀ n, P (relabel labelsMap n) ↔ P n) →
  length (filter P (relabel labelsMap <$> l)) = length (filter P l).
Proof.
  intros HP. induction l as [|n l IH]; [reflexivity|].
  rewrite fmap_cons, !filter_cons.
  destruct (decide (P (relabel labelsMap n))) as [Hn|Hn], (decide (P n)) as [Hn'|Hn'];
    simpl; rewrite ?IH; try reflexivity; exfalso.
  - by apply Hn', HP.
  - by apply Hn, HP.
Qed.

End BuildFacts.

(** ** The graph builder's properties *)

(** C3: in every graph returned by [buildGraph], whatever the center
    entity, the depth and the breadth cap, each edge's source and target is
    the identifier of some node, no identifier is carried by two nodes, and
    exactly one node has [isCenter = true]. *)
Theorem buildGraph_well_formed `{JsRuntime} (w : World) (centerEntity : Entity)
    (depth maxNodesPerLevel : Z) :
  GraphWellFormed (buildGraph w centerEntity depth maxNodesPerLevel).
Proof.
  destruct (traverse_GraphInv centerEntity depth maxNodesPerLevel)
    as (st & Hst & _ & Hnd & Hedges & Hcenter).
  unfold GraphWellFormed. rewrite buildGraph_edges, buildGraph_ids, Hst.
  split; [|split].
  - intros e He. destruct (Hedges e He) as [Hs Ht].
    rewrite <- Hst, <- (buildGraph_ids w) in Hs, Ht.
    apply list_elem_of_fmap in Hs as (n & Hn & Hin).
    apply list_elem_of_fmap in Ht as (n' & Hn' & Hin').
    split; [exists n | exists n']; by split.
  - exact Hnd.
  - destruct (buildGraph_nodes w centerEntity depth maxNodesPerLevel) as [labelsMap ->].
    rewrite filter_relabel_length, Hst; [exact Hcenter|].
    intros n. by rewrite relabel_isCenter.
Qed.

(** C4: with a breadth cap that is not negative, an expansion step drops
    the candidates scoring below 2 before it caps, keeps at most
    [maxNodesPerLevel] of the others, those of highest score in descending
    order, and no level of the graph receives more than [maxNodesPerLevel]
    new nodes. *)
Theorem breadth_cap `{JsRuntime} (w : World) (centerEntity : Entity)
    (depth maxNodesPerLevel : Z) :
  0 ≤ maxNodesPerLevel →
  let candidates := extractConnectedEntities centerEntity in
  let kept := limitedEntities maxNodesPerLevel centerEntity in
  (∃ dropped,
      filter (fun c => 2 ≤ c_score c) candidates = kept ++ dropped ∧
      ∀ x y, x ∈ kept → y ∈ dropped → c_score y ≤ c_score x) ∧
  StronglySorted (descending c_score) kept ∧
  Z.of_nat (length kept) ≤ maxNodesPerLevel ∧
  ∀ level, 1 ≤ level →
    Z.of_nat (length (filter (fun n => n_level n = level)
                        (nodes (buildGraph w centerEntity depth maxNodesPerLevel))))
    ≤ maxNodesPerLevel.
Proof.
  intros Hcap candidates kept.
  assert (Hsorted : StronglySorted (descending c_score)
                      (filter (fun c => 2 ≤ c_score c) candidates)).
  { apply StronglySorted_filter, sort_descending. }
  destruct (slice0_prefix maxNodesPerLevel (filter (fun c => 2 ≤ c_score c) candidates))
    as [dropped Hsplit].
  fold (limitedEntities maxNodesPerLevel centerEntity) in Hsplit. fold kept in Hsplit.
  assert (Hlen : Z.of_nat (length kept) ≤ maxNodesPerLevel) by by apply slice0_length.
  rewrite Hsplit in Hsorted.
  split; [|split; [|split]].
  - exists dropped. split; [exact Hsplit|]. intros x y Hx Hy.
    by apply (StronglySorted_app_order _ kept dropped Hsorted).
  - by apply StronglySorted_app_l in Hsorted.
  - exact Hlen.
  - intros level Hlevel.
    destruct (buildGraph_nodes w centerEntity depth maxNodesPerLevel) as [labelsMap ->].
    rewrite filter_relabel_length by (intros n; by rewrite relabel_level).
    destruct (traverse_nodes centerEntity depth maxNodesPerLevel)
      as (extra & -> & Hextra & _).
    rewrite filter_cons_False by (simpl; lia).
    pose proof (length_filter (fun n => n_level n = level) extra). fold kept in Hextra. lia.
Qed.

(** C10: for every depth of at least 1, [buildGraph] returns what it
    returns at depth 1 and sends the same requests: only the center is ever
    expanded, and no node has a level of 2 or more. *)
Theorem depth_beyond_one `{JsRuntime} (w : World) (centerEntity : Entity)
    (depth maxNodesPerLevel : Z) :
  1 ≤ depth →
  buildGraph_io w centerEntity depth maxNodesPerLevel =
    buildGraph_io w centerEntity 1 maxNodesPerLevel ∧
  buildGraph w centerEntity depth maxNodesPerLevel =
    buildGraph w centerEntity 1 maxNodesPerLevel ∧
  ∀ n, n ∈ nodes (buildGraph w centerEntity depth maxNodesPerLevel) → n_level n < 2.
Proof.
  intros Hdepth.
  assert (Htraverse : traverse centerEntity depth maxNodesPerLevel =
                      traverse centerEntity 1 maxNodesPerLevel).
  { rewrite !traverse_unfold. destruct (Z.leb_spec depth 0); [lia | reflexivity]. }
  split; [|split].
  - unfold buildGraph_io. by rewrite Htraverse.
  - unfold buildGraph, buildGraph_io. by rewrite Htraverse.
  - intros n Hn.
    destruct (buildGraph_nodes w centerEntity depth maxNodesPerLevel) as [labelsMap Hnodes].
    rewrite Hnodes in Hn. apply list_elem_of_fmap in Hn as (n0 & -> & Hn0).
    rewrite relabel_level.
    destruct (traverse_nodes centerEntity depth maxNodesPerLevel) as (extra & Hextra & _ & Hall).
    rewrite Hextra in Hn0. apply elem_of_cons in Hn0 as [->|Hn0]; [simpl; lia|].
    eapply Forall_forall in Hall as [-> _]; [lia | exact Hn0].
Qed.

(** C5: every relation read from an allow-listed claim property is a
    candidate of score 3; a link that is not noise and does not collide with
    one of those is a candidate of score 2 when it stands among the first 10
    of the link list and of score 1 otherwise; a candidate, and an edge,
    whose identifier is that of a structural relation has score 3, also when
    a link has the same synthetic identifier. *)
Theorem scoring_tiers `{JsRuntime} (entity : Entity) :
  let candidates := extractConnectedEntities entity in
  let links := textualLinks entity in
  NoDup (c_id <$> candidates) ∧
  (∀ i, i ∈ structuralIds entity →
     ∃ c, c ∈ candidates ∧ c_id c = i ∧ c_source c = "wikidata" ∧ c_score c = 3) ∧
  (∀ t, t ∈ links → isLinkNoise t = false → ("wiki:" +:+ t ∉ structuralIds entity) →
     ∃ c, c ∈ candidates ∧ c_id c = "wiki:" +:+ t ∧ c_source c = "wikipedia" ∧
          c_score c = if decide (t ∈ take 10 links) then 2 else 1) ∧
  (∀ c, c ∈ candidates →
     (c_source c = "wikidata" ∧ c_score c = 3 ∧ c_id c ∈ structuralIds entity) ∨
     (c_source c = "wikipedia" ∧ (c_id c ∉ structuralIds entity) ∧
      c_id c = "wiki:" +:+ c_label c ∧ c_label c ∈ links ∧
      c_score c = if decide (c_label c ∈ take 10 links) then 2 else 1)) ∧
  (∀ t c, t ∈ links → "wiki:" +:+ t ∈ structuralIds entity →
     c ∈ candidates → c_id c = "wiki:" +:+ t → c_score c = 3) ∧
  (∀ w depth maxNodesPerLevel t e,
     t ∈ links → "wiki:" +:+ t ∈ structuralIds entity →
     e ∈ edges (buildGraph w entity depth maxNodesPerLevel) →
     e_target e = "wiki:" +:+ t → e_value e = 3).
Proof.
  intros candidates links.
  assert (Hcollide : ∀ t c, "wiki:" +:+ t ∈ structuralIds entity →
                            c ∈ candidates → c_id c = "wiki:" +:+ t → c_score c = 3).
  { intros t c Hs Hc Hid. apply extract_scores in Hc as [(_ & Hsc & _)|(_ & Hns & _)].
    - exact Hsc.
    - rewrite Hid in Hns. contradiction. }
  split; [apply extract_NoDup|]. split; [intros i; apply extract_structural|].
  split; [|split; [|split; [|]]].
  - intros t Ht Hnoise Hns.
    destruct (extract_textual t entity Ht Hnoise Hns) as (c & ? & ? & ? & ? & ?). eauto.
  - intros c Hc. apply extract_scores in Hc as [?|(? & ? & ? & ? & ? & ?)]; [by left|].
    right. done.
  - intros t c _. apply Hcollide.
  - intros w depth maxNodesPerLevel t e _ Hs He Ht.
    rewrite buildGraph_edges in He. apply traverse_edges in He as (c & Hc & ->).
    simpl in *. apply (Hcollide t); [exact Hs | | exact Ht].
    unfold limitedEntities in Hc. apply slice0_subseteq in Hc.
    by apply list_elem_of_filter in Hc as [_ Hc].
Qed.

Lemma isLinkNoise_spec `{JsRuntime} (title : string) :
  isLinkNoise title = true ↔ NoiseTitle title.
Proof.
  unfold isLinkNoise, NoiseTitle.
  rewrite <- test_digits_spec, <- includes_spec.
  destruct (test_digits title); [split; auto|].
  destruct (includes "siècle" title); [split; auto|].
  destruct (existsb (fun p => startsWith p title) technical) eqn:Htech.
  - split; [|done]. intros _. right. right. left.
    apply existsb_elem_of in Htech as (p & Hp & Hpre). exists p. split; [done|].
    by apply startsWith_spec.
  - destruct (existsb (fun m => includes m (toLowerCase title)) months) eqn:Hmonth.
    + split; [|done]. intros _. do 3 right.
      apply existsb_elem_of in Hmonth as (m & Hm & Hinc). exists m. split; [done|].
      by apply includes_spec.
    + split; [discriminate|]. intros [?|[?|[(p & Hp & Hpre)|(m & Hm & Hinc)]]];
        try discriminate.
      * apply not_true_iff_false in Htech. exfalso. apply Htech, existsb_elem_of.
        exists p. split; [done|]. by apply startsWith_spec.
      * apply not_true_iff_false in Hmonth. exfalso. apply Hmonth, existsb_elem_of.
        exists m. split; [done|]. by apply includes_spec.
Qed.

(** C6: a link whose title is a plain number such as "1959", contains the
    century word, begins with a technical namespace or with the list-page
    prefix, or contains a month name in any case, is taken for noise.  The
    filter runs before any score is given: no candidate relation comes from
    such a link, and no node of the graph stands for it (a node can bear its
    synthetic identifier only as the center or through a structured claim
    of that very identifier). *)
Theorem noise_never_node `{JsRuntime} (title : string) (w : World) (entity : Entity)
    (depth maxNodesPerLevel : Z) :
  NoiseTitle title →
  isLinkNoise title = true ∧
  (∀ c, c ∈ extractConnectedEntities entity → c_source c = "wikipedia" →
        c_label c ≠ title ∧ c_id c ≠ "wiki:" +:+ title) ∧
  (id entity ≠ "wiki:" +:+ title →
   ("wiki:" +:+ title ∉ structuralIds entity) →
   ∀ n, n ∈ nodes (buildGraph w entity depth maxNodesPerLevel) →
        n_id n ≠ "wiki:" +:+ title).
Proof.
  intros Hnoise. apply isLinkNoise_spec in Hnoise.
  split; [exact Hnoise|]. split.
  - intros c Hc Hsrc.
    apply extract_scores in Hc as [(Hwd & _)|(_ & _ & Hwiki & _ & Hclean & _)].
    + rewrite Hsrc in Hwd. discriminate.
    + assert (Hlabel : c_label c ≠ title) by congruence.
      split; [exact Hlabel|]. rewrite Hwiki. intros Heq. by apply wiki_inj in Heq.
  - intros Hcenter Hns n Hn Hid.
    assert (Hin : n_id n ∈ n_id <$> nodes (buildGraph w entity depth maxNodesPerLevel))
      by (apply list_elem_of_fmap; eauto).
    rewrite buildGraph_ids in Hin.
    destruct (traverse_nodes entity depth maxNodesPerLevel) as (extra & Hnodes & _ & Hall).
    rewrite Hnodes, fmap_cons in Hin. apply elem_of_cons in Hin as [Hin|Hin].
    + simpl in Hin. congruence.
    + apply list_elem_of_fmap in Hin as (n' & Hid' & Hn').
      eapply Forall_forall in Hall as (_ & _ & c & Hc & Hcid & _); [|exact Hn'].
      unfold limitedEntities in Hc. apply slice0_subseteq in Hc.
      apply list_elem_of_filter in Hc as [_ Hc].
      apply extract_scores in Hc as [(_ & _ & Hs)|(_ & _ & Hwiki & _ & Hclean & _)].
      * apply Hns. congruence.
      * assert (Heq : "wiki:" +:+ c_label c = "wiki:" +:+ title) by congruence.
        apply wiki_inj in Heq. congruence.
Qed.

(** *** The label pass *)

Lemma labels_fold_lookup (f : string → string) (ids : list string)
    (acc : gmap string string) (k : string) :
  foldl (fun (labels : gmap string string) i => <[i := f i]> labels) acc ids !! k =
  if decide (k ∈ ids) then Some (f k) else acc !! k.
Proof.
  revert acc. induction ids as [|i ids IH]; intros acc; cbn [foldl].
  - case_decide as Hin; [inversion Hin | reflexivity].
  - rewrite IH. repeat case_decide; try reflexivity.
    + exfalso. match goal with Hn : k ∉ _ |- _ => apply Hn end. by right.
    + match goal with Hc : k ∈ i :: ids |- _ => apply elem_of_cons in Hc as [->|?] end;
        [apply lookup_insert_eq | contradiction].
    + apply lookup_insert_ne. intros ->.
      match goal with Hn : k ∉ _ :: _ |- _ => apply Hn end. left.
Qed.

Lemma fetchWikidataLabels_spec (w : World) (ids : list string) :
  ids ≠ [] →
  fetchWikidataLabels w ids =
  (match wbgetentities w ids "fr" with
   | inr (Some entities) =>
       foldl (fun (labels : gmap string string) i => <[i := resolvedLabel entities i]> labels)
             ∅ ids
   | _ => ∅
   end,
   [{| rq_ids := ids; rq_languages := "fr" |}]).
Proof.
  intros Hne. unfold fetchWikidataLabels. destruct ids as [|i ids]; [done|]. simpl.
  by destruct (wbgetentities w (i :: ids) "fr") as [?|[?|]].
Qed.

Lemma elem_of_qidsToTranslate (g : Graph) (i : string) :
  i ∈ qidsToTranslate g ↔ has_prefix "Q" i ∧ ∃ n, n ∈ nodes g ∧ n_id n = i.
Proof.
  unfold qidsToTranslate. rewrite list_elem_of_fmap. split.
  - intros (n & -> & Hn). apply list_elem_of_filter in Hn as [Hq Hn].
    split; [apply startsWith_spec; by destruct (startsWith "Q" (n_id n)) | eauto].
  - intros (Hq & n & Hn & <-). exists n. split; [reflexivity|].
    apply list_elem_of_filter. split; [|exact Hn].
    apply startsWith_spec in Hq. by rewrite Hq.
Qed.

Lemma resolvedLabel_truthy entities i :
  startsWith "Q" i = true → truthy (resolvedLabel entities i) = true.
Proof.
  intros Hq. unfold resolvedLabel, or_else.
  destruct (entities !! i ≫= (.!! "fr")) as [v|]; simpl.
  - destruct (truthy v) eqn:Hv; simpl; [exact Hv|]. by destruct i.
  - by destruct i.
Qed.

(** C9, as the code has it: after the traversal [buildGraph] collects the
    identifiers of the nodes that begin with "Q", and no others, and when
    there is one it sends a single request for all of them; the request asks
    for French labels, whatever language [setLanguage] has set.  The labels
    of the response replace those of the matching nodes; when the request
    fails or carries no entities the graph is that of the traversal, labels
    included, and [buildGraph] still returns. *)
Theorem label_pass `{JsRuntime} (w : World) (centerEntity : Entity)
    (depth maxNodesPerLevel : Z) :
  let bfsGraph := traverse centerEntity depth maxNodesPerLevel in
  let qids := qidsToTranslate bfsGraph in
  let result := buildGraph_io w centerEntity depth maxNodesPerLevel in
  (∀ i, i ∈ qids ↔ has_prefix "Q" i ∧ ∃ n, n ∈ nodes bfsGraph ∧ n_id n = i) ∧
  result.2 = (if decide (qids = []) then []
              else [{| rq_ids := qids; rq_languages := "fr" |}]) ∧
  edges result.1 = edges bfsGraph ∧
  match wbgetentities w qids "fr" with
  | inr (Some entities) =>
      nodes result.1 =
      (fun n => if startsWith "Q" (n_id n)
                then withLabel (resolvedLabel entities (n_id n)) n
                else n) <$> nodes bfsGraph
  | _ => result.1 = bfsGraph
  end.
Proof.
  intros bfsGraph qids result.
  split; [intros i; apply elem_of_qidsToTranslate|].
  subst result. unfold buildGraph_io. fold bfsGraph. fold qids.
  destruct (decide (qids = [])) as [Hnil|Hne].
  - rewrite Hnil. change (0 <? length (@nil string))%nat with false. cbn [fst snd].
    split; [done|]. split; [done|].
    destruct (wbgetentities w [] "fr") as [?|[entities|]]; try done.
    rewrite <- (list_fmap_id (nodes bfsGraph)) at 1. apply list_fmap_ext.
    intros ? n Hn. apply list_elem_of_lookup_2 in Hn.
    destruct (startsWith "Q" (n_id n)) eqn:Hq; [|reflexivity].
    exfalso. assert (Hin : n_id n ∈ qids).
    { apply elem_of_qidsToTranslate. split; [by apply startsWith_spec | eauto]. }
    rewrite Hnil in Hin. inversion Hin.
  - assert (Hpos : (0 <? length qids)%nat = true).
    { apply Nat.ltb_lt. destruct qids; [done | simpl; lia]. }
    rewrite Hpos, fetchWikidataLabels_spec by done. cbn [fst snd nodes edges].
    split; [done|]. split; [done|].
    destruct (wbgetentities w qids "fr") as [?|[entities|]].
    + destruct bfsGraph as [ns es]. cbn [nodes edges]. f_equal.
      rewrite <- (list_fmap_id ns) at 2. apply list_fmap_ext.
      intros ? n _. apply relabel_empty.
    + apply list_fmap_ext. intros ? n Hn. apply list_elem_of_lookup_2 in Hn.
      unfold relabel. rewrite labels_fold_lookup.
      destruct (startsWith "Q" (n_id n)) eqn:Hq.
      * rewrite decide_True.
        -- cbn [truthy_opt default]. by rewrite resolvedLabel_truthy.
        -- apply elem_of_qidsToTranslate. split; [by apply startsWith_spec | eauto].
      * rewrite decide_False; [by rewrite lookup_empty|].
        intros Hin. apply elem_of_qidsToTranslate in Hin as [Hpre _].
        apply startsWith_spec in Hpre. congruence.
    + destruct bfsGraph as [ns es]. cbn [nodes edges]. f_equal.
      rewrite <- (list_fmap_id ns) at 2. apply list_fmap_ext.
      intros ? n _. apply relabel_empty.
Qed.

(** ** The resolver's properties *)

Section ResolverFacts.
Context `{JsRuntime}.
Variable g : Globals.
Variable w : World.

Lemma find_wikidataId_None i (cs : list Candidate) :
  find (fun c => String.eqb (wikidataId c) i) cs = None ↔ i ∉ wikidataId <$> cs.
Proof.
  induction cs as [|c cs IH]; cbn [find].
  - split; [intros _; apply not_elem_of_nil | reflexivity].
  - rewrite fmap_cons, not_elem_of_cons. destruct (String.eqb_spec (wikidataId c) i) as [Heq|Hne].
    + split; [discriminate | intros [Hne _]; congruence].
    + rewrite IH. split; [intros Hn; split; [congruence | exact Hn] | tauto].
Qed.

Lemma addCandidate_ids cs result :
  wikidataId <$> addCandidate cs result =
  (wikidataId <$> cs) ++
  match foundId result with
  | Some i => if decide (i ∈ wikidataId <$> cs) then [] else [i]
  | None => []
  end.
Proof.
  unfold addCandidate, foundId. destruct result as [[[i|] realTitle]|];
    cbn [ref_id EntityResolver.realTitle]; try by rewrite app_nil_r.
  destruct (truthy i); [|by rewrite app_nil_r].
  destruct (find _ cs) as [c|] eqn:Hfind.
  - rewrite decide_True; [by rewrite app_nil_r|].
    destruct (decide (i ∈ wikidataId <$> cs)) as [|Hn]; [done|].
    apply find_wikidataId_None in Hn. congruence.
  - apply find_wikidataId_None in Hfind. rewrite decide_False by done.
    by rewrite fmap_app.
Qed.

Lemma foldl_addCandidate_ids results cs :
  NoDup (wikidataId <$> cs) →
  NoDup (wikidataId <$> foldl addCandidate cs results) ∧
  ∀ i, i ∈ wikidataId <$> foldl addCandidate cs results ↔
       i ∈ wikidataId <$> cs ∨ i ∈ foundIds results.
Proof.
  revert cs. induction results as [|r results IH]; intros cs Hnd; simpl.
  - split; [exact Hnd|]. intros i. unfold foundIds. simpl. rewrite elem_of_nil. tauto.
  - assert (Hstep : NoDup (wikidataId <$> addCandidate cs r) ∧
                    ∀ i, i ∈ wikidataId <$> addCandidate cs r ↔
                         i ∈ wikidataId <$> cs ∨ foundId r = Some i).
    { rewrite addCandidate_ids. destruct (foundId r) as [j|].
      - destruct (decide (j ∈ wikidataId <$> cs)) as [Hin|Hnin]; rewrite ?app_nil_r.
        + split; [exact Hnd|]. intros i. split; [tauto|]. intros [?|[= ->]]; done.
        + split.
          * apply NoDup_app. split; [exact Hnd|]. split; [|apply NoDup_singleton].
            intros i Hi Hi'. apply list_elem_of_singleton in Hi' as ->. contradiction.
          * intros i. rewrite elem_of_app, list_elem_of_singleton.
            split; intros [?|?]; auto; [right; congruence | right; congruence].
      - rewrite app_nil_r. split; [exact Hnd|]. intros i. split; [tauto|].
        intros [?|?]; [done | discriminate]. }
    destruct Hstep as [Hnd' Hin']. destruct (IH _ Hnd') as [Hnd'' Hin''].
    split; [exact Hnd''|]. intros i. rewrite Hin'', Hin'. unfold foundIds.
    cbn [omap list_omap]. destruct (foundId r) as [j|].
    + rewrite elem_of_cons. split; [intros [[?|[= ->]]|?] | intros [?|[->|?]]]; auto.
    + split; [intros [[?|?]|?] | intros [?|?]]; auto; discriminate.
Qed.

Lemma collectCandidates_spec titles results cs :
  Forall2 (fun t r => getWikidataIdFromWikipedia g w t = inr r) titles results →
  collectCandidates g w titles cs = inr (foldl addCandidate cs results).
Proof.
  intros Hall. revert cs. induction Hall as [|t r titles results Ht _ IH]; intros cs; simpl.
  - reflexivity.
  - rewrite Ht. simpl. apply IH.
Qed.

Lemma collectCandidates_error titles cs e :
  collectCandidates g w titles cs = inl e →
  ∃ t, t ∈ titles ∧ getWikidataIdFromWikipedia g w t = inl e.
Proof.
  revert cs. induction titles as [|t titles IH]; intros cs; simpl; [discriminate|].
  destruct (getWikidataIdFromWikipedia g w t) as [e'|r] eqn:Ht; simpl.
  - intros [= ->]. exists t. split; [left | exact Ht].
  - intros Hrest. apply IH in Hrest as (t' & Hin & Ht'). exists t'. split; [by right | exact Ht'].
Qed.

Lemma distinct_candidates results :
  let cs := foldl addCandidate [] results in
  NoDup (wikidataId <$> cs) ∧
  (∀ i, i ∈ wikidataId <$> cs ↔ i ∈ foundIds results) ∧
  length cs = length (remove_dups (foundIds results)).
Proof.
  intros cs. destruct (foldl_addCandidate_ids results []) as [Hnd Hin]; [constructor|].
  fold cs in Hnd, Hin.
  assert (Hin' : ∀ i, i ∈ wikidataId <$> cs ↔ i ∈ foundIds results).
  { intros i. rewrite Hin. simpl. rewrite elem_of_nil. tauto. }
  split; [exact Hnd|]. split; [exact Hin'|].
  rewrite <- (length_fmap wikidataId cs). apply Permutation_length, NoDup_Permutation.
  - exact Hnd.
  - apply NoDup_remove_dups.
  - intros i. by rewrite Hin', elem_of_remove_dups.
Qed.

End ResolverFacts.

(** *** Enrichments write their own key and read the core only *)

Ltac frame op :=
  intros [? ? ? ? ? []] [? ? ? ? ? []]; unfold same_core; simpl;
  intros (-> & -> & -> & -> & ->) ? ?; subst;
  unfold op, write, with_sources; simpl;
  repeat (case_match; simpl in *; simplify_eq); reflexivity.

Section EnrichmentFacts.
Context `{JsRuntime}.
Variable g : Globals.
Variable w : World.

Lemma enrichFromWikipedia_frame title e e' :
  same_core e e' → wikipedia (sources e) = None → wikipedia (sources e') = None →
  enrichFromWikipedia g w e' title =
  (write set_wikipedia (wikipedia (sources (enrichFromWikipedia g w e title).1)) e',
   (enrichFromWikipedia g w e title).2).
Proof. revert e e'. frame @enrichFromWikipedia. Qed.

Lemma enrichFromWikipediaExternalLinks_frame title e e' :
  same_core e e' → external_links (sources e) = None → external_links (sources e') = None →
  enrichFromWikipediaExternalLinks g w e' title =
  (write set_external_links
     (external_links (sources (enrichFromWikipediaExternalLinks g w e title).1)) e',
   (enrichFromWikipediaExternalLinks g w e title).2).
Proof. revert e e'. frame @enrichFromWikipediaExternalLinks. Qed.

Lemma enrichFromMusicBrainz_frame e e' :
  same_core e e' → musicbrainz (sources e) = None → musicbrainz (sources e') = None →
  enrichFromMusicBrainz w e' =
  (write set_musicbrainz (musicbrainz (sources (enrichFromMusicBrainz w e).1)) e',
   (enrichFromMusicBrainz w e).2).
Proof. revert e e'. frame @enrichFromMusicBrainz. Qed.

Lemma enrichFromTMDB_frame e e' :
  same_core e e' → tmdb (sources e) = None → tmdb (sources e') = None →
  enrichFromTMDB g w e' =
  (write set_tmdb (tmdb (sources (enrichFromTMDB g w e).1)) e', (enrichFromTMDB g w e).2).
Proof. revert e e'. frame @enrichFromTMDB. Qed.

Lemma enrichFromOpenLibrary_frame e e' :
  same_core e e' → openlibrary (sources e) = None → openlibrary (sources e') = None →
  enrichFromOpenLibrary w e' =
  (write set_openlibrary (openlibrary (sources (enrichFromOpenLibrary w e).1)) e',
   (enrichFromOpenLibrary w e).2).
Proof. revert e e'. frame @enrichFromOpenLibrary. Qed.

Lemma enrichFromWikimediaCommons_frame e e' :
  same_core e e' → wikimedia_commons (sources e) = None →
  wikimedia_commons (sources e') = None →
  enrichFromWikimediaCommons w e' =
  (write set_wikimedia_commons
     (wikimedia_commons (sources (enrichFromWikimediaCommons w e).1)) e',
   (enrichFromWikimediaCommons w e).2).
Proof. revert e e'. frame @enrichFromWikimediaCommons. Qed.

Lemma enrichFromOpenStreetMap_frame e e' :
  same_core e e' → openstreetmap (sources e) = None → openstreetmap (sources e') = None →
  enrichFromOpenStreetMap w e' =
  (write set_openstreetmap (openstreetmap (sources (enrichFromOpenStreetMap w e).1)) e',
   (enrichFromOpenStreetMap w e).2).
Proof. revert e e'. frame @enrichFromOpenStreetMap. Qed.

Lemma enrichFromArxiv_frame e e' :
  same_core e e' → arxiv (sources e) = None → arxiv (sources e') = None →
  enrichFromArxiv w e' =
  (write set_arxiv (arxiv (sources (enrichFromArxiv w e).1)) e', (enrichFromArxiv w e).2).
Proof. revert e e'. frame @enrichFromArxiv. Qed.

Lemma enrichFromArchiveOrg_frame e e' :
  same_core e e' → archive_org (sources e) = None → archive_org (sources e') = None →
  enrichFromArchiveOrg w e' =
  (write set_archive_org (archive_org (sources (enrichFromArchiveOrg w e).1)) e',
   (enrichFromArchiveOrg w e).2).
Proof. revert e e'. frame @enrichFromArchiveOrg. Qed.

End EnrichmentFacts.

Lemma same_core_refl e : same_core e e.
Proof. by unfold same_core. Qed.

Lemma same_core_write {P} (set : P → Sources → Sources) (p : option P) e e' :
  same_core e e' → same_core e (write set p e').
Proof. by destruct p. Qed.

Ltac core :=
  repeat match goal with
         | |- same_core _ (write _ _ _) => apply same_core_write
         end;
  apply same_core_refl.

Ltac untouched :=
  repeat match goal with
         | |- context [write _ ?p _] => is_var p; destruct p; cbn [write]
         end;
  first [assumption | reflexivity].

Ltac failed op :=
  intros [? ? ? ? ? []]; unfold op, with_sources; simpl;
  repeat (case_match; simpl in *; simplify_eq); intros; first [reflexivity | congruence].

(** Nine operations, each of which writes its own key from the core of the
    entity, joined in sequence: every key of the outcome is the one its
    operation computes on the entity they all start from. *)
Lemma run_chain (op1 op2 op3 op4 op5 op6 op7 op8 op9 : Entity → Entity * list string)
    (base : Entity) (r1 r2 r3 r4 r5 r6 r7 r8 r9 : Entity * list string) :
  unenriched base →
  (∀ e', same_core base e' → wikipedia (sources e') = None →
         op1 e' = (write set_wikipedia (wikipedia (sources r1.1)) e', r1.2)) →
  (∀ e', same_core base e' → external_links (sources e') = None →
         op2 e' = (write set_external_links (external_links (sources r2.1)) e', r2.2)) →
  (∀ e', same_core base e' → musicbrainz (sources e') = None →
         op3 e' = (write set_musicbrainz (musicbrainz (sources r3.1)) e', r3.2)) →
  (∀ e', same_core base e' → tmdb (sources e') = None →
         op4 e' = (write set_tmdb (tmdb (sources r4.1)) e', r4.2)) →
  (∀ e', same_core base e' → openlibrary (sources e') = None →
         op5 e' = (write set_openlibrary (openlibrary (sources r5.1)) e', r5.2)) →
  (∀ e', same_core base e' → wikimedia_commons (sources e') = None →
         op6 e' = (write set_wikimedia_commons (wikimedia_commons (sources r6.1)) e', r6.2)) →
  (∀ e', same_core base e' → openstreetmap (sources e') = None →
         op7 e' = (write set_openstreetmap (openstreetmap (sources r7.1)) e', r7.2)) →
  (∀ e', same_core base e' → arxiv (sources e') = None →
         op8 e' = (write set_arxiv (arxiv (sources r8.1)) e', r8.2)) →
  (∀ e', same_core base e' → archive_org (sources e') = None →
         op9 e' = (write set_archive_org (archive_org (sources r9.1)) e', r9.2)) →
  let r := runEnrichments [op1; op2; op3; op4; op5; op6; op7; op8; op9] base in
  same_core base r.1 ∧
  wikidata (sources r.1) = wikidata (sources base) ∧
  wikipedia (sources r.1) = wikipedia (sources r1.1) ∧
  external_links (sources r.1) = external_links (sources r2.1) ∧
  musicbrainz (sources r.1) = musicbrainz (sources r3.1) ∧
  tmdb (sources r.1) = tmdb (sources r4.1) ∧
  openlibrary (sources r.1) = openlibrary (sources r5.1) ∧
  wikimedia_commons (sources r.1) = wikimedia_commons (sources r6.1) ∧
  openstreetmap (sources r.1) = openstreetmap (sources r7.1) ∧
  arxiv (sources r.1) = arxiv (sources r8.1) ∧
  archive_org (sources r.1) = archive_org (sources r9.1) ∧
  r.2 = list_to_set_disj
          (r1.2 ++ r2.2 ++ r3.2 ++ r4.2 ++ r5.2 ++ r6.2 ++ r7.2 ++ r8.2 ++ r9.2).
Proof.
  intros (U1 & U2 & U3 & U4 & U5 & U6 & U7 & U8 & U9) F1 F2 F3 F4 F5 F6 F7 F8 F9.
  unfold runEnrichments. cbn [foldl].
  generalize dependent (wikipedia (sources r1.1)). intros v1 F1.
  generalize dependent (external_links (sources r2.1)). intros v2 F2.
  generalize dependent (musicbrainz (sources r3.1)). intros v3 F3.
  generalize dependent (tmdb (sources r4.1)). intros v4 F4.
  generalize dependent (openlibrary (sources r5.1)). intros v5 F5.
  generalize dependent (wikimedia_commons (sources r6.1)). intros v6 F6.
  generalize dependent (openstreetmap (sources r7.1)). intros v7 F7.
  generalize dependent (arxiv (sources r8.1)). intros v8 F8.
  generalize dependent (archive_org (sources r9.1)). intros v9 F9.
  rewrite F1; [|apply same_core_refl | exact U1].
  rewrite F2; [|core | untouched].
  rewrite F3; [|core | untouched].
  rewrite F4; [|core | untouched].
  rewrite F5; [|core | untouched].
  rewrite F6; [|core | untouched].
  rewrite F7; [|core | untouched].
  rewrite F8; [|core | untouched].
  rewrite F9; [|core | untouched].
  cbn [fst snd]. clear F1 F2 F3 F4 F5 F6 F7 F8 F9.
  split; [core|].
  split; [untouched|]. split; [untouched|]. split; [untouched|]. split; [untouched|].
  split; [untouched|]. split; [untouched|]. split; [untouched|]. split; [untouched|].
  split; [untouched|]. split; [untouched|].
  rewrite !list_to_set_disj_app, (left_id_L ∅ (⊎)). by rewrite !(assoc_L (⊎)).
Qed.

Section RunFacts.
Context `{JsRuntime}.
Variable g : Globals.
Variable w : World.

(** A failed operation has written nothing, the summary one apart. *)
Lemma enrichFromWikipedia_failed title e err :
  page_summary w (CURRENT_LANG g) title = inl err →
  (enrichFromWikipedia g w e title).2 ≠ [] ∧
  wikipedia (sources (enrichFromWikipedia g w e title).1) = wikipedia (sources e).
Proof. unfold enrichFromWikipedia. by intros ->. Qed.

(** The summary operation that fails at the links request has written the
    summary. *)
Lemma enrichFromWikipedia_links_failed title e summary err :
  page_summary w (CURRENT_LANG g) title = inr summary →
  parse_links w (CURRENT_LANG g) title = inl err →
  (enrichFromWikipedia g w e title).2 ≠ [] ∧
  wikipedia (sources (enrichFromWikipedia g w e title).1) =
    Some {| wp_title := s_title summary; wp_extract := s_extract summary;
            wp_thumbnail := s_thumbnail_source summary; wp_url := s_desktop_page summary;
            wp_links := None |}.
Proof. unfold enrichFromWikipedia. by intros -> ->. Qed.

Lemma enrichFromWikipediaExternalLinks_failed title e :
  (enrichFromWikipediaExternalLinks g w e title).2 ≠ [] →
  external_links (sources (enrichFromWikipediaExternalLinks g w e title).1) =
  external_links (sources e).
Proof. revert e. failed @enrichFromWikipediaExternalLinks. Qed.

Lemma enrichFromMusicBrainz_failed e :
  (enrichFromMusicBrainz w e).2 ≠ [] →
  musicbrainz (sources (enrichFromMusicBrainz w e).1) = musicbrainz (sources e).
Proof. revert e. failed @enrichFromMusicBrainz. Qed.

Lemma enrichFromTMDB_failed e :
  (enrichFromTMDB g w e).2 ≠ [] →
  tmdb (sources (enrichFromTMDB g w e).1) = tmdb (sources e).
Proof. revert e. failed @enrichFromTMDB. Qed.

Lemma enrichFromOpenLibrary_failed e :
  (enrichFromOpenLibrary w e).2 ≠ [] →
  openlibrary (sources (enrichFromOpenLibrary w e).1) = openlibrary (sources e).
Proof. revert e. failed @enrichFromOpenLibrary. Qed.

Lemma enrichFromWikimediaCommons_failed e :
  (enrichFromWikimediaCommons w e).2 ≠ [] →
  wikimedia_commons (sources (enrichFromWikimediaCommons w e).1) =
  wikimedia_commons (sources e).
Proof. revert e. failed @enrichFromWikimediaCommons. Qed.

Lemma enrichFromOpenStreetMap_failed e :
  (enrichFromOpenStreetMap w e).2 ≠ [] →
  openstreetmap (sources (enrichFromOpenStreetMap w e).1) = openstreetmap (sources e).
Proof. revert e. failed @enrichFromOpenStreetMap. Qed.

Lemma enrichFromArxiv_failed e :
  (enrichFromArxiv w e).2 ≠ [] →
  arxiv (sources (enrichFromArxiv w e).1) = arxiv (sources e).
Proof. revert e. failed @enrichFromArxiv. Qed.

Lemma enrichFromArchiveOrg_failed e :
  (enrichFromArchiveOrg w e).2 ≠ [] →
  archive_org (sources (enrichFromArchiveOrg w e).1) = archive_org (sources e).
Proof. revert e. failed @enrichFromArchiveOrg. Qed.

Lemma baseEntity_unenriched title wikidataId record :
  unenriched (baseEntity g title wikidataId record).
Proof. by repeat split. Qed.

End RunFacts.

(** What [resolveEntityFromCandidate] returns once the record is fetched. *)
Lemma resolveEntityFromCandidate_fetched `{JsRuntime} (g : Globals) (w : World)
    (title wikidataId : string) (record : WikidataEntity) :
  wikidata_entity w wikidataId = inr (Some record) →
  let base := baseEntity g title wikidataId record in
  let r := runEnrichments (enrichments g w title) base in
  resolveEntityFromCandidate_log g w title wikidataId = inr r ∧
  resolveEntityFromCandidate g w title wikidataId = inr r.1 ∧
  same_core base r.1 ∧
  wikidata (sources r.1) = wikidata (sources base) ∧
  wikipedia (sources r.1) = wikipedia (sources (enrichFromWikipedia g w base title).1) ∧
  external_links (sources r.1) =
    external_links (sources (enrichFromWikipediaExternalLinks g w base title).1) ∧
  musicbrainz (sources r.1) = musicbrainz (sources (enrichFromMusicBrainz w base).1) ∧
  tmdb (sources r.1) = tmdb (sources (enrichFromTMDB g w base).1) ∧
  openlibrary (sources r.1) = openlibrary (sources (enrichFromOpenLibrary w base).1) ∧
  wikimedia_commons (sources r.1) =
    wikimedia_commons (sources (enrichFromWikimediaCommons w base).1) ∧
  openstreetmap (sources r.1) = openstreetmap (sources (enrichFromOpenStreetMap w base).1) ∧
  arxiv (sources r.1) = arxiv (sources (enrichFromArxiv w base).1) ∧
  archive_org (sources r.1) = archive_org (sources (enrichFromArchiveOrg w base).1) ∧
  r.2 = list_to_set_disj
          ((enrichFromWikipedia g w base title).2 ++
           (enrichFromWikipediaExternalLinks g w base title).2 ++
           (enrichFromMusicBrainz w base).2 ++ (enrichFromTMDB g w base).2 ++
           (enrichFromOpenLibrary w base).2 ++ (enrichFromWikimediaCommons w base).2 ++
           (enrichFromOpenStreetMap w base).2 ++ (enrichFromArxiv w base).2 ++
           (enrichFromArchiveOrg w base).2).
Proof.
  intros Hfetch base r.
  split; [|split].
  - unfold resolveEntityFromCandidate_log, fetchWikidataEntity. by rewrite Hfetch.
  - unfold resolveEntityFromCandidate, resolveEntityFromCandidate_log, fetchWikidataEntity.
    by rewrite Hfetch.
  - pose proof (baseEntity_unenriched g title wikidataId record) as Hfresh.
    fold base in Hfresh. destruct Hfresh as (U1 & U2 & U3 & U4 & U5 & U6 & U7 & U8 & U9).
    subst r. unfold enrichments.
    apply run_chain; [by repeat split|..]; intros e' Hcore Hkey.
    + by apply enrichFromWikipedia_frame.
    + by apply enrichFromWikipediaExternalLinks_frame.
    + by apply enrichFromMusicBrainz_frame.
    + by apply enrichFromTMDB_frame.
    + by apply enrichFromOpenLibrary_frame.
    + by apply enrichFromWikimediaCommons_frame.
    + by apply enrichFromOpenStreetMap_frame.
    + by apply enrichFromArxiv_frame.
    + by apply enrichFromArchiveOrg_frame.
Qed.

(** C7, as the code has it: once the record is fetched,
    [resolveEntityFromCandidate] returns an entity, whichever enrichments
    fail.  Every key of [sources] is the one its own operation computes on
    the base entity, so no failure reaches another operation or the caller;
    the warnings printed are those of the nine operations, in whatever
    order.  An operation that fails leaves its key absent, except the
    summary operation: its key is absent when the summary request fails;
    when the summary request answers and only the links request fails, the
    operation fails and its key is present all the same, with the summary
    and without links. *)
Theorem enrichment_best_effort `{JsRuntime} (g : Globals) (w : World)
    (title wikidataId : string) (record : WikidataEntity) :
  wikidata_entity w wikidataId = inr (Some record) →
  let base := baseEntity g title wikidataId record in
  ∃ entity warnings,
    resolveEntityFromCandidate_log g w title wikidataId = inr (entity, warnings) ∧
    resolveEntityFromCandidate g w title wikidataId = inr entity ∧
    same_core base entity ∧
    wikipedia (sources entity) = wikipedia (sources (enrichFromWikipedia g w base title).1) ∧
    external_links (sources entity) =
      external_links (sources (enrichFromWikipediaExternalLinks g w base title).1) ∧
    musicbrainz (sources entity) = musicbrainz (sources (enrichFromMusicBrainz w base).1) ∧
    tmdb (sources entity) = tmdb (sources (enrichFromTMDB g w base).1) ∧
    openlibrary (sources entity) = openlibrary (sources (enrichFromOpenLibrary w base).1) ∧
    wikimedia_commons (sources entity) =
      wikimedia_commons (sources (enrichFromWikimediaCommons w base).1) ∧
    openstreetmap (sources entity) =
      openstreetmap (sources (enrichFromOpenStreetMap w base).1) ∧
    arxiv (sources entity) = arxiv (sources (enrichFromArxiv w base).1) ∧
    archive_org (sources entity) = archive_org (sources (enrichFromArchiveOrg w base).1) ∧
    warnings = list_to_set_disj
                 ((enrichFromWikipedia g w base title).2 ++
                  (enrichFromWikipediaExternalLinks g w base title).2 ++
                  (enrichFromMusicBrainz w base).2 ++ (enrichFromTMDB g w base).2 ++
                  (enrichFromOpenLibrary w base).2 ++ (enrichFromWikimediaCommons w base).2 ++
                  (enrichFromOpenStreetMap w base).2 ++ (enrichFromArxiv w base).2 ++
                  (enrichFromArchiveOrg w base).2) ∧
    ((∃ err, page_summary w (CURRENT_LANG g) title = inl err) →
       wikipedia (sources entity) = None) ∧
    (∀ summary err,
       page_summary w (CURRENT_LANG g) title = inr summary →
       parse_links w (CURRENT_LANG g) title = inl err →
       (enrichFromWikipedia g w base title).2 ≠ [] ∧
       wikipedia (sources entity) =
         Some {| wp_title := s_title summary; wp_extract := s_extract summary;
                 wp_thumbnail := s_thumbnail_source summary;
                 wp_url := s_desktop_page summary; wp_links := None |}) ∧
    ((enrichFromWikipediaExternalLinks g w base title).2 ≠ [] →
       external_links (sources entity) = None) ∧
    ((enrichFromMusicBrainz w base).2 ≠ [] → musicbrainz (sources entity) = None) ∧
    ((enrichFromTMDB g w base).2 ≠ [] → tmdb (sources entity) = None) ∧
    ((enrichFromOpenLibrary w base).2 ≠ [] → openlibrary (sources entity) = None) ∧
    ((enrichFromWikimediaCommons w base).2 ≠ [] → wikimedia_commons (sources entity) = None) ∧
    ((enrichFromOpenStreetMap w base).2 ≠ [] → openstreetmap (sources entity) = None) ∧
    ((enrichFromArxiv w base).2 ≠ [] → arxiv (sources entity) = None) ∧
    ((enrichFromArchiveOrg w base).2 ≠ [] → archive_org (sources entity) = None).
Proof.
  intros Hfetch base.
  destruct (resolveEntityFromCandidate_fetched g w title wikidataId record Hfetch)
    as (Hlog & Hres & Hcore & _ & K1 & K2 & K3 & K4 & K5 & K6 & K7 & K8 & K9 & Hwarn).
  fold base in Hlog, Hres, Hcore, K1, K2, K3, K4, K5, K6, K7, K8, K9, Hwarn.
  destruct (runEnrichments (enrichments g w title) base) as [entity warnings].
  cbn [fst snd] in *. exists entity, warnings.
  repeat (split; [assumption|]).
  split; [|split; [|split; [|split; [|split; [|split; [|split; [|split; [|split]]]]]]]].
  - intros [err Herr]. rewrite K1.
    by destruct (enrichFromWikipedia_failed g w title base err Herr) as [_ ->].
  - intros summary err Hsummary Hlinks. rewrite K1.
    exact (enrichFromWikipedia_links_failed g w title base summary err Hsummary Hlinks).
  - intros Hfail. by rewrite K2, enrichFromWikipediaExternalLinks_failed.
  - intros Hfail. by rewrite K3, enrichFromMusicBrainz_failed.
  - intros Hfail. by rewrite K4, enrichFromTMDB_failed.
  - intros Hfail. by rewrite K5, enrichFromOpenLibrary_failed.
  - intros Hfail. by rewrite K6, enrichFromWikimediaCommons_failed.
  - intros Hfail. by rewrite K7, enrichFromOpenStreetMap_failed.
  - intros Hfail. by rewrite K8, enrichFromArxiv_failed.
  - intros Hfail. by rewrite K9, enrichFromArchiveOrg_failed.
Qed.

(** C1: when the search and the identifier lookups answer, [resolveEntity]
    decides on the distinct canonical identifiers found.  With exactly one it
    resolves that candidate and never returns a disambiguation; the outcome
    is a full entity as soon as the record of the candidate is fetched.  With
    two or more it returns [{needsDisambiguation: true, candidates}] with one
    candidate per distinct identifier. *)
Theorem disambiguation_rule `{JsRuntime} (g : Globals) (w : World) (searchTerm : string)
    (titles : list string) (results : list (option WikidataRef)) :
  opensearch w (CURRENT_LANG g) searchTerm = inr (Some titles) →
  Forall2 (fun t r => getWikidataIdFromWikipedia g w t = inr r) titles results →
  let distinct := remove_dups (foundIds results) in
  (length distinct = 1%nat →
     ∃ c, distinct = [wikidataId c] ∧
          resolveEntity g w searchTerm =
            (await entity := resolveEntityFromCandidate g w (title c) (wikidataId c) in
             ret (Resolved entity)) ∧
          (∀ b cs, resolveEntity g w searchTerm ≠ inr (Disambiguation b cs)) ∧
          (∀ record, wikidata_entity w (wikidataId c) = inr (Some record) →
             ∃ entity, resolveEntity g w searchTerm = inr (Resolved entity) ∧
                       id entity = wikidataId c)) ∧
  ((2 ≤ length distinct)%nat →
     ∃ cs, resolveEntity g w searchTerm = inr (Disambiguation true cs) ∧
           length cs = length distinct ∧
           NoDup (wikidataId <$> cs) ∧
           ∀ i, i ∈ wikidataId <$> cs ↔ i ∈ foundIds results).
Proof.
  intros Hsearch Hlookups distinct.
  destruct (distinct_candidates results) as (Hnd & Hin & Hlen).
  fold distinct in Hlen.
  assert (Hresolve : titles ≠ [] →
            resolveEntity g w searchTerm =
            match foldl addCandidate [] results with
            | [] => throw (noValidArticleError searchTerm)
            | [only] =>
                await entity := resolveEntityFromCandidate g w (title only) (wikidataId only) in
                ret (Resolved entity)
            | cs => ret (Disambiguation true cs)
            end).
  { intros Hne. unfold resolveEntity, searchWikipedia. rewrite Hsearch.
    cbn [bind ret]. destruct titles as [|t titles]; [done|].
    change (length (t :: titles) =? 0)%nat with false. cbn iota.
    rewrite (collectCandidates_spec g w _ _ _ Hlookups). cbn [bind].
    by destruct (foldl addCandidate [] results) as [|? [|? ?]]. }
  assert (Htitles : (1 ≤ length distinct)%nat → titles ≠ []).
  { intros Hpos ->. inversion Hlookups; subst. simpl in Hpos. lia. }
  split.
  - intros Hone. rewrite Hresolve by (apply Htitles; lia).
    destruct (foldl addCandidate [] results) as [|c [|c' cs]] eqn:Hcs;
      simpl in Hlen; [lia | | lia].
    exists c. split; [|split; [|split]].
    + assert (Hc : wikidataId c ∈ distinct).
      { apply elem_of_remove_dups, Hin. rewrite fmap_cons. left. }
      destruct distinct as [|i [|? ?]]; simpl in Hone; try lia.
      apply list_elem_of_singleton in Hc. by rewrite Hc.
    + reflexivity.
    + intros b cs. by destruct (resolveEntityFromCandidate g w (title c) (wikidataId c)).
    + intros record Hrecord.
      destruct (resolveEntityFromCandidate_fetched g w (title c) (wikidataId c) record Hrecord)
        as (_ & -> & (Hid & _) & _).
      eexists. split; [reflexivity|]. by rewrite <- Hid.
  - intros Htwo. rewrite Hresolve by (apply Htitles; lia).
    destruct (foldl addCandidate [] results) as [|c [|c' cs]] eqn:Hcs;
      simpl in Hlen; [lia | lia |].
    exists (c :: c' :: cs). done.
Qed.

Lemma resolveEntityFromCandidate_error `{JsRuntime} (g : Globals) (w : World)
    (title wikidataId : string) (e : exn) :
  resolveEntityFromCandidate g w title wikidataId = inl e →
  wikidata_entity w wikidataId = inl e ∨ wikidata_entity w wikidataId = inr None.
Proof.
  unfold resolveEntityFromCandidate, resolveEntityFromCandidate_log, fetchWikidataEntity.
  destruct (wikidata_entity w wikidataId) as [e'|[record|]]; cbn [bind ret throw].
  - intros [= ->]. by left.
  - discriminate.
  - by right.
Qed.

Lemma NotFoundError_message (query : string) (e : exn) :
  NotFoundError query e → ∃ message, e = JsError message ∧ contains query message.
Proof.
  intros [-> | ->]; eexists; (split; [reflexivity|]); unfold contains.
  - exists ("Aucun résultat trouvé pour " +:+ dquote), dquote. reflexivity.
  - exists ("Aucun article valide trouvé pour " +:+ dquote), dquote. reflexivity.
Qed.

(** C2, as the code has it: when the search returns no title, or when no
    title is left with a canonical identifier, [resolveEntity] fails with an
    error whose message contains the query.  These are the only errors the
    pipeline raises by itself; it also hands on, unchanged, the failure of
    the search request, of an identifier lookup or of the fetch of the
    record, and nothing else. *)
Theorem not_found `{JsRuntime} (g : Globals) (w : World) (searchTerm : string) :
  (opensearch w (CURRENT_LANG g) searchTerm = inr None ∨
   opensearch w (CURRENT_LANG g) searchTerm = inr (Some []) →
   resolveEntity g w searchTerm = inl (noResultError searchTerm)) ∧
  (∀ titles results,
     titles ≠ [] →
     opensearch w (CURRENT_LANG g) searchTerm = inr (Some titles) →
     Forall2 (fun t r => getWikidataIdFromWikipedia g w t = inr r) titles results →
     foundIds results = [] →
     resolveEntity g w searchTerm = inl (noValidArticleError searchTerm)) ∧
  (∀ e, NotFoundError searchTerm e →
        ∃ message, e = JsError message ∧ contains searchTerm message) ∧
  (∀ e, resolveEntity g w searchTerm = inl e →
        NotFoundError searchTerm e ∨
        opensearch w (CURRENT_LANG g) searchTerm = inl e ∨
        (∃ t, getWikidataIdFromWikipedia g w t = inl e) ∨
        (∃ t i, resolveEntityFromCandidate g w t i = inl e ∧
                (wikidata_entity w i = inl e ∨ wikidata_entity w i = inr None))).
Proof.
  split; [|split; [|split]].
  - unfold resolveEntity, searchWikipedia. by intros [->| ->].
  - intros titles results Hne Hsearch Hlookups Hnone.
    unfold resolveEntity, searchWikipedia. rewrite Hsearch. cbn [bind ret].
    destruct titles as [|t titles]; [done|].
    change (length (t :: titles) =? 0)%nat with false. cbn iota.
    rewrite (collectCandidates_spec g w _ _ _ Hlookups). cbn [bind].
    destruct (distinct_candidates results) as (_ & _ & Hlen).
    rewrite Hnone in Hlen. by destruct (foldl addCandidate [] results).
  - apply NotFoundError_message.
  - intros e. unfold resolveEntity, searchWikipedia.
    destruct (opensearch w (CURRENT_LANG g) searchTerm) as [e'|data]; cbn [bind ret].
    { intros [= ->]. right. by left. }
    destruct (length (match data with Some titles => titles | None => [] end) =? 0)%nat.
    { intros [= <-]. left. by left. }
    destruct (collectCandidates g w _ []) as [e'|cs] eqn:Hcollect; cbn [bind].
    { intros [= ->]. apply collectCandidates_error in Hcollect as (t & _ & Ht).
      right. right. left. eauto. }
    destruct cs as [|c [|c' cs]].
    + intros [= <-]. left. by right.
    + destruct (resolveEntityFromCandidate g w (title c) (wikidataId c)) as [e'|entity]
        eqn:Hres; cbn [bind ret]; [|discriminate].
      intros [= ->]. do 3 right. exists (title c), (wikidataId c). split; [exact Hres|].
      by apply resolveEntityFromCandidate_error in Hres.
    + discriminate.
Qed.

Lemma inferEntityType_first_claim (record : WikidataEntity) :
  inferEntityType record =
  match default ∅ (claims record) !! "P31" with
  | Some (first :: _) =>
      default "entity" (claimId first ≫= fun i => assoc i typeMap)
  | _ => "entity"
  end.
Proof.
  unfold inferEntityType, claimId.
  destruct (default ∅ (claims record) !! "P31") as [[|[[[s|[i|]|la lo|j]|]] rest]|];
    try reflexivity.
  cbn [mainsnak_value mbind option_bind value_id].
  destruct i; reflexivity.
Qed.

(** The types that [inferEntityType] can return. *)
Lemma inferEntityType_range (record : WikidataEntity) :
  inferEntityType record ∈
  ["person"; "place"; "film"; "series"; "book"; "concept"; "entity"].
Proof.
  rewrite inferEntityType_first_claim.
  destruct (default ∅ (claims record) !! "P31") as [[|first rest]|];
    [by apply (bool_decide_unpack _)| |by apply (bool_decide_unpack _)].
  destruct (claimId first) as [i|]; [|by apply (bool_decide_unpack _)].
  cbn [mbind option_bind].
  assert (Htable : ∀ table : list (string * string),
            Forall (fun kv => kv.2 ∈ ["person"; "place"; "film"; "series"; "book";
                                      "concept"; "entity"]) table →
            default "entity" (assoc i table) ∈
            ["person"; "place"; "film"; "series"; "book"; "concept"; "entity"]).
  { induction 1 as [|[k v] table Hv _ IH]; simpl.
    - by apply (bool_decide_unpack _).
    - destruct (String.eqb i k); [exact Hv | exact IH]. }
  apply Htable. unfold typeMap. repeat constructor; by apply (bool_decide_unpack _).
Qed.

(** C8: a record whose first "instance of" value is Q11424 is given the type
    [film], which is not one of [person], [place], [work], [concept],
    [entity], the types that the claim and the [Entity] typedef of the module
    name. *)
Theorem inferEntityType_film :
  inferEntityType (ex_record "Q11424") = "film" ∧
  "film" ∉ ["person"; "place"; "work"; "concept"; "entity"].
Proof.
  split; [by vm_compute|].
  intros Hin. repeat (apply elem_of_cons in Hin as [Hin|Hin]; [discriminate|]).
  inversion Hin.
Qed.

(** ** The program on sample inputs *)

Example isLinkNoise_year : isLinkNoise (H := ascii_runtime) "1959" = true.
Proof. reflexivity. Qed.

Example isLinkNoise_month_inside :
  isLinkNoise (H := ascii_runtime) "Marseille" = true.
Proof. reflexivity. Qed.

Example isLinkNoise_list_page :
  isLinkNoise (H := ascii_runtime) "Liste de clarinettistes" = true.
Proof. reflexivity. Qed.

Example isLinkNoise_plain : isLinkNoise (H := ascii_runtime) "Paris" = false.
Proof. reflexivity. Qed.

(** Q5 is listed under P31 and again under P106: it keeps its place in the
    map and takes the later relation type.  "1959" is dropped, the tenth
    link still scores 2, the last two score 1. *)
Example extractConnectedEntities_sample :
  (fun c => (c_id c, c_type c, c_score c)) <$>
    extractConnectedEntities (H := ascii_runtime) ex_entity =
  [ ("Q5", "occupation", 3); ("Q639669", "occupation", 3); ("Q8341", "genre", 3);
    ("wiki:Jazz", "related", 2); ("wiki:Paris", "related", 2);
    ("wiki:Clarinette", "related", 2); ("wiki:Saxophone", "related", 2);
    ("wiki:Louis Armstrong", "related", 2); ("wiki:Duke Ellington", "related", 2);
    ("wiki:Blues", "related", 2); ("wiki:Ragtime", "related", 2);
    ("wiki:Dixieland", "related", 2); ("wiki:Antibes", "related", 1);
    ("wiki:Garches", "related", 1) ].
Proof. by vm_compute. Qed.

Example buildGraph_sample :
  n_id <$> nodes (buildGraph (H := ascii_runtime) ex_offline ex_entity 1 5) =
  ["Q1"; "Q5"; "Q639669"; "Q8341"; "wiki:Jazz"; "wiki:Paris"].
Proof. by vm_compute. Qed.

(** A negative cap counts from the end of the list. *)
Example slice0_negative : slice0 (-1) [1; 2; 3] = [1; 2].
Proof. reflexivity. Qed.

(** ** The properties on sample inputs *)

Lemma buildGraph_well_formed_witness :
  GraphWellFormed (buildGraph (H := ascii_runtime) ex_offline ex_entity 2 20).
Proof. exact (buildGraph_well_formed (H := ascii_runtime) ex_offline ex_entity 2 20). Defined.

Lemma breadth_cap_witness :
  0 ≤ 3 ∧
  Z.of_nat (length (limitedEntities (H := ascii_runtime) 3 ex_entity)) ≤ 3 ∧
  ∀ level, 1 ≤ level →
    Z.of_nat (length (filter (fun n => n_level n = level)
                        (nodes (buildGraph (H := ascii_runtime) ex_offline ex_entity 1 3))))
    ≤ 3.
Proof.
  split; [lia|].
  destruct (breadth_cap (H := ascii_runtime) ex_offline ex_entity 1 3) as (_ & _ & Hlen & Hnew);
    [lia|].
  split; [exact Hlen | exact Hnew].
Defined.

Lemma scoring_tiers_witness :
  "Jazz" ∈ textualLinks ex_entity ∧
  isLinkNoise (H := ascii_runtime) "Jazz" = false ∧
  ("wiki:Jazz" ∉ structuralIds ex_entity) ∧
  ∃ c, c ∈ extractConnectedEntities (H := ascii_runtime) ex_entity ∧
       c_id c = "wiki:Jazz" ∧ c_source c = "wikipedia" ∧
       c_score c = if decide ("Jazz" ∈ take 10 (textualLinks ex_entity)) then 2 else 1.
Proof.
  assert (Hlink : "Jazz" ∈ textualLinks ex_entity).
  { apply (bool_decide_unpack _). vm_compute. exact I. }
  assert (Hclean : isLinkNoise (H := ascii_runtime) "Jazz" = false) by reflexivity.
  assert (Hns : "wiki:Jazz" ∉ structuralIds ex_entity).
  { apply (bool_decide_unpack _). vm_compute. exact I. }
  split; [exact Hlink|]. split; [exact Hclean|]. split; [exact Hns|].
  destruct (scoring_tiers (H := ascii_runtime) ex_entity) as (_ & _ & Htext & _).
  exact (Htext "Jazz" Hlink Hclean Hns).
Defined.

Lemma noise_never_node_witness :
  NoiseTitle (H := ascii_runtime) "1959" ∧
  isLinkNoise (H := ascii_runtime) "1959" = true ∧
  ∀ n, n ∈ nodes (buildGraph (H := ascii_runtime) ex_offline ex_entity 1 20) →
       n_id n ≠ "wiki:1959".
Proof.
  assert (Hnoise : NoiseTitle (H := ascii_runtime) "1959").
  { left. apply test_digits_spec. reflexivity. }
  split; [exact Hnoise|].
  destruct (noise_never_node (H := ascii_runtime) "1959" ex_offline ex_entity 1 20 Hnoise)
    as (Hfilter & _ & Hnodes).
  split; [exact Hfilter|]. apply Hnodes.
  - discriminate.
  - apply (bool_decide_unpack _). vm_compute. exact I.
Defined.

Lemma label_pass_witness :
  (buildGraph_io (H := ascii_runtime) ex_bilingual ex_entity 1 20).2 =
  (if decide (qidsToTranslate (traverse (H := ascii_runtime) ex_entity 1 20) = []) then []
   else [{| rq_ids := qidsToTranslate (traverse (H := ascii_runtime) ex_entity 1 20);
            rq_languages := "fr" |}]).
Proof.
  destruct (label_pass (H := ascii_runtime) ex_bilingual ex_entity 1 20) as (_ & Hreq & _).
  exact Hreq.
Defined.

Lemma depth_beyond_one_witness :
  1 ≤ 3 ∧
  buildGraph (H := ascii_runtime) ex_bilingual ex_entity 3 20 =
  buildGraph (H := ascii_runtime) ex_bilingual ex_entity 1 20.
Proof.
  split; [lia|].
  destruct (depth_beyond_one (H := ascii_runtime) ex_bilingual ex_entity 3 20) as (_ & Heq & _);
    [lia | exact Heq].
Defined.

Lemma disambiguation_rule_witness :
  (∃ entity, resolveEntity (H := ascii_runtime) ex_globals (ex_search "Q1") "bechet" =
               inr (Resolved entity) ∧ id entity = "Q1") ∧
  (∃ cs, resolveEntity (H := ascii_runtime) ex_globals (ex_search "Q2") "bechet" =
           inr (Disambiguation true cs) ∧ length cs = 2%nat).
Proof.
  split.
  - destruct (disambiguation_rule (H := ascii_runtime) ex_globals (ex_search "Q1") "bechet"
                ["Bechet"; "Bechet (homonymie)"]
                [Some {| ref_id := Some "Q1"; realTitle := "Sidney Bechet" |};
                 Some {| ref_id := Some "Q1"; realTitle := "Bechet (homonymie)" |}])
      as [Hone _]; [reflexivity | repeat constructor |].
    destruct Hone as (c & Hc & _ & _ & Hentity); [reflexivity|].
    injection Hc as Hc.
    destruct (Hentity (ex_record "Q5")) as (entity & Hres & Hid); [reflexivity|].
    exists entity. split; [exact Hres|]. by rewrite Hid, <- Hc.
  - destruct (disambiguation_rule (H := ascii_runtime) ex_globals (ex_search "Q2") "bechet"
                ["Bechet"; "Bechet (homonymie)"]
                [Some {| ref_id := Some "Q1"; realTitle := "Sidney Bechet" |};
                 Some {| ref_id := Some "Q2"; realTitle := "Bechet (homonymie)" |}])
      as [_ Htwo]; [reflexivity | repeat constructor |].
    destruct Htwo as (cs & Hres & Hlen & _); [vm_compute; lia|].
    exists cs. split; [exact Hres | exact Hlen].
Defined.

Lemma not_found_witness :
  resolveEntity (H := ascii_runtime) ex_globals ex_no_article "bechett" =
  inl (noValidArticleError "bechett").
Proof.
  destruct (not_found (H := ascii_runtime) ex_globals ex_no_article "bechett")
    as (_ & Hnone & _).
  apply (Hnone ["Bechett"] [None]); [discriminate | reflexivity | repeat constructor | reflexivity].
Defined.

Lemma enrichment_best_effort_witness :
  wikidata_entity (ex_search "Q1") "Q1" = inr (Some (ex_record "Q5")) ∧
  ∃ entity,
    resolveEntityFromCandidate (H := ascii_runtime) ex_globals (ex_search "Q1")
      "Sidney Bechet" "Q1" = inr entity ∧
    external_links (sources entity) = None ∧
    ∃ wp, wikipedia (sources entity) = Some wp ∧
          wp_title wp = Some "Sidney Bechet" ∧ wp_links wp = None.
Proof.
  split; [reflexivity|].
  destruct (enrichment_best_effort (H := ascii_runtime) ex_globals (ex_search "Q1")
              "Sidney Bechet" "Q1" (ex_record "Q5"))
    as (entity & warnings & _ & Hres & _ & _ & _ & _ & _ & _ & _ & _ & _ & _ & _ & _ & Hkept
        & Hlinks & _);
    [reflexivity|].
  exists entity. split; [exact Hres|]. split; [apply Hlinks; discriminate|].
  destruct (Hkept _ (Rejected "NetworkError") eq_refl eq_refl) as [_ Hwp].
  eexists. split; [exact Hwp|]. split; reflexivity.
Defined.

(** ** Where the claims and the code part *)

(** C2 as stated fails: the search finds one article, the fetch of its
    record is rejected, and [resolveEntity] fails with that rejection, which
    is not a not-found error. *)
Lemma surfaced_error_not_NotFoundError :
  ∃ e, resolveEntity (H := ascii_runtime) ex_globals ex_unreachable_record "bechet" = inl e ∧
       ¬ NotFoundError "bechet" e.
Proof.
  exists (Rejected "NetworkError"). split; [reflexivity|].
  intros [Hno|Hno]; discriminate.
Qed.

(** C7 as stated fails: the summary request answers and the links request
    is rejected; the summary enrichment fails, with its warning, and its key
    is present all the same. *)
Lemma failed_summary_enrichment_keeps_key :
  ∃ entity warnings,
    resolveEntityFromCandidate_log (H := ascii_runtime) ex_globals (ex_search "Q1")
      "Sidney Bechet" "Q1" = inr (entity, warnings) ∧
    "Wikipedia enrichment failed:" ∈ warnings ∧
    is_Some (wikipedia (sources entity)).
Proof.
  eexists. eexists. split; [reflexivity|]. split; [left | by eexists].
Qed.

(** C9 as stated fails: with the language set to English, the labels are
    requested in French, and the node of Q5 is labelled in French. *)
Lemma label_pass_not_in_current_locale :
  getLanguage (setLanguage "en" ex_globals) = "en" ∧
  (buildGraph_io (H := ascii_runtime) ex_bilingual ex_entity 1 20).2 =
    [{| rq_ids := ["Q1"; "Q5"; "Q639669"; "Q8341"]; rq_languages := "fr" |}] ∧
  wbgetentities ex_bilingual ["Q1"; "Q5"; "Q639669"; "Q8341"] "en" =
    inr (Some {[ "Q5" := {[ "en" := "human" ]} ]}) ∧
  ∃ n, n ∈ nodes (buildGraph (H := ascii_runtime) ex_bilingual ex_entity 1 20) ∧
       n_id n = "Q5" ∧ n_label n = "humain".
Proof.
  split; [reflexivity|]. split; [by vm_compute|]. split; [reflexivity|].
  eexists. split; [|split].
  - apply list_elem_of_lookup. exists 1%nat. by vm_compute.
  - reflexivity.
  - reflexivity.
Qed.

(** ** Further properties of the graph builder *)

Section StableSort.
Context {A : Type} (key : A → Z).

Lemma insert_sorted_pass x P Q :
  Forall (fun y => key x < key y) P →
  insert_sorted (fun a b => key b - key a) x (P ++ Q) =
  P ++ insert_sorted (fun a b => key b - key a) x Q.
Proof.
  induction 1 as [|y P Hy _ IH]; [reflexivity|].
  cbn [app insert_sorted]. destruct (Z.leb_spec (key y - key x) 0); [lia|].
  by rewrite IH.
Qed.

Lemma insert_sorted_stop x Q :
  Forall (fun y => key y ≤ key x) Q →
  insert_sorted (fun a b => key b - key a) x Q = x :: Q.
Proof.
  destruct 1 as [|y Q Hy _]; [reflexivity|].
  cbn [insert_sorted]. destruct (Z.leb_spec (key y - key x) 0); [reflexivity | lia].
Qed.

Lemma Forall_filter_key (k b : Z) (R : Z → Z → Prop) l :
  R k b → Forall (fun y => R (key y) b) (filter (fun y => key y = k) l).
Proof.
  intros HR. apply Forall_forall. intros y Hy.
  apply list_elem_of_filter in Hy as [-> _]. exact HR.
Qed.

(** A stable sort on three keys is a partition that keeps the order. *)
Lemma sort_three_keys l :
  Forall (fun x => key x = 3 ∨ key x = 2 ∨ key x = 1) l →
  sort (fun a b => key b - key a) l =
  filter (fun x => key x = 3) l ++ filter (fun x => key x = 2) l ++
  filter (fun x => key x = 1) l.
Proof.
  induction 1 as [|x l Hx _ IH]; [reflexivity|].
  unfold sort in *. cbn [foldr]. rewrite IH. clear IH.
  destruct Hx as [Hx|[Hx|Hx]].
  - rewrite (filter_cons_True (fun x => key x = 3)) by done.
    rewrite (filter_cons_False (fun x => key x = 2)) by lia.
    rewrite (filter_cons_False (fun x => key x = 1)) by lia.
    apply insert_sorted_stop. rewrite !Forall_app. rewrite Hx.
    split; [|split].
    + apply (Forall_filter_key 3 3 Z.le). lia.
    + apply (Forall_filter_key 2 3 Z.le). lia.
    + apply (Forall_filter_key 1 3 Z.le). lia.
  - rewrite (filter_cons_False (fun x => key x = 3)) by lia.
    rewrite (filter_cons_True (fun x => key x = 2)) by done.
    rewrite (filter_cons_False (fun x => key x = 1)) by lia.
    rewrite insert_sorted_pass.
    + f_equal. apply insert_sorted_stop. rewrite Forall_app, Hx. split.
      * apply (Forall_filter_key 2 2 Z.le). lia.
      * apply (Forall_filter_key 1 2 Z.le). lia.
    + rewrite Hx. apply (Forall_filter_key 3 2 (fun a b => b < a)). lia.
  - rewrite (filter_cons_False (fun x => key x = 3)) by lia.
    rewrite (filter_cons_False (fun x => key x = 2)) by lia.
    rewrite (filter_cons_True (fun x => key x = 1)) by done.
    rewrite app_assoc, insert_sorted_pass.
    + rewrite <- app_assoc. do 2 f_equal. apply insert_sorted_stop. rewrite Hx.
      apply (Forall_filter_key 1 1 Z.le). lia.
    + rewrite Forall_app, Hx. split.
      * apply (Forall_filter_key 3 1 (fun a b => b < a)). lia.
      * apply (Forall_filter_key 2 1 (fun a b => b < a)). lia.
Qed.

End StableSort.

Lemma filter_all {A} (P : A → Prop) `{∀ x, Decision (P x)} (l : list A) :
  Forall P l → filter P l = l.
Proof.
  induction 1 as [|x l Hx _ IH]; [reflexivity|].
  by rewrite filter_cons_True, IH.
Qed.

Lemma filter_none {A} (P : A → Prop) `{∀ x, Decision (P x)} (l : list A) :
  Forall (fun x => ¬ P x) l → filter P l = [].
Proof.
  induction 1 as [|x l Hx _ IH]; [reflexivity|].
  by rewrite filter_cons_False.
Qed.

Lemma filter_ext_elem {A} (P Q : A → Prop) `{∀ x, Decision (P x)} `{∀ x, Decision (Q x)}
    (l : list A) :
  (∀ x, x ∈ l → P x ↔ Q x) → filter P l = filter Q l.
Proof.
  induction l as [|x l IH]; intros Hext; [reflexivity|].
  rewrite !filter_cons, IH by (intros y Hy; apply Hext; by right).
  destruct (decide (P x)) as [Hp|Hp], (decide (Q x)) as [Hq|Hq]; try reflexivity;
    exfalso; apply (Hext x) in Hp || apply Hp, (Hext x); first [done | left].
Qed.

Section GraphExtras.
Context `{JsRuntime}.

Lemma received_scores entity :
  Forall (fun c => c_score c = 3 ∨ c_score c = 2 ∨ c_score c = 1)
         (map_values (connectedMapOf entity)).
Proof.
  apply Forall_forall. intros c Hc.
  apply elem_of_map_values in Hc as [k Hk]; [|apply connectedMapOf_NoDup].
  apply connectedMapOf_origin in Hk
    as [(_ & rel & ->)|(_ & t & n & _ & _ & _ & -> & _)]; cbn [c_score structuralCandidate textualCandidate].
  - by left.
  - destruct (n <? 10)%nat; auto.
Qed.

Lemma extract_partition entity :
  let received := map_values (connectedMapOf entity) in
  extractConnectedEntities entity =
  filter (fun c => c_score c = 3) received ++ filter (fun c => c_score c = 2) received ++
  filter (fun c => c_score c = 1) received.
Proof. apply sort_three_keys, received_scores. Qed.

Lemma kept_formula maxNodesPerLevel entity :
  let received := map_values (connectedMapOf entity) in
  limitedEntities maxNodesPerLevel entity =
  slice0 maxNodesPerLevel
    (filter (fun c => c_score c = 3) received ++ filter (fun c => c_score c = 2) received).
Proof.
  intros received. unfold limitedEntities. rewrite extract_partition. fold received.
  f_equal. rewrite !filter_app.
  rewrite (filter_all (fun c => 2 ≤ c_score c) (filter (fun c => c_score c = 3) received)).
  2:{ apply Forall_forall. intros c Hc. apply list_elem_of_filter in Hc as [-> _]. lia. }
  rewrite (filter_all (fun c => 2 ≤ c_score c) (filter (fun c => c_score c = 2) received)).
  2:{ apply Forall_forall. intros c Hc. apply list_elem_of_filter in Hc as [-> _]. lia. }
  rewrite (filter_none (fun c => 2 ≤ c_score c) (filter (fun c => c_score c = 1) received)).
  2:{ apply Forall_forall. intros c Hc. apply list_elem_of_filter in Hc as [-> _]. lia. }
  by rewrite app_nil_r.
Qed.

Lemma kept_NoDup maxNodesPerLevel entity :
  NoDup (c_id <$> limitedEntities maxNodesPerLevel entity).
Proof.
  apply (sublist_NoDup _ (c_id <$> extractConnectedEntities entity)); [apply extract_NoDup|].
  apply fmap_sublist. unfold limitedEntities, slice0.
  destruct (maxNodesPerLevel <? 0); (etrans; [apply sublist_take | apply sublist_filter]).
Qed.

Lemma kept_candidates maxNodesPerLevel entity c :
  c ∈ limitedEntities maxNodesPerLevel entity →
  c ∈ extractConnectedEntities entity ∧ 2 ≤ c_score c.
Proof.
  unfold limitedEntities. intros Hc. apply slice0_subseteq in Hc.
  apply list_elem_of_filter in Hc. tauto.
Qed.

(** The identifiers of the nodes that a pass over candidates with distinct
    identifiers adds: those not visited before, in order. *)
Lemma foldl_visit_ids entityId level l st :
  NoDup (c_id <$> l) →
  n_id <$> nodes (graph (foldl (visit entityId level) st l)) =
  (n_id <$> nodes (graph st)) ++ (c_id <$> filter (fun c => c_id c ∉ visited st) l).
Proof.
  revert st. induction l as [|c l IH]; intros st Hnd; cbn [foldl].
  - by rewrite app_nil_r.
  - rewrite fmap_cons in Hnd. apply NoDup_cons in Hnd as [Hc Hnd].
    rewrite IH by exact Hnd. rewrite filter_cons. unfold visit.
    destruct (decide (c_id c ∈ visited st)) as [Hseen|Hnew]; cbn [graph visited nodes addEdge].
    + rewrite decide_False by tauto. reflexivity.
    + rewrite decide_True by exact Hnew. rewrite fmap_app, fmap_cons, <- app_assoc.
      f_equal. cbn [n_id fmap list_fmap app]. do 2 f_equal.
      apply filter_ext_elem. intros c' Hc'. rewrite not_elem_of_union, not_elem_of_singleton.
      split; [tauto|]. intros Hn. split; [|exact Hn]. intros Heq. apply Hc.
      rewrite <- Heq. apply list_elem_of_fmap. eauto.
Qed.

End GraphExtras.

Section GraphShape.
Context `{JsRuntime}.

Lemma buildGraph_relabelled w centerEntity depth maxNodesPerLevel :
  nodes (buildGraph w centerEntity depth maxNodesPerLevel) =
  relabel (fetchWikidataLabels w
             (qidsToTranslate (traverse centerEntity depth maxNodesPerLevel))).1
    <$> nodes (traverse centerEntity depth maxNodesPerLevel).
Proof.
  unfold buildGraph, buildGraph_io.
  destruct (qidsToTranslate (traverse centerEntity depth maxNodesPerLevel)) as [|i qids].
  - change (0 <? length (@nil string))%nat with false. cbn [fst].
    rewrite <- (list_fmap_id (nodes _)) at 1.
    apply list_fmap_ext. intros ? n _. symmetry. apply relabel_empty.
  - change (0 <? length (i :: qids))%nat with true.
    by destruct (fetchWikidataLabels w (i :: qids)).
Qed.

Lemma traverse_ids centerEntity depth maxNodesPerLevel :
  1 ≤ depth →
  n_id <$> nodes (traverse centerEntity depth maxNodesPerLevel) =
  id centerEntity ::
  (c_id <$> filter (fun c => c_id c ≠ id centerEntity)
              (limitedEntities maxNodesPerLevel centerEntity)).
Proof.
  intros Hdepth. rewrite traverse_unfold. destruct (Z.leb_spec depth 0); [lia|].
  rewrite foldl_visit_ids by apply kept_NoDup.
  cbn [initialState graph visited nodes fmap list_fmap app createNode n_id].
  do 2 f_equal. apply filter_ext_elem. intros c _. apply not_elem_of_singleton.
Qed.

Lemma traverse_edges_eq centerEntity depth maxNodesPerLevel :
  1 ≤ depth →
  edges (traverse centerEntity depth maxNodesPerLevel) =
  edgeTo (id centerEntity) <$> limitedEntities maxNodesPerLevel centerEntity.
Proof.
  intros Hdepth. rewrite traverse_unfold. destruct (Z.leb_spec depth 0); [lia|].
  by rewrite foldl_visit_edges.
Qed.

Lemma structural_count entity :
  length (filter (fun c => c_score c = 3) (map_values (connectedMapOf entity))) =
  length (remove_dups (structuralIds entity)).
Proof.
  rewrite <- (length_fmap c_id). apply Permutation_length, NoDup_Permutation.
  - apply (sublist_NoDup _ (c_id <$> map_values (connectedMapOf entity))).
    + rewrite keyed_values_ids; [apply connectedMapOf_NoDup|].
      intros k c Hin. eapply connectedMapOf_key, elem_of_map_get; [|exact Hin].
      apply connectedMapOf_NoDup.
    + apply fmap_sublist, sublist_filter.
  - apply NoDup_remove_dups.
  - intros i. rewrite elem_of_remove_dups, list_elem_of_fmap. split.
    + intros (c & -> & Hc). apply list_elem_of_filter in Hc as [Hscore Hc].
      assert (Hin : c ∈ extractConnectedEntities entity).
      { unfold extractConnectedEntities. by apply elem_of_sort. }
      apply extract_scores in Hin as [(_ & _ & Hs)|(_ & _ & _ & _ & _ & Htext)]; [exact Hs|].
      rewrite Hscore in Htext. by destruct (decide _).
    + intros Hi. destruct (extract_structural i entity Hi) as (c & Hc & Hid & _ & Hscore).
      exists c. split; [done|]. apply list_elem_of_filter. split; [exact Hscore|].
      unfold extractConnectedEntities in Hc. by apply elem_of_sort in Hc.
Qed.

End GraphShape.

(** X1: candidates come grouped by score, 3 then 2 then 1, and within a
    score they keep the order in which the map received them: claim values
    in the order of the property table, links in the order of the article. *)
Theorem candidates_keep_order `{JsRuntime} (entity : Entity) :
  let received := map_values (connectedMapOf entity) in
  extractConnectedEntities entity =
  filter (fun c => c_score c = 3) received ++ filter (fun c => c_score c = 2) received ++
  filter (fun c => c_score c = 1) received.
Proof. apply extract_partition. Qed.

(** X2: with a cap that is not negative, the candidates kept are the first
    [maxNodesPerLevel] of the structural ones followed by the links of score
    2; so when the entity has at most [maxNodesPerLevel] distinct structural
    identifiers and the depth is at least 1, each of them is a node. *)
Theorem structural_relations_first `{JsRuntime} (w : World) (entity : Entity)
    (depth maxNodesPerLevel : Z) :
  0 ≤ maxNodesPerLevel →
  let received := map_values (connectedMapOf entity) in
  limitedEntities maxNodesPerLevel entity =
    take (Z.to_nat maxNodesPerLevel)
      (filter (fun c => c_score c = 3) received ++
       filter (fun c => c_score c = 2) received) ∧
  (1 ≤ depth →
   Z.of_nat (length (remove_dups (structuralIds entity))) ≤ maxNodesPerLevel →
   ∀ i, i ∈ structuralIds entity →
        i ∈ n_id <$> nodes (buildGraph w entity depth maxNodesPerLevel)).
Proof.
  intros Hcap received. subst received.
  assert (Hkept : limitedEntities maxNodesPerLevel entity =
                  take (Z.to_nat maxNodesPerLevel)
                    (filter (fun c => c_score c = 3) (map_values (connectedMapOf entity)) ++
                     filter (fun c => c_score c = 2) (map_values (connectedMapOf entity)))).
  { rewrite kept_formula. unfold slice0.
    by destruct (Z.ltb_spec maxNodesPerLevel 0); [lia|]. }
  split; [exact Hkept|]. intros Hdepth Hfit i Hi.
  rewrite buildGraph_ids, traverse_ids by exact Hdepth.
  destruct (decide (i = id entity)) as [->|Hne]; [left|]. right.
  destruct (extract_structural i entity Hi) as (c & Hc & Hid & _ & Hscore).
  apply list_elem_of_fmap. exists c. split; [done|].
  apply list_elem_of_filter. split; [congruence|].
  rewrite Hkept, take_app_ge by (rewrite structural_count; lia).
  apply elem_of_app. left. apply list_elem_of_filter. split; [exact Hscore|].
  unfold extractConnectedEntities in Hc. by apply elem_of_sort in Hc.
Qed.

(** X3: with a depth of at least 1 the graph is the center, then one node
    per kept candidate whose identifier is not the center's, in the order of
    the candidates, and one edge from the center per kept candidate; a
    candidate with the identifier of the center gives a loop and no node. *)
Theorem graph_shape `{JsRuntime} (w : World) (centerEntity : Entity)
    (depth maxNodesPerLevel : Z) :
  1 ≤ depth →
  let kept := limitedEntities maxNodesPerLevel centerEntity in
  n_id <$> nodes (buildGraph w centerEntity depth maxNodesPerLevel) =
    id centerEntity :: (c_id <$> filter (fun c => c_id c ≠ id centerEntity) kept) ∧
  edges (buildGraph w centerEntity depth maxNodesPerLevel) =
    edgeTo (id centerEntity) <$> kept.
Proof.
  intros Hdepth kept. split.
  - rewrite buildGraph_ids. by apply traverse_ids.
  - rewrite buildGraph_edges. by apply traverse_edges_eq.
Qed.

(** X4: with a depth of 0 or less nothing is expanded: the graph is the
    center alone, without edges, and a label is requested only for the
    center, when its identifier begins with "Q". *)
Theorem depth_zero_graph `{JsRuntime} (w : World) (centerEntity : Entity)
    (depth maxNodesPerLevel : Z) :
  depth ≤ 0 →
  n_id <$> nodes (buildGraph w centerEntity depth maxNodesPerLevel) = [id centerEntity] ∧
  edges (buildGraph w centerEntity depth maxNodesPerLevel) = [] ∧
  (buildGraph_io w centerEntity depth maxNodesPerLevel).2 =
    if startsWith "Q" (id centerEntity)
    then [{| rq_ids := [id centerEntity]; rq_languages := "fr" |}]
    else [].
Proof.
  intros Hdepth.
  assert (Htraverse : traverse centerEntity depth maxNodesPerLevel =
                      graph (initialState centerEntity)).
  { rewrite traverse_unfold. by destruct (Z.leb_spec depth 0); [|lia]. }
  split; [|split].
  - by rewrite buildGraph_ids, Htraverse.
  - by rewrite buildGraph_edges, Htraverse.
  - unfold buildGraph_io. rewrite Htraverse. unfold qidsToTranslate.
    cbn [initialState graph nodes createNode]. rewrite filter_cons, filter_nil.
    change (n_id (createNode centerEntity 0 true)) with (id centerEntity).
    destruct (startsWith "Q" (id centerEntity)) eqn:Hq.
    + rewrite decide_True by done.
      change (n_id <$> [createNode centerEntity 0 true]) with [id centerEntity].
      change (0 <? length [id centerEntity])%nat with true.
      rewrite fetchWikidataLabels_spec by done.
      by destruct (wbgetentities w [id centerEntity] "fr") as [?|[?|]].
    + rewrite decide_False by (intros Hf; exact Hf). reflexivity.
Qed.

(** Where a kept candidate comes from. *)
Lemma kept_origin `{JsRuntime} (maxNodesPerLevel : Z) (entity : Entity) (c : Connected) :
  c ∈ limitedEntities maxNodesPerLevel entity →
  (c_id c ∈ structuralIds entity ∧ ∃ relationType, c = structuralCandidate (c_id c) relationType) ∨
  ((c_id c ∉ structuralIds entity) ∧
   ∃ t, t ∈ take 10 (textualLinks entity) ∧ isLinkNoise t = false ∧ c = textualCandidate t 0).
Proof.
  intros Hc. apply kept_candidates in Hc as [Hc Hscore].
  apply extract_get, connectedMapOf_origin in Hc
    as [(Hs & rel & Hrel)|(Hns & t & n & Hn & Hclean & _ & Hcand & _)]; [left; eauto|].
  right. split; [exact Hns|]. exists t. rewrite Hcand in Hscore |- *.
  cbn [c_score textualCandidate] in Hscore. unfold textualCandidate.
  destruct (Nat.ltb_spec n 10) as [Hlt|Hge]; [|lia].
  split; [|done]. apply list_elem_of_lookup. exists n. by rewrite lookup_take_lt.
Qed.

(** X5: every edge leaves the center and has value 3 or 2: either a
    structural relation, or a link that is not noise and stands among the
    first 10 of the article; a link met only after the tenth position (score
    1) never gives an edge. *)
Theorem edges_never_associative `{JsRuntime} (w : World) (centerEntity : Entity)
    (depth maxNodesPerLevel : Z) (e : Edge) :
  e ∈ edges (buildGraph w centerEntity depth maxNodesPerLevel) →
  e_source e = id centerEntity ∧
  ((e_value e = 3 ∧ e_origin e = "wikidata" ∧ e_target e ∈ structuralIds centerEntity) ∨
   (e_value e = 2 ∧ e_origin e = "wikipedia" ∧ e_type e = "related" ∧
    ∃ t, t ∈ take 10 (textualLinks centerEntity) ∧ isLinkNoise t = false ∧
         e_target e = "wiki:" +:+ t)).
Proof.
  rewrite buildGraph_edges. intros He. apply traverse_edges in He as (c & Hc & ->).
  split; [reflexivity|].
  apply kept_origin in Hc as [(Hs & rel & Hrel)|(_ & t & Ht & Hclean & Hcand)].
  - left. rewrite Hrel at 1 2. done.
  - right. rewrite Hcand. cbn. eauto 10.
Qed.

(** X6: when the identifier of the center begins with "Q" and the label
    request answers, the label of the center node is the French label of the
    response, or the bare identifier when the response has none: the name of
    the entity is not kept. *)
Theorem center_label_replaced `{JsRuntime} (w : World) (centerEntity : Entity)
    (depth maxNodesPerLevel : Z) (entities : gmap string (gmap string string)) :
  startsWith "Q" (id centerEntity) = true →
  wbgetentities w (qidsToTranslate (traverse centerEntity depth maxNodesPerLevel)) "fr"
    = inr (Some entities) →
  nodes (buildGraph w centerEntity depth maxNodesPerLevel) !! 0%nat =
  Some (withLabel (resolvedLabel entities (id centerEntity)) (createNode centerEntity 0 true)).
Proof.
  intros Hq Hresponse. rewrite buildGraph_relabelled.
  destruct (traverse_nodes centerEntity depth maxNodesPerLevel) as (extra & Hnodes & _).
  assert (Hin : id centerEntity ∈ qidsToTranslate (traverse centerEntity depth maxNodesPerLevel)).
  { apply elem_of_qidsToTranslate. split; [by apply startsWith_spec|].
    exists (createNode centerEntity 0 true). rewrite Hnodes. split; [left | reflexivity]. }
  rewrite fetchWikidataLabels_spec by (intros Hnil; rewrite Hnil in Hin; inversion Hin).
  rewrite Hresponse, Hnodes, fmap_cons. cbn [fst lookup list_lookup]. f_equal.
  unfold relabel. rewrite labels_fold_lookup. cbn [createNode n_id].
  rewrite decide_True by exact Hin. cbn [truthy_opt default].
  by rewrite resolvedLabel_truthy.
Qed.

(** X7: when the label request is rejected the graph keeps the labels of
    the traversal: the name of the entity on the center, the bare identifier
    on a node of a structural relation, the title on a node of a link. *)
Theorem rejected_request_keeps_placeholders `{JsRuntime} (w : World) (centerEntity : Entity)
    (depth maxNodesPerLevel : Z) (err : exn) (n : Node) :
  wbgetentities w (qidsToTranslate (traverse centerEntity depth maxNodesPerLevel)) "fr"
    = inl err →
  n ∈ nodes (buildGraph w centerEntity depth maxNodesPerLevel) →
  (n_isCenter n = Some true ∧ n_id n = id centerEntity ∧ n_label n = name centerEntity) ∨
  (n_isCenter n = None ∧
   ((n_id n ∈ structuralIds centerEntity ∧ n_label n = n_id n) ∨
    (n_id n = "wiki:" +:+ n_label n ∧ n_label n ∈ take 10 (textualLinks centerEntity)))).
Proof.
  intros Hrejected. rewrite buildGraph_relabelled.
  assert (Hlabels : (fetchWikidataLabels w
            (qidsToTranslate (traverse centerEntity depth maxNodesPerLevel))).1 = ∅).
  { unfold fetchWikidataLabels. destruct (length _ =? 0)%nat; [reflexivity|].
    by rewrite Hrejected. }
  rewrite Hlabels. intros Hn. apply list_elem_of_fmap in Hn as (n0 & -> & Hn0).
  rewrite relabel_empty.
  destruct (traverse_nodes centerEntity depth maxNodesPerLevel) as (extra & Hnodes & _ & Hall).
  rewrite Hnodes in Hn0. apply elem_of_cons in Hn0 as [->|Hn0]; [by left|]. right.
  eapply Forall_forall in Hall as (_ & Hctr & c & Hc & Hid & Hlabel & _); [|exact Hn0].
  split; [exact Hctr|]. rewrite Hid, Hlabel.
  apply kept_origin in Hc as [(Hs & rel & Hrel)|(_ & t & Ht & _ & Hcand)].
  - left. split; [exact Hs|]. by rewrite Hrel.
  - right. rewrite Hcand. done.
Qed.

(** ** Further properties of the batched resolution *)

Lemma length_omap_le {A B} (f : A → option B) (l : list A) :
  (length (omap f l) ≤ length l)%nat.
Proof.
  induction l as [|a l IH]; [done|]. cbn [omap list_omap]. destruct (f a); simpl; lia.
Qed.

Section BatchFacts.
Context `{JsRuntime}.
Variable g : Globals.
Variable w : World.

Lemma fulfilledOf_app (l l' : list string) :
  fulfilledOf g w (l ++ l') = fulfilledOf g w l ++ fulfilledOf g w l'.
Proof. unfold fulfilledOf. apply omap_app. Qed.

(** A batch and what lies after it make up what lay after the position. *)
Lemma slice_batch (entityIds : list string) (maxConcurrent i : Z) :
  1 ≤ maxConcurrent → 0 ≤ i → i < Z.of_nat (length entityIds) →
  slice i (i + maxConcurrent) entityIds ++ drop (Z.to_nat (i + maxConcurrent)) entityIds =
  drop (Z.to_nat i) entityIds.
Proof.
  intros Hm Hi Hlt. unfold slice.
  destruct (Z.ltb_spec i 0) as [|_]; [lia|].
  destruct (Z.ltb_spec (i + maxConcurrent) 0) as [|_]; [lia|].
  rewrite (Z.min_l i) by lia.
  destruct (Z.le_ge_cases (i + maxConcurrent) (Z.of_nat (length entityIds))) as [Hin|Hout].
  - rewrite Z.min_l by lia.
    replace (Z.to_nat (i + maxConcurrent)) with (Z.to_nat i + Z.to_nat maxConcurrent)%nat by lia.
    replace (Z.to_nat (i + maxConcurrent - i)) with (Z.to_nat maxConcurrent) by lia.
    rewrite <- drop_drop. apply take_drop.
  - rewrite Z.min_r by lia.
    rewrite (drop_ge entityIds (Z.to_nat (i + maxConcurrent))) by lia.
    rewrite app_nil_r. apply take_ge. rewrite length_drop. lia.
Qed.

Lemma resolveConnectedEntities_from_spec (entityIds : list string) (maxConcurrent : Z)
    (fuel : nat) (i : Z) (results : list Resolution) :
  1 ≤ maxConcurrent → 0 ≤ i →
  (length entityIds - Z.to_nat i < fuel)%nat →
  resolveConnectedEntities_from g w entityIds maxConcurrent fuel i results =
  Some (results ++ fulfilledOf g w (drop (Z.to_nat i) entityIds)).
Proof.
  intros Hm. revert i results. induction fuel as [|fuel IH]; intros i results Hi Hfuel; [lia|].
  cbn [resolveConnectedEntities_from].
  destruct (Z.ltb_spec i (Z.of_nat (length entityIds))) as [Hlt|Hge].
  - rewrite IH by lia. rewrite <- app_assoc, <- fulfilledOf_app.
    by rewrite slice_batch.
  - rewrite drop_ge by lia. by rewrite app_nil_r.
Qed.

Lemma resolveConnectedEntities_from_stuck (entityIds : list string) (maxConcurrent : Z)
    (fuel : nat) (i : Z) (results : list Resolution) :
  maxConcurrent ≤ 0 → i ≤ 0 → entityIds ≠ [] →
  resolveConnectedEntities_from g w entityIds maxConcurrent fuel i results = None.
Proof.
  intros Hm Hi Hne. revert i results Hi.
  induction fuel as [|fuel IH]; intros i results Hi; [reflexivity|].
  cbn [resolveConnectedEntities_from].
  destruct (Z.ltb_spec i (Z.of_nat (length entityIds))) as [Hlt|Hge].
  - apply IH. lia.
  - destruct entityIds; [done|]. cbn [length] in Hge. lia.
Qed.

End BatchFacts.

(** X8: with a batch size of at least 1 the loop ends, within one turn per
    identifier and one more, and returns the outcomes of the identifiers that
    resolved, in the order of the identifiers: a failed resolution leaves no
    trace, and the batch size has no influence on the result. *)
Theorem resolveConnectedEntities_batches `{JsRuntime} (g : Globals) (w : World)
    (entityIds : list string) (maxConcurrent : Z) (fuel : nat) :
  1 ≤ maxConcurrent →
  (length entityIds < fuel)%nat →
  resolveConnectedEntities g w entityIds maxConcurrent fuel = Some (fulfilledOf g w entityIds) ∧
  (length (fulfilledOf g w entityIds) ≤ length entityIds)%nat ∧
  ∀ value, value ∈ fulfilledOf g w entityIds ↔
           ∃ entityId, entityId ∈ entityIds ∧ resolveEntity g w entityId = inr value.
Proof.
  intros Hm Hfuel. split; [|split].
  - unfold resolveConnectedEntities.
    rewrite resolveConnectedEntities_from_spec by (simpl; lia). reflexivity.
  - unfold fulfilledOf. apply length_omap_le.
  - intros value. unfold fulfilledOf. rewrite list_elem_of_omap.
    split; intros (entityId & Hin & Hres); exists entityId; (split; [exact Hin|]).
    + by destruct (resolveEntity g w entityId) as [?|?]; simplify_eq.
    + by rewrite Hres.
Qed.

(** X9: with a batch size of 0 or less and at least one identifier the
    loop never ends: the position never passes the length of the list. *)
Theorem resolveConnectedEntities_never_ends `{JsRuntime} (g : Globals) (w : World)
    (entityIds : list string) (maxConcurrent : Z) (fuel : nat) :
  maxConcurrent ≤ 0 → entityIds ≠ [] →
  resolveConnectedEntities g w entityIds maxConcurrent fuel = None.
Proof.
  intros Hm Hne. unfold resolveConnectedEntities.
  by apply resolveConnectedEntities_from_stuck.
Qed.

(** ** Further properties of the breadcrumb *)

Lemma findIndex_spec {A} (f : A → bool) (l : list A) :
  (findIndex f l = -1 ∧ Forall (fun x => f x = false) l) ∨
  (∃ (n : nat) (x : A), findIndex f l = Z.of_nat n ∧ l !! n = Some x ∧ f x = true ∧
                        Forall (fun y => f y = false) (take n l)).
Proof.
  induction l as [|a l IH]; [left; by split|]. cbn [findIndex].
  destruct (f a) eqn:Ha.
  - right. exists 0%nat, a. repeat split; [done | by constructor].
  - destruct IH as [[-> Hall]|(n & x & -> & Hx & Hfx & Hall)].
    + left. split; [reflexivity | by constructor].
    + right. exists (S n), x. destruct (Z.eqb_spec (Z.of_nat n) (-1)) as [|_]; [lia|].
      split; [lia|]. split; [exact Hx|]. split; [exact Hfx|]. by constructor.
Qed.

Section HistoryFacts.
Context {K N : Type} `{EqDecision K}.
Implicit Types (history : list (App.HistoryItem K N)).

(** [updateHistory] by cases on the first item with the identifier. *)
Lemma updateHistory_cases (id : K) (name : N) history :
  ((id ∉ (App.h_id <$> history)) ∧
   App.updateHistory id name history = history ++ [App.Build_HistoryItem id name]) ∨
  (∃ (n : nat) item, history !! n = Some item ∧ App.h_id item = id ∧
                     (id ∉ (App.h_id <$> take n history)) ∧
                     App.updateHistory id name history = take (S n) history).
Proof.
  unfold App.updateHistory.
  destruct (findIndex_spec (fun item => bool_decide (App.h_id item = id)) history)
    as [[-> Hall]|(n & item & -> & Hitem & Hid & Hall)].
  - left. split; [|reflexivity]. intros Hin.
    apply list_elem_of_fmap in Hin as (item & -> & Hin).
    eapply Forall_forall in Hall; [|exact Hin]. cbn beta in Hall.
    by rewrite bool_decide_eq_false in Hall.
  - right. exists n, item. apply bool_decide_eq_true in Hid.
    split; [exact Hitem|]. split; [exact Hid|]. split.
    + intros Hin. apply list_elem_of_fmap in Hin as (item' & Heq & Hin).
      eapply Forall_forall in Hall; [|exact Hin]. cbn beta in Hall.
      rewrite bool_decide_eq_false in Hall. by rewrite Heq in Hall.
    + destruct (Z.eqb_spec (Z.of_nat n) (-1)) as [|_]; [lia|]. cbn [negb].
      unfold slice0. destruct (Z.ltb_spec (Z.of_nat n + 1) 0) as [|_]; [lia|].
      f_equal. lia.
Qed.

Lemma updateHistory_last (id : K) (name : N) history :
  last (App.h_id <$> App.updateHistory id name history) = Some id.
Proof.
  destruct (updateHistory_cases id name history)
    as [[_ ->]|(n & item & Hitem & Hid & _ & ->)].
  - rewrite fmap_app. exact (last_snoc _ _).
  - rewrite (take_S_r _ _ _ Hitem), fmap_app, <- Hid. exact (last_snoc _ _).
Qed.

End HistoryFacts.

(** X10: the breadcrumb always ends at the entity just shown and never
    holds an identifier twice once it holds none twice; recording the same
    entity again, under whatever name, changes nothing. *)
Theorem updateHistory_breadcrumb {K N : Type} `{EqDecision K} (id : K) (name name' : N)
    (history : list (App.HistoryItem K N)) :
  last (App.h_id <$> App.updateHistory id name history) = Some id ∧
  (NoDup (App.h_id <$> history) → NoDup (App.h_id <$> App.updateHistory id name history)) ∧
  App.updateHistory id name' (App.updateHistory id name history) =
    App.updateHistory id name history.
Proof.
  split; [apply updateHistory_last|]. split.
  - intros Hnd.
    destruct (updateHistory_cases id name history)
      as [[Hnew ->]|(n & item & _ & _ & _ & ->)].
    + rewrite fmap_app. apply NoDup_app. split; [exact Hnd|].
      split; [|apply NoDup_singleton].
      intros i Hi Hi'. apply list_elem_of_singleton in Hi' as ->. contradiction.
    + apply (sublist_NoDup _ (App.h_id <$> history)); [exact Hnd|].
      apply fmap_sublist, sublist_take.
  - destruct (updateHistory_cases id name history)
      as [[Hnew Heq]|(n & item & Hitem & Hid & Hbefore & Heq)]; rewrite Heq.
    + destruct (updateHistory_cases id name' (history ++ [App.Build_HistoryItem id name]))
        as [[Habsent _]|(m & item' & Hitem' & Hid' & Hbefore' & ->)].
      * exfalso. apply Habsent. rewrite fmap_app. apply elem_of_app. right. left.
      * destruct (Nat.lt_ge_cases m (length history)) as [Hlt|Hge].
        -- exfalso. apply Hnew. rewrite lookup_app_l in Hitem' by exact Hlt.
           apply list_elem_of_fmap. exists item'. split; [done|].
           by eapply list_elem_of_lookup_2.
        -- apply take_ge. apply lookup_lt_Some in Hitem'.
           rewrite length_app in Hitem' |- *. simpl in *. lia.
    + destruct (updateHistory_cases id name' (take (S n) history))
        as [[Habsent _]|(m & item' & Hitem' & Hid' & Hbefore' & ->)].
      * exfalso. apply Habsent. apply list_elem_of_fmap. exists item. split; [done|].
        apply list_elem_of_lookup. exists n. rewrite lookup_take_lt by lia. exact Hitem.
      * destruct (Nat.lt_ge_cases m n) as [Hlt|Hge].
        -- exfalso. apply Hbefore. apply list_elem_of_fmap. exists item'. split; [done|].
           apply list_elem_of_lookup. exists m. rewrite lookup_take_lt by exact Hlt.
           apply lookup_take_Some in Hitem'. tauto.
        -- apply take_ge. rewrite length_take. lia.
Qed.

(** X11: recording an entity that stands in a breadcrumb without repeated
    identifiers cuts the breadcrumb right after that entity: the items behind
    it are dropped, the name on record is kept. *)
Theorem updateHistory_goes_back {K N : Type} `{EqDecision K} (name : N)
    (history : list (App.HistoryItem K N)) (k : nat) (item : App.HistoryItem K N) :
  NoDup (App.h_id <$> history) →
  history !! k = Some item →
  App.updateHistory (App.h_id item) name history = take (S k) history.
Proof.
  intros Hnd Hitem.
  destruct (updateHistory_cases (App.h_id item) name history)
    as [[Hnew _]|(n & item' & Hitem' & Hid & _ & ->)].
  - exfalso. apply Hnew. apply list_elem_of_fmap. exists item. split; [done|].
    by eapply list_elem_of_lookup_2.
  - f_equal. f_equal. eapply NoDup_lookup; [exact Hnd| |].
    + rewrite list_lookup_fmap, Hitem'. cbn. by rewrite Hid.
    + by rewrite list_lookup_fmap, Hitem.
Qed.

(** ** Further properties of the page *)

Section PageFacts.
Context `{JsRuntime}.
Variable g : Globals.
Variable w : World.

Lemma collectCandidates_inv (titles : list string) (cs cs' : list Candidate) :
  collectCandidates g w titles cs = inr cs' →
  ∃ results, Forall2 (fun t r => getWikidataIdFromWikipedia g w t = inr r) titles results ∧
             cs' = foldl addCandidate cs results.
Proof.
  revert cs. induction titles as [|t titles IH]; intros cs; cbn [collectCandidates].
  - intros [= <-]. exists []. by split.
  - destruct (getWikidataIdFromWikipedia g w t) as [e|r] eqn:Ht; cbn [bind]; [discriminate|].
    intros Hrest. apply IH in Hrest as (results & Hall & ->).
    exists (r :: results). split; [by constructor | reflexivity].
Qed.

(** What [resolveEntity] can return. *)
Lemma resolveEntity_answers (searchTerm : string) (r : Resolution) :
  resolveEntity g w searchTerm = inr r →
  (∃ entity, r = Resolved entity) ∨
  (∃ cs, r = Disambiguation true cs ∧ (2 ≤ length cs)%nat ∧ NoDup (wikidataId <$> cs)).
Proof.
  unfold resolveEntity.
  destruct (searchWikipedia g w searchTerm) as [e|titles]; cbn [bind]; [discriminate|].
  destruct (length titles =? 0)%nat; [discriminate|].
  destruct (collectCandidates g w titles []) as [e|cs] eqn:Hcs; cbn [bind]; [discriminate|].
  apply collectCandidates_inv in Hcs as (results & _ & Hcs).
  destruct (distinct_candidates results) as (Hnd & _). cbn zeta in Hnd. rewrite <- Hcs in Hnd.
  destruct cs as [|c [|c' cs]]; [discriminate| |].
  - destruct (resolveEntityFromCandidate g w (title c) (wikidataId c)); cbn [bind ret];
      [discriminate|]. intros [= <-]. left. by eexists.
  - intros [= <-]. right. eexists. split; [reflexivity|]. split; [simpl; lia | exact Hnd].
Qed.

Lemma resolveEntityFromCandidate_id (title wikidataId : string) (entity : Entity) :
  resolveEntityFromCandidate g w title wikidataId = inr entity →
  ∃ record, wikidata_entity w wikidataId = inr (Some record) ∧
            same_core (baseEntity g title wikidataId record) entity.
Proof.
  intros Hres.
  destruct (wikidata_entity w wikidataId) as [e|[record|]] eqn:Hfetch.
  - unfold resolveEntityFromCandidate, resolveEntityFromCandidate_log, fetchWikidataEntity in Hres.
    by rewrite Hfetch in Hres.
  - exists record. split; [reflexivity|].
    destruct (resolveEntityFromCandidate_fetched g w title wikidataId record Hfetch)
      as (_ & Hres' & Hcore & _).
    rewrite Hres in Hres'. by injection Hres' as ->.
  - unfold resolveEntityFromCandidate, resolveEntityFromCandidate_log, fetchWikidataEntity in Hres.
    by rewrite Hfetch in Hres.
Qed.

End PageFacts.

(** X12: a search with a blank query does nothing.  Any other search, once
    settled, leaves the page in exactly one of three states: an entity with
    its graph, the breadcrumb ending at it; a list of at least two candidates
    with distinct identifiers and neither entity nor graph; or the message of
    the error and neither entity nor graph.  The query is handed to the
    resolver as typed, not trimmed. *)
Theorem handleSearch_outcome `{JsRuntime} (trim : string → string) (g : Globals) (w : World)
    (st : App.State) :
  let st' := App.handleSearch trim g w st in
  (truthy (trim (App.searchQuery st)) = false → st' = st) ∧
  (truthy (trim (App.searchQuery st)) = true →
   App.loading st' = false ∧
   ((∃ entity, resolveEntity g w (App.searchQuery st) = inr (Resolved entity) ∧
               App.entity st' = Some entity ∧
               App.graph st' = Some (buildGraph w entity 1 20) ∧
               App.candidates st' = None ∧ App.error st' = None ∧
               last (App.h_id <$> App.history st') = Some (id entity)) ∨
    (∃ found, resolveEntity g w (App.searchQuery st) = inr (Disambiguation true found) ∧
              App.entity st' = None ∧ App.graph st' = None ∧
              App.candidates st' = Some found ∧ App.error st' = None ∧
              (2 ≤ length found)%nat ∧ NoDup (wikidataId <$> found) ∧
              App.history st' = App.history st) ∨
    (∃ err, resolveEntity g w (App.searchQuery st) = inl err ∧
            App.entity st' = None ∧ App.graph st' = None ∧
            App.candidates st' = None ∧ App.error st' = Some (App.message err) ∧
            App.history st' = App.history st))).
Proof.
  intros st'. subst st'. unfold App.handleSearch. split; intros Hblank; rewrite Hblank.
  - reflexivity.
  - cbn [negb].
    destruct (resolveEntity g w (App.searchQuery st)) as [err|r] eqn:Hres.
    + split; [reflexivity|]. right. right. exists err. by repeat split.
    + destruct (resolveEntity_answers g w _ r Hres) as [[entity ->]|(found & -> & Hlen & Hnd)].
      * split; [reflexivity|]. left. exists entity. repeat split.
        cbn [App.history]. apply updateHistory_last.
      * split; [reflexivity|]. right. left. exists found. by repeat split.
Qed.

(** X13: going back to an item of the breadcrumb does nothing while a
    request is under way.  Otherwise it resolves the identifier of the item,
    as the choice of a candidate does.  When the record is fetched, the page
    shows the entity of that identifier with its graph, and a breadcrumb
    without repeated identifiers is cut right after the item.  When it is
    not, the page keeps the entity, the graph and the breadcrumb it had and
    shows the message of the error. *)
Theorem navigateBack_outcome `{JsRuntime} (g : Globals) (w : World) (st : App.State)
    (k : nat) (item : App.HistoryItem string string) :
  NoDup (App.h_id <$> App.history st) →
  App.history st !! k = Some item →
  let st' := App.navigateBack g w item st in
  (App.loading st = true → st' = st) ∧
  (App.loading st = false →
   st' = App.selectCandidate g w {| title := App.h_name item; wikidataId := App.h_id item |} st ∧
   App.loading st' = false ∧ App.candidates st' = None ∧
   (∀ record, wikidata_entity w (App.h_id item) = inr (Some record) →
      ∃ entity, App.entity st' = Some entity ∧ id entity = App.h_id item ∧
                App.graph st' = Some (buildGraph w entity 1 20) ∧
                App.error st' = None ∧
                App.history st' = take (S k) (App.history st)) ∧
   ((∀ record, wikidata_entity w (App.h_id item) ≠ inr (Some record)) →
      App.entity st' = App.entity st ∧ App.graph st' = App.graph st ∧
      is_Some (App.error st') ∧ App.history st' = App.history st)).
Proof.
  intros Hnd Hitem st'. subst st'. unfold App.navigateBack, App.selectCandidate.
  split; intros Hloading; rewrite Hloading; [reflexivity|].
  cbn [title wikidataId]. split; [reflexivity|].
  destruct (resolveEntityFromCandidate g w (App.h_name item) (App.h_id item))
    as [err|entity] eqn:Hres.
  - split; [reflexivity|]. split; [reflexivity|]. split.
    + intros record Hrecord.
      destruct (resolveEntityFromCandidate_fetched g w (App.h_name item) (App.h_id item)
                  record Hrecord) as (_ & Hres' & _).
      rewrite Hres in Hres'. discriminate.
    + intros _. by repeat split.
  - split; [reflexivity|]. split; [reflexivity|].
    apply resolveEntityFromCandidate_id in Hres as (record & Hrecord & Hid & _).
    cbn [baseEntity id] in Hid. split.
    + intros _ _. exists entity. split; [reflexivity|]. split; [done|].
      split; [reflexivity|]. split; [reflexivity|]. cbn [App.history].
      rewrite <- Hid. by apply updateHistory_goes_back.
    + intros Hnone. by destruct (Hnone record).
Qed.

(** ** Further properties of the resolver *)

Section KeyFacts.
Context `{JsRuntime}.
Variable g : Globals.
Variable w : World.

Lemma enrichFromWikipedia_links e title wp links :
  wikipedia (sources e) = None →
  wikipedia (sources (enrichFromWikipedia g w e title).1) = Some wp →
  wp_links wp = Some links →
  ∃ all, parse_links w (CURRENT_LANG g) title = inr (Some all) ∧ links = take 50 all.
Proof.
  intros Hfresh. unfold enrichFromWikipedia.
  destruct (page_summary w (CURRENT_LANG g) title) as [?|summary]; cbn [fst]; [congruence|].
  destruct (parse_links w (CURRENT_LANG g) title) as [?|[all|]];
    cbn [fst with_sources sources set_wikipedia wikipedia];
    intros [= <-]; cbn [wp_links]; intros [= <-]. by exists all.
Qed.

Lemma enrichFromWikipediaExternalLinks_buckets e title buckets :
  external_links (sources e) = None →
  external_links (sources (enrichFromWikipediaExternalLinks g w e title).1) = Some buckets →
  Forall (fun kv => kv.2 ≠ []) buckets ∧
  buckets.*1 `sublist_of` ["music"; "video"; "social"; "official"; "other"].
Proof.
  intros Hfresh. unfold enrichFromWikipediaExternalLinks.
  destruct (parse_externallinks w (CURRENT_LANG g) title) as [?|[links|]]; cbn [fst];
    [congruence | | congruence].
  cbn [with_sources sources set_external_links external_links]. intros [= <-]. split.
  - apply Forall_forall. intros kv Hkv. apply list_elem_of_filter in Hkv as [Hpos _].
    destruct (kv.2); [simpl in Hpos; lia | done].
  - match goal with
    | |- (filter ?P ?l).*1 `sublist_of` _ =>
        change ["music"; "video"; "social"; "official"; "other"] with (l.*1);
        apply fmap_sublist, sublist_filter
    end.
Qed.

Lemma enrichFromMusicBrainz_key e mb :
  musicbrainz (sources e) = None →
  musicbrainz (sources (enrichFromMusicBrainz w e).1) = Some mb →
  (∃ v, identifiers e !! "musicbrainz" = Some v ∧ value_truthy v = true) ∧
  (∀ l, mb_recordings mb = Some l → (length l ≤ 20)%nat) ∧
  (∀ l, mb_releases mb = Some l → (length l ≤ 20)%nat).
Proof.
  intros Hfresh. unfold enrichFromMusicBrainz.
  destruct (identifiers e !! "musicbrainz") as [v|]; cbn [fst]; [|congruence].
  destruct (value_truthy v) eqn:Hv; cbn [negb fst]; [|congruence].
  destruct (musicbrainz_artist w (value_to_string v)) as [?|data]; cbn [fst]; [congruence|].
  cbn [with_sources sources set_musicbrainz musicbrainz]. intros [= <-].
  split; [by exists v|]. cbn [mb_recordings mb_releases].
  split; intros l Hl; apply fmap_Some in Hl as (all & _ & ->); rewrite length_take; lia.
Qed.

Lemma enrichFromTMDB_key e :
  tmdb (sources (enrichFromTMDB g w e).1) = tmdb (sources e).
Proof. unfold enrichFromTMDB, TMDB_API_KEY. by destruct (identifiers e !! "tmdb"). Qed.

Lemma enrichFromOpenLibrary_key e ol :
  openlibrary (sources e) = None →
  openlibrary (sources (enrichFromOpenLibrary w e).1) = Some ol →
  ∃ olId, identifiers e !! "openlibrary" = Some (VString olId) ∧
          startsWith "OL" olId = true ∧
          (includes "A" olId = true ∨ includes "W" olId = true).
Proof.
  intros Hfresh. unfold enrichFromOpenLibrary.
  destruct (identifiers e !! "openlibrary") as [v|]; cbn [fst]; [|congruence].
  destruct (value_truthy v); cbn [negb fst]; [|congruence].
  destruct v as [olId| | |]; cbn [fst]; try congruence.
  destruct (startsWith "OL" olId) eqn:Hol; cbn [andb fst]; [|congruence].
  destruct (includes "A" olId) eqn:Ha; [intros _; exists olId; by auto|].
  destruct (includes "W" olId) eqn:Hw; [intros _; exists olId; by auto|].
  cbn [fst]. congruence.
Qed.

Lemma enrichFromWikimediaCommons_bound e images :
  wikimedia_commons (sources e) = None →
  wikimedia_commons (sources (enrichFromWikimediaCommons w e).1) = Some images →
  (length images ≤ 5)%nat.
Proof.
  intros Hfresh. unfold enrichFromWikimediaCommons.
  destruct (commons_search w (name e)) as [?|[pages|]]; cbn [fst]; [congruence | | congruence].
  destruct (mapRes commonsImage _) as [?|all]; cbn [fst]; [congruence|].
  cbn [with_sources sources set_wikimedia_commons wikimedia_commons]. intros [= <-].
  rewrite length_take. lia.
Qed.

Lemma enrichFromOpenStreetMap_key e osm :
  openstreetmap (sources e) = None →
  openstreetmap (sources (enrichFromOpenStreetMap w e).1) = Some osm →
  ∃ v, identifiers e !! "coordinates" = Some v ∧
       osm_latitude osm = value_latitude v ∧ osm_longitude osm = value_longitude v.
Proof.
  intros Hfresh. unfold enrichFromOpenStreetMap.
  destruct (identifiers e !! "coordinates") as [v|]; cbn [fst]; [|congruence].
  destruct (value_truthy v); cbn [negb fst]; [|congruence].
  destruct (nominatim_reverse w _ _) as [?|data]; cbn [fst]; [congruence|].
  cbn [with_sources sources set_openstreetmap openstreetmap]. intros [= <-]. by exists v.
Qed.

Lemma enrichFromArxiv_key e papers :
  arxiv (sources e) = None →
  arxiv (sources (enrichFromArxiv w e).1) = Some papers →
  type e = "concept" ∧ (1 ≤ length papers ≤ 3)%nat.
Proof.
  intros Hfresh. unfold enrichFromArxiv.
  destruct (String.eqb_spec (type e) "concept") as [Htype|?]; cbn [negb fst]; [|congruence].
  destruct (arxiv_query w (name e)) as [?|xmlText]; cbn [fst]; [congruence|].
  destruct (match_all_between "<entry>" "</entry>" 0 xmlText) as [|entry entries];
    cbn [fst]; [congruence|].
  cbn [with_sources sources set_arxiv arxiv]. intros Heq.
  replace papers with (paperOfEntry <$> take 3 (entry :: entries)) by congruence.
  split; [exact Htype|].
  rewrite length_fmap, length_take. cbn [length]. lia.
Qed.

Lemma enrichFromArchiveOrg_key e ar :
  archive_org (sources e) = None →
  archive_org (sources (enrichFromArchiveOrg w e).1) = Some ar →
  type e ≠ "concept" ∧
  (length (ar_videos ar) ≤ 3)%nat ∧ (length (ar_audio ar) ≤ 5)%nat ∧
  (length (ar_texts ar) ≤ 5)%nat.
Proof.
  intros Hfresh. unfold enrichFromArchiveOrg.
  assert (Hbounds : ∀ query,
            archive_org (sources
              (match archive_search w query with
               | inl _ => (e, ["Archive.org enrichment failed:"])
               | inr data =>
                   match arr_docs data with
                   | None | Some [] => (e, [])
                   | Some items =>
                       (with_sources
                          (set_archive_org
                             {| ar_videos := enrichItem <$>
                                  take 3 (filter (fun item =>
                                            bool_decide (ad_mediatype item = "movies"
                                                         ∨ ad_mediatype item = "video")) items);
                                ar_audio := enrichItem <$>
                                  take 5 (filter (fun item =>
                                            bool_decide (ad_mediatype item = "audio"
                                                         ∨ ad_mediatype item = "etree")) items);
                                ar_texts := enrichItem <$>
                                  take 5 (filter (fun item =>
                                            bool_decide (ad_mediatype item = "texts")) items);
                                ar_total_results := arr_numFound data |})
                          e, [])
                   end
               end).1) = Some ar →
            (length (ar_videos ar) ≤ 3)%nat ∧ (length (ar_audio ar) ≤ 5)%nat ∧
            (length (ar_texts ar) ≤ 5)%nat).
  { intros query. destruct (archive_search w query) as [?|data]; cbn [fst]; [congruence|].
    destruct (arr_docs data) as [[|item items]|]; cbn [fst]; [congruence | | congruence].
    cbn [with_sources sources set_archive_org archive_org]. intros [= <-].
    cbn [ar_videos ar_audio ar_texts]. rewrite !length_fmap, !length_take. lia. }
  destruct (String.eqb_spec (type e) "person") as [Hperson|?].
  - intros Har. split; [rewrite Hperson; discriminate|]. by eapply Hbounds.
  - destruct (String.eqb_spec (type e) "concept") as [?|Hconcept]; cbn [fst]; [congruence|].
    intros Har. split; [exact Hconcept|]. by eapply Hbounds.
Qed.

End KeyFacts.

(** X14: which keys a resolved entity can carry.  The film database is
    never asked, as the program holds no key for it, so [sources.tmdb] is
    never present.  [sources.musicbrainz] needs a MusicBrainz identifier,
    [sources.openstreetmap] coordinates, [sources.openlibrary] an Open
    Library identifier that is a string beginning with "OL" and holding an
    "A" or a "W".  [sources.arxiv] comes only with type "concept" and
    [sources.archive_org] only with another type, so never both. *)
Theorem sources_need_identifier `{JsRuntime} (g : Globals) (w : World)
    (title wikidataId : string) (entity : Entity) :
  resolveEntityFromCandidate g w title wikidataId = inr entity →
  tmdb (sources entity) = None ∧
  (is_Some (musicbrainz (sources entity)) →
     ∃ v, identifiers entity !! "musicbrainz" = Some v ∧ value_truthy v = true) ∧
  (is_Some (openstreetmap (sources entity)) →
     is_Some (identifiers entity !! "coordinates")) ∧
  (is_Some (openlibrary (sources entity)) →
     ∃ olId, identifiers entity !! "openlibrary" = Some (VString olId) ∧
             startsWith "OL" olId = true ∧
             (includes "A" olId = true ∨ includes "W" olId = true)) ∧
  (is_Some (arxiv (sources entity)) → type entity = "concept") ∧
  (is_Some (archive_org (sources entity)) → type entity ≠ "concept").
Proof.
  intros Hres.
  destruct (resolveEntityFromCandidate_id g w _ _ _ Hres) as (record & Hrecord & _).
  destruct (resolveEntityFromCandidate_fetched g w title wikidataId record Hrecord)
    as (_ & Hres' & Hcore & _ & _ & _ & K3 & K4 & K5 & _ & K7 & K8 & K9 & _).
  rewrite Hres in Hres'. injection Hres' as Hentity.
  cbn zeta in Hcore, K3, K4, K5, K7, K8, K9.
  rewrite <- Hentity in Hcore, K3, K4, K5, K7, K8, K9. clear Hentity Hres.
  destruct Hcore as (_ & _ & _ & Htype & Hids).
  pose proof (baseEntity_unenriched g title wikidataId record)
    as (_ & _ & U3 & U4 & U5 & _ & U7 & U8 & U9).
  split; [|split; [|split; [|split; [|split]]]].
  - by rewrite K4, enrichFromTMDB_key.
  - intros [mb Hmb]. rewrite K3 in Hmb. rewrite <- Hids.
    by destruct (enrichFromMusicBrainz_key w _ mb U3 Hmb) as [? _].
  - intros [osm Hosm]. rewrite K7 in Hosm. rewrite <- Hids.
    destruct (enrichFromOpenStreetMap_key w _ osm U7 Hosm) as (v & -> & _). by eexists.
  - intros [ol Hol]. rewrite K5 in Hol. rewrite <- Hids.
    exact (enrichFromOpenLibrary_key w _ ol U5 Hol).
  - intros [papers Hpapers]. rewrite K8 in Hpapers. rewrite <- Htype.
    by destruct (enrichFromArxiv_key w _ papers U8 Hpapers) as [? _].
  - intros [ar Har]. rewrite K9 in Har. rewrite <- Htype.
    by destruct (enrichFromArchiveOrg_key w _ ar U9 Har) as [? _].
Qed.

(** X15: what a resolved entity carries is bounded: at most 50 links, the
    first 50 of the article; at most 20 recordings and 20 releases; at most 5
    images; between 1 and 3 papers; at most 3 videos, 5 recordings and 5
    texts of the archive; and only groups of external links that are not
    empty, in the order music, video, social, official, other. *)
Theorem sources_bounded `{JsRuntime} (g : Globals) (w : World)
    (title wikidataId : string) (entity : Entity) :
  resolveEntityFromCandidate g w title wikidataId = inr entity →
  (∀ wp links, wikipedia (sources entity) = Some wp → wp_links wp = Some links →
     (length links ≤ 50)%nat ∧
     ∃ all, parse_links w (CURRENT_LANG g) title = inr (Some all) ∧ links = take 50 all) ∧
  (∀ buckets, external_links (sources entity) = Some buckets →
     Forall (fun kv => kv.2 ≠ []) buckets ∧
     buckets.*1 `sublist_of` ["music"; "video"; "social"; "official"; "other"]) ∧
  (∀ mb, musicbrainz (sources entity) = Some mb →
     (∀ l, mb_recordings mb = Some l → (length l ≤ 20)%nat) ∧
     (∀ l, mb_releases mb = Some l → (length l ≤ 20)%nat)) ∧
  (∀ images, wikimedia_commons (sources entity) = Some images → (length images ≤ 5)%nat) ∧
  (∀ papers, arxiv (sources entity) = Some papers → (1 ≤ length papers ≤ 3)%nat) ∧
  (∀ ar, archive_org (sources entity) = Some ar →
     (length (ar_videos ar) ≤ 3)%nat ∧ (length (ar_audio ar) ≤ 5)%nat ∧
     (length (ar_texts ar) ≤ 5)%nat).
Proof.
  intros Hres.
  destruct (resolveEntityFromCandidate_id g w _ _ _ Hres) as (record & Hrecord & _).
  destruct (resolveEntityFromCandidate_fetched g w title wikidataId record Hrecord)
    as (_ & Hres' & _ & _ & K1 & K2 & K3 & _ & _ & K6 & _ & K8 & K9 & _).
  rewrite Hres in Hres'. injection Hres' as Hentity.
  cbn zeta in K1, K2, K3, K6, K8, K9.
  rewrite <- Hentity in K1, K2, K3, K6, K8, K9. clear Hentity Hres.
  pose proof (baseEntity_unenriched g title wikidataId record)
    as (U1 & U2 & U3 & _ & _ & U6 & _ & U8 & U9).
  split; [|split; [|split; [|split; [|split]]]].
  - intros wp links Hwp Hlinks. rewrite K1 in Hwp.
    destruct (enrichFromWikipedia_links g w _ _ wp links U1 Hwp Hlinks) as (all & Hall & ->).
    split; [rewrite length_take; lia | by exists all].
  - intros buckets Hb. rewrite K2 in Hb.
    exact (enrichFromWikipediaExternalLinks_buckets g w _ _ buckets U2 Hb).
  - intros mb Hmb. rewrite K3 in Hmb.
    by destruct (enrichFromMusicBrainz_key w _ mb U3 Hmb) as [_ ?].
  - intros images Him. rewrite K6 in Him.
    exact (enrichFromWikimediaCommons_bound w _ images U6 Him).
  - intros papers Hp. rewrite K8 in Hp.
    by destruct (enrichFromArxiv_key w _ papers U8 Hp) as [_ ?].
  - intros ar Har. rewrite K9 in Har.
    by destruct (enrichFromArchiveOrg_key w _ ar U9 Har) as [_ ?].
Qed.

(** *** External links *)

Lemma concat_filter_nonempty {K A} (entries : list (K * list A)) :
  concat (filter (fun kv => (0 < length kv.2)%nat) entries).*2 = concat entries.*2.
Proof.
  induction entries as [|[k l] entries IH]; [done|].
  destruct l as [|a l].
  - rewrite filter_cons_False by (simpl; lia). by rewrite IH.
  - rewrite filter_cons_True by (simpl; lia). rewrite !fmap_cons. cbn [concat]. by rewrite IH.
Qed.

Section LinkFacts.
Context `{JsRuntime}.

Lemma categorizeLink_filed (entity : Entity) (c : CategorizedLinks) (link : string) :
  lo_url <$> filed (categorizeLink entity c link) ≡ₚ
  (lo_url <$> filed c) ++ (if decide (is_Some (url_hostname link)) then [link] else []).
Proof.
  unfold categorizeLink. destruct (url_hostname link) as [hostname|].
  - rewrite decide_True by done.
    repeat match goal with
           | |- context [if ?b then _ else _] => destruct b
           end;
      unfold filed; cbn [cl_music cl_video cl_social cl_official cl_other];
      rewrite !fmap_app; cbn [fmap list_fmap lo_url]; rewrite <- !app_assoc;
      repeat apply Permutation_app_head;
      first [ reflexivity
            | etrans; [apply Permutation_app_comm|]; rewrite <- ?app_assoc; reflexivity ].
  - rewrite decide_False by (by intros [? ?]). by rewrite app_nil_r.
Qed.

Lemma foldl_categorizeLink_filed (entity : Entity) (links : list string)
    (c : CategorizedLinks) :
  lo_url <$> filed (foldl (categorizeLink entity) c links) ≡ₚ
  (lo_url <$> filed c) ++ filter (fun link => is_Some (url_hostname link)) links.
Proof.
  revert c. induction links as [|link links IH]; intros c; cbn [foldl].
  - by rewrite filter_nil, app_nil_r.
  - rewrite IH, categorizeLink_filed, <- app_assoc. apply Permutation_app_head.
    destruct (decide (is_Some (url_hostname link))) as [Hh|Hh].
    + by rewrite filter_cons_True.
    + by rewrite filter_cons_False.
Qed.

End LinkFacts.

(** X16: when the article lists external links, every link whose host
    name can be read is filed in exactly one group, and nothing else is
    filed: the groups together hold these links, each as often as the
    article lists it; a link that is no URL is dropped without an error. *)
Theorem external_links_partition `{JsRuntime} (g : Globals) (w : World) (entity : Entity)
    (title : string) (externalLinks : list string) :
  parse_externallinks w (CURRENT_LANG g) title = inr (Some externalLinks) →
  ∃ groups,
    external_links (sources (enrichFromWikipediaExternalLinks g w entity title).1)
      = Some groups ∧
    (enrichFromWikipediaExternalLinks g w entity title).2 = [] ∧
    lo_url <$> concat groups.*2 ≡ₚ
    filter (fun link => is_Some (url_hostname link)) externalLinks.
Proof.
  intros Hlinks. unfold enrichFromWikipediaExternalLinks. rewrite Hlinks.
  cbn [fst snd with_sources sources set_external_links external_links].
  eexists. split; [reflexivity|]. split; [reflexivity|].
  rewrite concat_filter_nonempty.
  etrans;
    [|exact (foldl_categorizeLink_filed entity externalLinks
               {| cl_music := []; cl_video := []; cl_social := [];
                  cl_official := []; cl_other := [] |})].
  unfold filed at 1. cbn [fmap list_fmap concat snd]. by rewrite app_nil_r.
Qed.

(** *** External identifiers *)

Lemma foldl_ext {A B} (f f' : A → B → A) (a : A) (l : list B) :
  (∀ a b, f a b = f' a b) → foldl f a l = foldl f' a l.
Proof.
  intros Hext. revert a. induction l as [|b l IH]; intros a; [done|].
  cbn [foldl]. by rewrite Hext, IH.
Qed.

(** A table of names filled from the left: with distinct names, a name
    holds what its own row gave. *)
Lemma foldl_insert_lookup {V} (given : string → option V) (table : list (string * string))
    (key : string) (v : V) :
  NoDup table.*2 →
  foldl (fun (acc : gmap string V) '(property, name) =>
           match given property with
           | Some x => <[name := x]> acc
           | None => acc
           end) ∅ table !! key = Some v ↔
  ∃ property, (property, key) ∈ table ∧ given property = Some v.
Proof.
  induction table as [|[p n] table IH] using rev_ind; intros Hnd.
  - cbn [foldl]. rewrite lookup_empty. split; [discriminate|].
    intros (p & Hin & _). by apply elem_of_nil in Hin.
  - rewrite fmap_app in Hnd. apply NoDup_app in Hnd as (Hnd & Hfresh & _).
    specialize (IH Hnd). rewrite foldl_snoc.
    assert (Hlift : ∀ q, key ≠ n ∨ given p = None →
              ((q, key) ∈ table ++ [(p, n)] ∧ given q = Some v) ↔
              ((q, key) ∈ table ∧ given q = Some v)).
    { intros q Hside. rewrite elem_of_app, list_elem_of_singleton.
      split; [|tauto]. intros [[Hin|[= -> ->]] Hq]; [done|].
      destruct Hside as [?|Hnone]; [done | congruence]. }
    destruct (given p) as [x|] eqn:Hp.
    + destruct (decide (key = n)) as [->|Hne].
      * rewrite lookup_insert_eq. split.
        -- intros [= ->]. exists p. split; [|exact Hp]. apply elem_of_app. right. left.
        -- intros (q & Hin & Hq). apply elem_of_app in Hin as [Hin|Hin].
           ++ exfalso. apply (Hfresh n); [|left].
              apply list_elem_of_fmap. by exists (q, n).
           ++ apply list_elem_of_singleton in Hin as [= ->]. congruence.
      * rewrite lookup_insert_ne by done. rewrite IH.
        split; intros (q & Hq); exists q; apply (Hlift q); auto.
    + rewrite IH. split; intros (q & Hq); exists q; apply (Hlift q); auto.
Qed.

(** X17: the identifiers of a record.  A name holds a value exactly when
    it is the name of one of the 13 properties of the table and the first
    claim of that property has a truthy value: this value, or its latitude
    and longitude for the coordinates.  Later claims of a property are never
    read, and no other name is ever present. *)
Theorem extractExternalIdentifiers_lookup (wikidataEntity : WikidataEntity)
    (key : string) (v : Value) :
  extractExternalIdentifiers wikidataEntity !! key = Some v ↔
  ∃ property first rest value,
    (property, key) ∈ propertyMap ∧
    default ∅ (claims wikidataEntity) !! property = Some (first :: rest) ∧
    mainsnak_value first = Some value ∧ value_truthy value = true ∧
    v = if String.eqb property "P625"
        then VCoordinate (value_latitude value) (value_longitude value)
        else value.
Proof.
  set (given := fun property : string =>
         match default ∅ (claims wikidataEntity) !! property with
         | Some (first :: _) =>
             match mainsnak_value first with
             | Some value =>
                 if value_truthy value
                 then Some (if String.eqb property "P625"
                            then VCoordinate (value_latitude value) (value_longitude value)
                            else value)
                 else None
             | None => None
             end
         | _ => None
         end).
  unfold extractExternalIdentifiers. cbn zeta.
  erewrite foldl_ext; [rewrite (foldl_insert_lookup given)|].
  - split.
    + intros (property & Hin & Hgiven). unfold given in Hgiven.
      destruct (default ∅ (claims wikidataEntity) !! property) as [[|first rest]|] eqn:Hclaims;
        try discriminate.
      destruct (mainsnak_value first) as [value|] eqn:Hvalue; [|discriminate].
      destruct (value_truthy value) eqn:Htruthy; [|discriminate].
      injection Hgiven as <-. by exists property, first, rest, value.
    + intros (property & first & rest & value & Hin & Hclaims & Hvalue & Htruthy & ->).
      exists property. split; [exact Hin|]. unfold given.
      by rewrite Hclaims, Hvalue, Htruthy.
  - apply (bool_decide_unpack _). by vm_compute.
  - intros acc [property name]. unfold given.
    destruct (default ∅ (claims wikidataEntity) !! property) as [[|first rest]|]; try done.
    destruct (mainsnak_value first) as [value|]; [|done].
    destruct (value_truthy value); [|done].
    by destruct (String.eqb property "P625").
Qed.

(** *** Candidates *)

Lemma addCandidate_cases (cs : list Candidate) (result : option WikidataRef) :
  (foundId result = None ∧ addCandidate cs result = cs) ∨
  (∃ i ref, result = Some ref ∧ foundId result = Some i ∧
            ((i ∈ wikidataId <$> cs ∧ addCandidate cs result = cs) ∨
             ((i ∉ (wikidataId <$> cs)) ∧
              addCandidate cs result = cs ++ [{| title := realTitle ref; wikidataId := i |}]))).
Proof.
  unfold addCandidate, foundId. destruct result as [[[i|] realTitle]|];
    cbn [ref_id EntityResolver.realTitle]; try by left.
  destruct (truthy i); [|by left]. right. eexists i, _. split; [reflexivity|].
  split; [reflexivity|].
  destruct (find _ cs) as [c|] eqn:Hfind.
  - left. split; [|reflexivity].
    destruct (decide (i ∈ wikidataId <$> cs)) as [|Hn]; [done|].
    apply find_wikidataId_None in Hn. congruence.
  - right. by apply find_wikidataId_None in Hfind.
Qed.

(** Each candidate with the rank of the search result it comes from. *)
Lemma foldl_addCandidate_ranks (results : list (option WikidataRef)) :
  ∃ ranks : list nat,
    StronglySorted Nat.lt ranks ∧
    Forall (fun rank => (rank < length results)%nat) ranks ∧
    Forall2 (fun c rank =>
               ∃ ref, list_find (fun r => foundId r = Some (wikidataId c)) results
                        = Some (rank, Some ref) ∧
                      title c = realTitle ref)
            (foldl addCandidate [] results) ranks.
Proof.
  induction results as [|r results IH] using rev_ind.
  - exists []. split; [constructor|]. split; constructor.
  - destruct IH as (ranks & Hsorted & Hbound & Hall). rewrite foldl_snoc.
    assert (Hbound' : Forall (fun rank => (rank < length (results ++ [r]))%nat) ranks).
    { eapply Forall_impl; [exact Hbound|]. intros rank Hr. rewrite length_app. simpl in *. lia. }
    assert (Hall' : Forall2 (fun c rank =>
               ∃ ref, list_find (fun r => foundId r = Some (wikidataId c)) (results ++ [r])
                        = Some (rank, Some ref) ∧
                      title c = realTitle ref)
            (foldl addCandidate [] results) ranks).
    { eapply Forall2_impl; [exact Hall|]. intros c rank (ref & Hfind & Htitle).
      exists ref. split; [|exact Htitle]. by apply list_find_app_l. }
    destruct (addCandidate_cases (foldl addCandidate [] results) r)
      as [[_ ->]|(i & ref & -> & Hi & [[_ ->]|[Hnew ->]])];
      [by exists ranks | by exists ranks |].
    exists (ranks ++ [length results]). split; [|split].
    + apply StronglySorted_app_2; [|exact Hsorted | repeat constructor].
      intros x y Hx Hy. apply list_elem_of_singleton in Hy as ->.
      by eapply Forall_forall in Hbound.
    + apply Forall_app. split; [exact Hbound'|]. constructor; [|constructor].
      rewrite length_app. simpl. lia.
    + apply Forall2_app; [exact Hall'|]. constructor; [|constructor].
      exists ref. split; [|reflexivity]. cbn [wikidataId]. apply list_find_Some.
      split; [by rewrite list_lookup_middle|]. split; [exact Hi|].
      intros j y Hy Hj Hfound. apply Hnew.
      destruct (distinct_candidates results) as (_ & Hin & _). apply Hin.
      unfold foundIds. apply list_elem_of_omap. exists y. split; [|exact Hfound].
      rewrite lookup_app_l in Hy by exact Hj. by eapply list_elem_of_lookup_2.
Qed.

(** X18: when the identifier lookups answer, the candidates stand in the
    order of the search results that first led to their identifiers, and each
    carries the title, redirects followed, of that first result; every
    identifier found has its candidate. *)
Theorem candidates_by_rank (g : Globals) (w : World)
    (titles : list string) (results : list (option WikidataRef)) :
  Forall2 (fun t r => getWikidataIdFromWikipedia g w t = inr r) titles results →
  ∃ (cs : list Candidate) (ranks : list nat),
    collectCandidates g w titles [] = inr cs ∧
    StronglySorted Nat.lt ranks ∧
    Forall2 (fun c rank =>
               ∃ ref, list_find (fun r => foundId r = Some (wikidataId c)) results
                        = Some (rank, Some ref) ∧
                      title c = realTitle ref)
            cs ranks ∧
    (∀ i, i ∈ foundIds results → i ∈ wikidataId <$> cs).
Proof.
  intros Hlookups.
  destruct (foldl_addCandidate_ranks results) as (ranks & Hsorted & _ & Hall).
  exists (foldl addCandidate [] results), ranks.
  split; [by apply collectCandidates_spec|]. split; [exact Hsorted|]. split; [exact Hall|].
  intros i Hi. by apply (distinct_candidates results).
Qed.

(** ** Further properties of the text helpers *)

Lemma append_cons (x : ascii) (a b : string) : String x a +:+ b = String x (a +:+ b).
Proof. reflexivity. Qed.

Lemma append_assoc (a b c : string) : (a +:+ b) +:+ c = a +:+ b +:+ c.
Proof. induction a as [|x a IH]; [done|]. rewrite !append_cons. by rewrite IH. Qed.

Lemma length_append (a b : string) :
  String.length (a +:+ b) = (String.length a + String.length b)%nat.
Proof.
  induction a as [|x a IH]; [done|]. rewrite append_cons. cbn [String.length]. by rewrite IH.
Qed.

Lemma string_drop_append (p r : string) : string_drop (String.length p) (p +:+ r) = r.
Proof. induction p as [|x p IH]; [by destruct r|]. exact IH. Qed.

Lemma startsWith_drop (pat s : string) :
  startsWith pat s = true → s = pat +:+ string_drop (String.length pat) s.
Proof.
  intros Hp. apply startsWith_spec in Hp as [r ->]. by rewrite string_drop_append.
Qed.

Lemma split_first_unfold (pat s : string) :
  split_first pat s =
  if startsWith pat s then Some (EmptyString, string_drop (String.length pat) s)
  else match s with
       | EmptyString => None
       | String a s' =>
           match split_first pat s' with
           | Some (before, after) => Some (String a before, after)
           | None => None
           end
       end.
Proof. by destruct s. Qed.

(** [split_first] finds the first occurrence. *)
Lemma split_first_Some (pat s before after : string) :
  split_first pat s = Some (before, after) →
  s = before +:+ pat +:+ after ∧
  ∀ before' after', s = before' +:+ pat +:+ after' →
                    (String.length before ≤ String.length before')%nat.
Proof.
  revert before. induction s as [|c s IH]; intros before; rewrite split_first_unfold.
  - destruct (startsWith pat EmptyString) eqn:Hp; [|discriminate].
    intros [= <- <-]. split; [|intros; simpl; lia]. by apply startsWith_drop.
  - destruct (startsWith pat (String c s)) eqn:Hp.
    + intros [= <- <-]. split; [|intros; simpl; lia]. by apply startsWith_drop.
    + destruct (split_first pat s) as [[b a]|]; [|discriminate].
      intros [= <- <-]. destruct (IH b eq_refl) as [-> Hmin].
      split; [reflexivity|]. intros [|c' before'] after' Heq.
      * assert (startsWith pat (String c (b +:+ pat +:+ a)) = true); [|congruence].
        apply startsWith_spec. by exists after'.
      * rewrite !append_cons in Heq. injection Heq as _ Heq.
        cbn [String.length]. apply Hmin in Heq. lia.
Qed.

Lemma split_first_None (pat s : string) :
  split_first pat s = None ↔ ¬ contains pat s.
Proof.
  rewrite <- includes_spec. induction s as [|c s IH];
    rewrite split_first_unfold, includes_unfold.
  - destruct (startsWith pat EmptyString); split; first [done | by intros []].
  - destruct (startsWith pat (String c s)); cbn [orb];
      [split; first [done | by intros []]|].
    destruct (split_first pat s) as [[b a]|].
    + split; [done|]. intros Hn. destruct IH as [_ IH]. by discriminate IH.
    + destruct IH as [IH _]. split; [intros _; by apply IH | done].
Qed.

(** [s.split(sep)[0]]: the text before the first separator, or all of it. *)
Lemma before_first_spec (sep s : string) :
  sep ≠ EmptyString →
  ¬ contains sep (before_first sep s) ∧
  ((¬ contains sep s ∧ before_first sep s = s) ∨
   (∃ after, s = before_first sep s +:+ sep +:+ after)).
Proof.
  intros Hsep. unfold before_first.
  destruct (split_first sep s) as [[before after]|] eqn:Hsplit.
  - apply split_first_Some in Hsplit as [-> Hmin]. split; [|right; by exists after].
    intros (x & y & Hxy).
    specialize (Hmin x (y +:+ sep +:+ after)).
    rewrite Hxy, !append_assoc in Hmin. specialize (Hmin eq_refl).
    rewrite !length_append in Hmin. destruct sep; [done|]. cbn [String.length] in Hmin. lia.
  - apply split_first_None in Hsplit. split; [exact Hsplit | by left].
Qed.

(** X19: the language detected from the browser is the first truthy one
    of [navigator.language], [navigator.userLanguage] and "en", cut before
    its first hyphen: it never holds a hyphen, and the tag is this language,
    alone or followed by a hyphen and more. *)
Theorem getBrowserLanguage_primary (navigator : Navigator) :
  ∃ tag,
    ((language navigator = Some tag ∧ truthy tag = true) ∨
     (truthy_opt (language navigator) = false ∧
      userLanguage navigator = Some tag ∧ truthy tag = true) ∨
     (truthy_opt (language navigator) = false ∧
      truthy_opt (userLanguage navigator) = false ∧ tag = "en")) ∧
    ¬ contains "-" (getBrowserLanguage navigator) ∧
    (tag = getBrowserLanguage navigator ∨
     ∃ region, tag = getBrowserLanguage navigator +:+ "-" +:+ region) ∧
    CURRENT_LANG (initialGlobals navigator) = getBrowserLanguage navigator.
Proof.
  unfold getBrowserLanguage, initialGlobals. cbn [CURRENT_LANG]. cbn zeta.
  set (tag := default "en" (or_else (or_else (language navigator) (userLanguage navigator))
                                    (Some "en"))).
  exists tag. split; [|split; [|split; [|reflexivity]]].
  - subst tag.
    destruct (language navigator) as [[|a l]|], (userLanguage navigator) as [[|b u]|];
      first [by left | by right; left | by right; right].
  - by apply before_first_spec.
  - destruct (before_first_spec "-" tag) as [_ [[_ Heq]|[region Hregion]]]; [done | |].
    + left. by rewrite Heq.
    + right. by exists region.
Qed.

(** *** Captures *)

Lemma capture_line_unfold (close s : string) :
  capture_line close s =
  if startsWith close s then Some EmptyString
  else match s with
       | EmptyString => None
       | String a s' =>
           if existsb (fun t => startsWith t s) line_terminators then None
           else String a <$> capture_line close s'
       end.
Proof. by destruct s. Qed.

Lemma capture_first_unfold (open close s : string) :
  capture_first open close s =
  match (if startsWith open s
         then capture_line close (string_drop (String.length open) s)
         else None) with
  | Some c => Some c
  | None =>
      match s with
      | EmptyString => None
      | String _ s' => capture_first open close s'
      end
  end.
Proof. by destruct s. Qed.

Lemma has_prefix_append (t c rest : string) : has_prefix t c → has_prefix t (c +:+ rest).
Proof. intros [r ->]. exists (r +:+ rest). apply append_assoc. Qed.

(** The capture runs up to the closing text and holds no line terminator. *)
Lemma capture_line_Some (close s c : string) :
  capture_line close s = Some c →
  has_prefix (c +:+ close) s ∧
  ∀ t, t ∈ line_terminators → ¬ contains t c.
Proof.
  revert c. induction s as [|a s IH]; intros c; rewrite capture_line_unfold.
  - destruct (startsWith close EmptyString) eqn:Hclose; [|discriminate].
    intros [= <-]. split; [by apply startsWith_spec|].
    intros t Ht Hc. apply includes_spec in Hc.
    repeat (apply elem_of_cons in Ht as [->|Ht]; [discriminate|]). by apply elem_of_nil in Ht.
  - destruct (startsWith close (String a s)) eqn:Hclose.
    + intros [= <-]. split; [by apply startsWith_spec|].
      intros t Ht Hc. apply includes_spec in Hc.
      repeat (apply elem_of_cons in Ht as [->|Ht]; [discriminate|]). by apply elem_of_nil in Ht.
    + destruct (existsb _ line_terminators) eqn:Hterm; [discriminate|].
      destruct (capture_line close s) as [c'|]; [|discriminate].
      intros [= <-]. destruct (IH c' eq_refl) as [[rest Hrest] Hclean].
      split; [exists rest; rewrite append_cons; by rewrite Hrest|].
      intros t Ht Hc. apply includes_spec in Hc. rewrite includes_unfold in Hc.
      apply orb_true_iff in Hc as [Hc|Hc].
      * assert (existsb (fun t => startsWith t (String a s)) line_terminators = true);
          [|congruence].
        apply existsb_elem_of. exists t. split; [exact Ht|].
        apply startsWith_spec. rewrite Hrest, append_assoc, <- append_cons.
        apply has_prefix_append. by apply startsWith_spec.
      * apply includes_spec in Hc. by apply (Hclean t).
Qed.

Lemma capture_here (open close s c : string) :
  startsWith open s = true →
  capture_line close (string_drop (String.length open) s) = Some c →
  contains (open +:+ c +:+ close) s ∧
  ∀ t, t ∈ line_terminators → ¬ contains t c.
Proof.
  intros Hopen Hline. apply startsWith_drop in Hopen.
  apply capture_line_Some in Hline as [[rest Hrest] Hclean].
  split; [|exact Hclean]. exists EmptyString, rest.
  etrans; [exact Hopen|]. rewrite Hrest. cbn [String.append]. by rewrite !append_assoc.
Qed.

Lemma capture_first_Some (open close s c : string) :
  capture_first open close s = Some c →
  contains (open +:+ c +:+ close) s ∧
  ∀ t, t ∈ line_terminators → ¬ contains t c.
Proof.
  induction s as [|a s IH]; rewrite capture_first_unfold.
  - destruct (startsWith open EmptyString) eqn:Hopen; [|discriminate].
    destruct (capture_line close _) as [c'|] eqn:Hline; [|discriminate].
    intros [= ->]. by apply capture_here.
  - destruct (if startsWith open (String a s) then _ else None) as [c'|] eqn:Hhere.
    + intros [= ->]. destruct (startsWith open (String a s)) eqn:Hopen; [|discriminate].
      by apply capture_here.
    + intros Hlater. destruct (IH Hlater) as [(x & y & Hxy) Hclean].
      split; [|exact Hclean]. exists (String a x), y. by rewrite Hxy.
Qed.

(** X20: a field of a paper is text that stands in the entry between its
    two tags and holds no line terminator; a field whose text is broken over
    several lines in the entry is therefore never read from that place. *)
Theorem paper_fields_one_line (entry : string) :
  let paper := paperOfEntry entry in
  (∀ v, pa_title paper = Some v →
        contains ("<title>" +:+ v +:+ "</title>") entry ∧
        ∀ t, t ∈ line_terminators → ¬ contains t v) ∧
  (∀ v, pa_summary paper = Some v →
        contains ("<summary>" +:+ v +:+ "</summary>") entry ∧
        ∀ t, t ∈ line_terminators → ¬ contains t v) ∧
  (∀ v, pa_published paper = Some v →
        contains ("<published>" +:+ v +:+ "</published>") entry ∧
        ∀ t, t ∈ line_terminators → ¬ contains t v) ∧
  (∀ v, pa_url paper = Some v →
        contains ("<id>" +:+ v +:+ "</id>") entry ∧
        ∀ t, t ∈ line_terminators → ¬ contains t v).
Proof.
  cbn zeta. unfold paperOfEntry. cbn [pa_title pa_summary pa_published pa_url].
  split; [|split; [|split]]; intros v Hv; exact (capture_first_Some _ _ _ _ Hv).
Qed.

(** ** Further properties of the candidates *)

Section WriteFacts.
Context `{JsRuntime}.

Lemma addProperty_writes (claims : gmap string (list Claim)) (m : JsMap Connected)
    (entry : string * string) :
  addProperty claims m entry =
  foldl (fun m p => map_set p.1 (structuralCandidate p.1 p.2) m) m
        (match claims !! entry.1 with
         | Some values => (fun i => (i, entry.2)) <$> omap claimId values
         | None => []
         end).
Proof.
  unfold addProperty. destruct (claims !! entry.1) as [values|]; [|reflexivity].
  revert m. induction values as [|claim values IH]; intros m; [reflexivity|].
  cbn [foldl omap list_omap]. rewrite IH, addClaim_claimId.
  by destruct (claimId claim).
Qed.

Lemma structuralMap_writes (entity : Entity) :
  structuralMap entity =
  foldl (fun m p => map_set p.1 (structuralCandidate p.1 p.2) m) [] (structuralWrites entity).
Proof.
  unfold structuralMap, structuralWrites.
  destruct (wikidata (sources entity) ≫= wd_claims) as [claims|]; [|reflexivity].
  generalize IMPORTANT_PROPERTIES. generalize ([] : JsMap Connected).
  intros m table. revert m. induction table as [|entry table IH]; intros m; [reflexivity|].
  cbn [foldl flat_map]. by rewrite foldl_app, IH, addProperty_writes.
Qed.

(** The entry of an identifier is the one its last write left. *)
Lemma map_get_writes (k : string) (writes : list (string * string)) :
  map_get k (foldl (fun m p => map_set p.1 (structuralCandidate p.1 p.2) m) [] writes) =
  (fun p => structuralCandidate k p.2) <$> last (filter (fun p => p.1 = k) writes).
Proof.
  induction writes as [|[i rel] writes IH] using rev_ind; [reflexivity|].
  rewrite foldl_snoc, map_get_set, filter_app. cbn [fst snd].
  destruct (String.eqb_spec k i) as [->|Hne].
  - rewrite filter_cons_True by done. rewrite filter_nil. by rewrite last_snoc.
  - rewrite filter_cons_False by (cbn; congruence). rewrite filter_nil, app_nil_r. exact IH.
Qed.

End WriteFacts.

(** X22: an identifier that several claims of the allow-listed properties
    refer to has one candidate, and its relation type is that of the last
    such claim in the order of the property table: a later write replaces
    the type an earlier one gave. *)
Theorem last_relation_wins `{JsRuntime} (entity : Entity) (i relationType : string) :
  last (filter (fun p => p.1 = i) (structuralWrites entity)) = Some (i, relationType) →
  structuralCandidate i relationType ∈ extractConnectedEntities entity ∧
  ∀ c, c ∈ extractConnectedEntities entity → c_id c = i →
       c = structuralCandidate i relationType.
Proof.
  intros Hlast.
  assert (Hget : map_get i (connectedMapOf entity) = Some (structuralCandidate i relationType)).
  { rewrite connectedMapOf_get, structuralMap_writes, map_get_writes, Hlast. reflexivity. }
  split.
  - by apply extract_get.
  - intros c Hc Hid. apply extract_get in Hc. rewrite Hid in Hc. congruence.
Qed.

(** X21: the name of a resolved entity follows the language set last: it
    is the label of the record in that language; without one (or with an
    empty one) the English label; without that either, the title the
    resolution was asked with. *)
Theorem name_falls_back `{JsRuntime} (g : Globals) (w : World) (lang title wikidataId : string)
    (entity : Entity) :
  resolveEntityFromCandidate (setLanguage lang g) w title wikidataId = inr entity →
  ∃ record,
    wikidata_entity w wikidataId = inr (Some record) ∧
    id entity = wikidataId ∧
    ((∃ l, labels record !! lang = Some l ∧ truthy l = true ∧ name entity = l) ∨
     (truthy_opt (labels record !! lang) = false ∧
      ∃ l, labels record !! "en" = Some l ∧ truthy l = true ∧ name entity = l) ∨
     (truthy_opt (labels record !! lang) = false ∧
      truthy_opt (labels record !! "en") = false ∧ name entity = title)).
Proof.
  intros Hres.
  apply resolveEntityFromCandidate_id in Hres as (record & Hrecord & Hid & Hname & _).
  exists record. split; [exact Hrecord|]. split; [by rewrite <- Hid|].
  rewrite <- Hname. cbn [baseEntity name setLanguage CURRENT_LANG]. unfold getLabel, or_else.
  destruct (labels record !! lang) as [[|a l]|], (labels record !! "en") as [[|b l']|];
    cbn [truthy_opt truthy default];
    first [ by left; eexists | by right; left; split; [|eexists] | by right; right ].
Qed.

(** ** The further properties on sample inputs *)

Lemma structural_relations_first_witness :
  0 ≤ 2 ∧
  length (remove_dups (structuralIds ex_entity)) = 3%nat ∧
  c_id <$> limitedEntities (H := ascii_runtime) 2 ex_entity = ["Q5"; "Q639669"] ∧
  ∀ i, i ∈ structuralIds ex_entity →
       i ∈ n_id <$> nodes (buildGraph (H := ascii_runtime) ex_offline ex_entity 1 20).
Proof.
  split; [lia|]. split; [by vm_compute|]. split.
  - destruct (structural_relations_first (H := ascii_runtime) ex_offline ex_entity 1 2)
      as [Hkept _]; [lia|].
    rewrite Hkept. by vm_compute.
  - destruct (structural_relations_first (H := ascii_runtime) ex_offline ex_entity 1 20)
      as [_ Hnodes]; [lia|].
    apply Hnodes; [lia|]. vm_compute. discriminate.
Defined.

Lemma graph_shape_witness :
  1 ≤ 1 ∧
  edges (buildGraph (H := ascii_runtime) ex_offline ex_entity 1 20) =
  edgeTo (id ex_entity) <$> limitedEntities (H := ascii_runtime) 20 ex_entity.
Proof.
  split; [lia|].
  destruct (graph_shape (H := ascii_runtime) ex_offline ex_entity 1 20) as [_ Hedges];
    [lia | exact Hedges].
Defined.

Lemma depth_zero_graph_witness :
  0 ≤ 0 ∧ edges (buildGraph (H := ascii_runtime) ex_offline ex_entity 0 20) = [].
Proof.
  split; [lia|].
  destruct (depth_zero_graph (H := ascii_runtime) ex_offline ex_entity 0 20)
    as (_ & Hedges & _); [lia | exact Hedges].
Defined.

Lemma edges_never_associative_witness :
  Forall (fun e => e_value e = 3 ∨ e_value e = 2)
         (edges (buildGraph (H := ascii_runtime) ex_offline ex_entity 1 20)).
Proof.
  apply Forall_forall. intros e He.
  destruct (edges_never_associative (H := ascii_runtime) ex_offline ex_entity 1 20 e He)
    as [_ [(Hv & _)|(Hv & _)]]; [left | right]; exact Hv.
Defined.

Lemma center_label_replaced_witness :
  startsWith "Q" (id ex_entity) = true ∧
  name ex_entity = "Sidney Bechet" ∧
  n_label <$> nodes (buildGraph (H := ascii_runtime) ex_bilingual ex_entity 1 20) !! 0%nat =
  Some "Q1".
Proof.
  split; [reflexivity|]. split; [reflexivity|].
  rewrite (center_label_replaced (H := ascii_runtime) ex_bilingual ex_entity 1 20
             {[ "Q5" := {[ "fr" := "humain" ]} ]});
    reflexivity.
Defined.

Lemma rejected_request_keeps_placeholders_witness :
  Forall (fun n => n_label n = name ex_entity ∨ n_label n = n_id n ∨
                   n_id n = "wiki:" +:+ n_label n)
         (nodes (buildGraph (H := ascii_runtime) ex_offline ex_entity 1 20)).
Proof.
  apply Forall_forall. intros n Hn.
  destruct (rejected_request_keeps_placeholders (H := ascii_runtime) ex_offline ex_entity 1 20
              (Rejected "NetworkError") n eq_refl Hn)
    as [(_ & _ & Hl)|(_ & [(_ & Hl)|(Hl & _)])]; auto.
Defined.

Lemma resolveConnectedEntities_batches_witness :
  1 ≤ 2 ∧ (length ["bechet"; "jazz"; "paris"] < 4)%nat ∧
  resolveConnectedEntities (H := ascii_runtime) ex_globals (ex_search "Q2")
    ["bechet"; "jazz"; "paris"] 2 4 =
  Some (fulfilledOf (H := ascii_runtime) ex_globals (ex_search "Q2")
          ["bechet"; "jazz"; "paris"]).
Proof.
  split; [lia|]. split; [simpl; lia|].
  destruct (resolveConnectedEntities_batches (H := ascii_runtime) ex_globals (ex_search "Q2")
              ["bechet"; "jazz"; "paris"] 2 4) as [Hres _]; [lia | simpl; lia | exact Hres].
Defined.

Lemma resolveConnectedEntities_never_ends_witness :
  0 ≤ 0 ∧ ["bechet"] ≠ [] ∧
  resolveConnectedEntities (H := ascii_runtime) ex_globals ex_offline ["bechet"] 0 1000 = None.
Proof.
  split; [lia|]. split; [discriminate|].
  apply (resolveConnectedEntities_never_ends (H := ascii_runtime)); [lia | discriminate].
Defined.

Lemma updateHistory_goes_back_witness :
  NoDup (App.h_id <$> App.history ex_breadcrumb) ∧
  App.updateHistory "Q8341" "Jazz (musique)" (App.history ex_breadcrumb) =
  take 2 (App.history ex_breadcrumb).
Proof.
  assert (Hnd : NoDup (App.h_id <$> App.history ex_breadcrumb)).
  { apply (bool_decide_unpack _). by vm_compute. }
  split; [exact Hnd|].
  exact (updateHistory_goes_back "Jazz (musique)" (App.history ex_breadcrumb) 1
           (App.Build_HistoryItem "Q8341" "Jazz") Hnd eq_refl).
Defined.

Lemma navigateBack_outcome_witness :
  NoDup (App.h_id <$> App.history ex_breadcrumb) ∧
  App.history (App.navigateBack (H := ascii_runtime) ex_globals (ex_search "Q2")
                 (App.Build_HistoryItem "Q8341" "Jazz") ex_breadcrumb) =
  take 2 (App.history ex_breadcrumb).
Proof.
  assert (Hnd : NoDup (App.h_id <$> App.history ex_breadcrumb)).
  { apply (bool_decide_unpack _). by vm_compute. }
  split; [exact Hnd|].
  destruct (navigateBack_outcome (H := ascii_runtime) ex_globals (ex_search "Q2") ex_breadcrumb 1
              (App.Build_HistoryItem "Q8341" "Jazz") Hnd eq_refl) as [_ Hback].
  destruct (Hback eq_refl) as (_ & _ & _ & Hfetched & _).
  destruct (Hfetched (ex_record "Q5") eq_refl) as (entity & _ & _ & _ & _ & Hhistory).
  exact Hhistory.
Defined.

Lemma sources_need_identifier_witness :
  ∃ entity,
    resolveEntityFromCandidate (H := ascii_runtime) ex_globals (ex_search "Q1")
      "Sidney Bechet" "Q1" = inr entity ∧
    tmdb (sources entity) = None.
Proof.
  eexists. split; [reflexivity|].
  exact (proj1 (sources_need_identifier (H := ascii_runtime) ex_globals (ex_search "Q1")
                  "Sidney Bechet" "Q1" _ eq_refl)).
Defined.

Lemma sources_bounded_witness :
  ∃ entity,
    resolveEntityFromCandidate (H := ascii_runtime) ex_globals (ex_search "Q1")
      "Sidney Bechet" "Q1" = inr entity ∧
    ∀ images, wikimedia_commons (sources entity) = Some images → (length images ≤ 5)%nat.
Proof.
  eexists. split; [reflexivity|].
  destruct (sources_bounded (H := ascii_runtime) ex_globals (ex_search "Q1")
              "Sidney Bechet" "Q1" _ eq_refl) as (_ & _ & _ & Himages & _).
  exact Himages.
Defined.

Lemma external_links_partition_witness :
  ∃ groups,
    external_links
      (sources (enrichFromWikipediaExternalLinks (H := ascii_runtime) ex_globals ex_linked
                  ex_entity "Sidney Bechet").1) = Some groups ∧
    lo_url <$> concat groups.*2 ≡ₚ
    [ "https://www.allmusic.com/artist/sidney-bechet"; "https://sidneybechet.org/" ].
Proof.
  destruct (external_links_partition (H := ascii_runtime) ex_globals ex_linked ex_entity
              "Sidney Bechet" _ eq_refl) as (groups & Hgroups & _ & Hperm).
  exists groups. split; [exact Hgroups | exact Hperm].
Defined.

Lemma candidates_by_rank_witness :
  ∃ cs, collectCandidates ex_globals (ex_search "Q1") ["Bechet"; "Bechet (homonymie)"] [] =
          inr cs ∧
        title <$> cs = ["Sidney Bechet"].
Proof.
  assert (Hlookups : Forall2 (fun t r => getWikidataIdFromWikipedia ex_globals (ex_search "Q1") t
                                         = inr r)
                       ["Bechet"; "Bechet (homonymie)"] ex_lookups).
  { repeat constructor. }
  destruct (candidates_by_rank ex_globals (ex_search "Q1") _ _ Hlookups)
    as (cs & ranks & Hcs & _ & _ & _).
  exists cs. split; [exact Hcs|].
  injection Hcs as <-. reflexivity.
Defined.

Lemma last_relation_wins_witness :
  (("Q5", "type") ∈ structuralWrites ex_entity) ∧
  structuralCandidate "Q5" "occupation" ∈ extractConnectedEntities (H := ascii_runtime) ex_entity.
Proof.
  split; [apply (bool_decide_unpack _); by vm_compute|].
  exact (proj1 (last_relation_wins (H := ascii_runtime) ex_entity "Q5" "occupation" eq_refl)).
Defined.

Lemma name_falls_back_witness :
  ∃ entity,
    resolveEntityFromCandidate (H := ascii_runtime) (setLanguage "de" ex_globals)
      (ex_search "Q1") "Bechet" "Q1" = inr entity ∧
    name entity = "Bechet".
Proof.
  eexists. split; [reflexivity|].
  destruct (name_falls_back (H := ascii_runtime) ex_globals (ex_search "Q1") "de" "Bechet" "Q1"
              _ eq_refl) as (record & Hrecord & _ & Hname).
  injection Hrecord as <-.
  destruct Hname as [(l & Hl & _)|[(_ & l & Hl & _)|(_ & _ & Hname)]];
    [discriminate Hl | discriminate Hl | exact Hname].
Defined.
